(** * Break timer: deadline resolver and timer state machine

    A shallow embedding of the three versions of the Vue component of the
    repository:

    - [AutoStop]  : [src/App.vue]; a preset starts at once, and the run
                    stops by itself when the time is up;
    - [Precise]   : the version with a pending selection, a precise end
                    time and the 5:00 PM Eastern shortcut; it shows an
                    "overdue" banner and never stops by itself;
    - [Preview]   : the version with a pending selection of minutes only.

    JavaScript values are modelled as follows.
    - A [number] that holds a time value or a count of milliseconds or of
      minutes is an integer or [NaN].  The component adds, subtracts and
      multiplies such numbers, and whenever the exact result is a time
      value (at most 8.64e15 in magnitude) every operand is an integer
      below 2^53 and the double arithmetic is exact; a sum or product
      beyond that only ever goes into a [Date], where [TimeClip] makes it
      [NaN].  The remaining time [end - now] is a difference of two time
      values: it is exact up to 2^53, that is unless the end and the
      clock are more than 285,000 years apart; the model subtracts
      exactly there too.
    - The number of a custom-minutes text is a [double]: [NaN], an
      infinity, or the rational value of a finite double.
    - A [Date] is its time value; the component never changes a [Date]
      after it has stored it.
    - [T | null] is [option T]; an exception is [None] of a result.
    - The clock ([new Date()], [Date.now()]) is an input of the operation
      that reads it.  A [computed] ref whose getter reads the clock keeps
      the value of its last evaluation: the getter is a function of the
      clock reading of that evaluation, and [Computed] adds the caches for
      the refs of the precise end.
    - The timers of [window] ([setInterval], [clearInterval]) are a finite
      map from handles to the scheduled callbacks.
    The formatters that go through the locale of the browser
    ([formatClock], [formatInZone]) are left out. *)

From Stdlib Require Import ZArith QArith Qround Lia Bool List String Ascii DecimalString.
From stdpp Require Import base option gmap.

Local Open Scope Z_scope.

(** ** Numbers and dates *)

Inductive number : Type :=
| NaN : number
| Num (z : Z) : number.

(** [a + b], [a - b], [a * b] on numbers. *)
Definition nadd (a b : number) : number :=
  match a, b with Num x, Num y => Num (x + y) | _, _ => NaN end.
Definition nsub (a b : number) : number :=
  match a, b with Num x, Num y => Num (x - y) | _, _ => NaN end.
Definition nmul (a b : number) : number :=
  match a, b with Num x, Num y => Num (x * y) | _, _ => NaN end.

(** [a <= b] and [a > b]: every comparison with [NaN] is false. *)
Definition nle (a b : number) : bool :=
  match a, b with Num x, Num y => x <=? y | _, _ => false end.
Definition ngt (a b : number) : bool :=
  match a, b with Num x, Num y => y <? x | _, _ => false end.

(** [Math.max(0, v)]. *)
Definition max0 (v : number) : number :=
  match v with Num z => Num (Z.max 0 z) | NaN => NaN end.

Definition maxTimeValue : Z := 8640000000000000.

(** The abstract operation TimeClip of the language: a time value is an
    integer of magnitude at most 8.64e15, everything else is [NaN]. *)
Definition TimeClip (v : number) : number :=
  match v with
  | Num z => if Z.abs z <=? maxTimeValue then Num z else NaN
  | NaN => NaN
  end.

Record Date : Type := mkDate { getTime : number }.

(** [new Date(v)] for a number [v]. *)
Definition newDate (v : number) : Date := mkDate (TimeClip v).

(** [new Date()] when the clock shows [now]. *)
Definition dateNow (now : Z) : Date := mkDate (Num now).

(** ** The calendar of [Date.UTC] and of [Intl.DateTimeFormat] *)

Definition msPerSecond : Z := 1000.
Definition msPerMinute : Z := 60000.
Definition msPerHour : Z := 3600000.
Definition msPerDay : Z := 86400000.

(** The calendar counts in cycles of 400 years (146097 days) that begin on
    a 1st of March; within a cycle, years and months are counted from
    March too, so that the leap day comes last. *)

(** Days of a cycle before its year [yoe] (0..399). *)
Definition days_before_year (yoe : Z) : Z := 365 * yoe + yoe / 4 - yoe / 100.

(** Days of a year before its month [mp] (0 = March, ..., 11 = February). *)
Definition days_before_month (mp : Z) : Z := (153 * mp + 2) / 5.

(** The year of a cycle that holds its day [doe] (0..146096). *)
Definition year_of_era (doe : Z) : Z :=
  (doe - doe / 1460 + doe / 36524 - doe / 146096) / 365.

(** The month (from March) that holds day [doy] of a year (from March). *)
Definition month_of_year (doy : Z) : Z := (5 * doy + 2) / 153.

(** Day number (days since 1970-01-01) of a date of the proleptic
    Gregorian calendar; months count from 1. *)
Definition days_from_civil (y m d : Z) : Z :=
  let y' := if m <=? 2 then y - 1 else y in
  let era := y' / 400 in
  let yoe := y' mod 400 in
  let mp := if 2 <? m then m - 3 else m + 9 in
  let doy := days_before_month mp + d - 1 in
  let doe := days_before_year yoe + doy in
  era * 146097 + doe - 719468.

(** The month (1..12) and the day of the month of day [doe] of a cycle. *)
Definition month_day (doe : Z) : Z * Z :=
  let doy := doe - days_before_year (year_of_era doe) in
  let mp := month_of_year doy in
  (if mp <? 10 then mp + 3 else mp - 9, doy - days_before_month mp + 1).

(** Year, month (1..12) and day of the month of a day number. *)
Definition civil_from_days (z : Z) : Z * Z * Z :=
  let z' := z + 719468 in
  let era := z' / 146097 in
  let doe := z' mod 146097 in
  let yoe := year_of_era doe in
  let doy := doe - days_before_year yoe in
  let mp := month_of_year doy in
  let d := doy - days_before_month mp + 1 in
  let m := if mp <? 10 then mp + 3 else mp - 9 in
  let y := yoe + era * 400 + (if m <=? 2 then 1 else 0) in
  (y, m, d).

(** MakeDay(year, month, date) of the language: [month] counts from 0 and
    may lie outside 0..11. *)
Definition MakeDay (year month date : Z) : Z :=
  let ym := year + month / 12 in
  let mn := month mod 12 in
  days_from_civil ym (mn + 1) 1 + date - 1.

Definition MakeTime (hour min sec ms : Z) : Z :=
  hour * msPerHour + min * msPerMinute + sec * msPerSecond + ms.

Definition MakeDate (day time : Z) : Z := day * msPerDay + time.

(** [Date.UTC(y, mo, d, h, mi, s, ms)]: a year from 0 to 99 stands for
    1900 + year, and the result is clipped. *)
Definition DateUTC (y mo d h mi s ms : Z) : number :=
  let yr := if (0 <=? y) && (y <=? 99) then 1900 + y else y in
  TimeClip (Num (MakeDate (MakeDay yr mo d) (MakeTime h mi s ms))).

(** The fields [Intl.DateTimeFormat(...).formatToParts] prints, read back
    with [Number(...)]. *)
Record Parts : Type := mkParts {
  p_year : Z; p_month : Z; p_day : Z;
  p_hour : Z; p_minute : Z; p_second : Z
}.

(** The fields of the wall clock that shows [local] milliseconds since
    1970-01-01T00:00 of its own zone (24-hour clock, hours 0..23). *)
Definition wallClock (local : Z) : Parts :=
  let '(y, m, d) := civil_from_days (local / msPerDay) in
  let tod := local mod msPerDay in
  mkParts y m d (tod / msPerHour) ((tod / msPerMinute) mod 60)
          ((tod / msPerSecond) mod 60).

(** ** The zone database of the runtime for America/New_York

    [Intl.DateTimeFormat] takes the offset of the zone from the runtime,
    so the shortcut is modelled over any offset function, and the
    theorems say what they ask of it.  [newYorkOffset] is the rule of the
    database in force since 2007-03-11T07:00Z: Eastern Standard Time is
    UTC-5; daylight time (UTC-4) runs from the second Sunday of March,
    07:00 UTC, to the first Sunday of November, 06:00 UTC.  Before 2007
    the database has other dates for daylight time, and before
    1883-11-18T17:00Z the local mean time of New York, [localMeanTime];
    [newYorkOffset] stands for the database at instants since 2007 (and
    where a lemma says so, at an instant where the rule of the time gives
    the same date and offset). *)

(** Day of the week of a day number, 0 = Sunday. *)
Definition weekDay (day : Z) : Z := (day + 4) mod 7.

(** Whether daylight time is on at [tod] milliseconds into a UTC day that
    is the [d]th of month [m] and day [wd] of the week. *)
Definition daylightRule (m d wd tod : Z) : bool :=
  (* the date of the last Sunday up to today, possibly before the 1st *)
  let sunday := d - wd in
  if m =? 3 then
    (8 <=? sunday) && (negb (wd =? 0) || (15 <=? d) || (7 * msPerHour <=? tod))
  else if m =? 11 then
    negb ((1 <=? sunday) && (negb (wd =? 0) || (8 <=? d) || (6 * msPerHour <=? tod)))
  else (3 <? m) && (m <? 11).

Definition daylightOn (day tod : Z) : bool :=
  let '(_, m, d) := civil_from_days day in
  daylightRule m d (weekDay day) tod.

Definition usDaylight (t : Z) : bool :=
  daylightOn (t / msPerDay) (t mod msPerDay).

Definition newYorkOffset (t : Z) : Z :=
  if usDaylight t then -4 * msPerHour else -5 * msPerHour.

(** 4:56:02 behind UTC. *)
Definition localMeanTime : Z := -17762000.

(** Day number and time value of 0100-01-01T00:00: from this day on
    [Date.UTC] takes the year of a date as it is (a year from 0 to 99
    stands for 1900 + year), and the formatter prints the year as a plain
    number. *)
Definition firstPlainDay : Z := -683003.
Definition firstPlainYear : Z := firstPlainDay * msPerDay.

(** A zone that, from the day before [now] to three days after it, is
    between five and four hours behind UTC by a whole number of seconds
    and keeps its offset from 21:00 to 22:00 UTC of each day, when its
    wall clock shows 16:00 to 18:00.  The database's America/New_York is
    so around every [now]: it has changed its offset at 06:00 or 07:00
    UTC, and once, on 1883-11-18, at 17:00 UTC. *)
Definition easternAround (offset : Z -> Z) (now : Z) : Prop :=
  (forall t, offset t mod 1000 = 0) /\
  (forall t, now - msPerDay <= t <= now + 3 * msPerDay ->
             - 5 * msPerHour <= offset t <= - 4 * msPerHour) /\
  (forall k t,
     now - msPerDay <= k * msPerDay + 21 * msPerHour ->
     k * msPerDay + 22 * msPerHour <= now + 3 * msPerDay ->
     k * msPerDay + 21 * msPerHour <= t <= k * msPerDay + 22 * msPerHour ->
     offset t = offset (k * msPerDay + 21 * msPerHour)).

(** ** The 5:00 PM Eastern shortcut of [Precise] *)

Module EndOfDay.
Section Zone.

(** The offset from UTC, in milliseconds, that the runtime gives the zone
    at an instant. *)
Variable offset : Z -> Z.

(** [dtf.formatToParts(d)], its parts read back as numbers.  A date that
    is not valid makes it throw a RangeError, which is [None].  (The
    fields are those of the proleptic calendar with hours 0..23; a
    formatter prints years before 1 by era, and some print midnight as
    hour 24: the shortcut asks for neither when the clock shows a date of
    our era, since it formats instants between 07:00 and 18:00 of the
    zone.) *)
Definition formatToParts (d : Date) : option Parts :=
  match getTime d with
  | Num ts => Some (wallClock (ts + offset ts))
  | NaN => None
  end.

Definition getOffsetMs (ts : number) : option number :=
  match formatToParts (newDate ts) with
  | Some m =>
      let asUTC := DateUTC (p_year m) (p_month m - 1) (p_day m)
                           (p_hour m) (p_minute m) (p_second m) 0 in
      Some (nsub asUTC ts)
  | None => None
  end.

Definition zonedTimeToUtc (y mo d h mi : Z) : option number :=
  let initial := DateUTC y (mo - 1) d h mi 0 0 in
  match getOffsetMs initial with
  | Some off1 =>
      let guess := nsub initial off1 in
      match getOffsetMs guess with
      | Some off2 => Some (nsub initial off2)
      | None => None
      end
  | None => None
  end.

(** The instant [shortcutEndOfDay] hands to [setPrecise] when the clock
    shows [now]. *)
Definition targetMs (now : Z) : option number :=
  match formatToParts (dateNow now) with
  | None => None
  | Some map =>
      let year := p_year map in
      let month := p_month map in
      let day := p_day map in
      match zonedTimeToUtc year month day 17 0 with
      | None => None
      | Some target =>
          if nle target (Num now) then
            match zonedTimeToUtc year month day 12 0 with
            | None => None
            | Some todayInEt =>
                let tomorrowEt :=
                  newDate (nadd todayInEt (Num (24 * 60 * 60 * 1000))) in
                match formatToParts tomorrowEt with
                | None => None
                | Some mt =>
                    zonedTimeToUtc (p_year mt) (p_month mt) (p_day mt) 17 0
                end
            end
          else Some target
      end
  end.

End Zone.
End EndOfDay.

(** ** [Number(string)]

    The value of a custom-minutes text is a double: [NaN], an infinity or
    a finite value, here the rational it stands for (the two zeros are not
    told apart: nothing the component does can see the difference). *)

Inductive double : Type :=
| DNaN : double
| DInf (negative : bool) : double
| DFin (q : Q) : double.

(** Nearest integer, ties to even. *)
Definition round_half_even (q : Q) : Z :=
  let f := Qfloor q in
  match Qcompare (q - inject_Z f) (1 # 2) with
  | Lt => f
  | Gt => f + 1
  | Eq => if Z.even f then f else f + 1
  end.

(** The double nearest to a positive rational (round to nearest, ties to
    even, 53 bits, least exponent -1074); [None] when it is too large to
    be finite. *)
Definition nearest_double (q : Q) : option Q :=
  let e0 := Z.log2 (Qnum q) - Z.log2 (Zpos (Qden q)) in
  let e := if Qle_bool (Qpower 2 e0) q then e0 else e0 - 1 in
  let ulp := Z.max (e - 52) (-1074) in
  let m := round_half_even (q / Qpower 2 ulp) in
  let v := Qred (inject_Z m * Qpower 2 ulp) in
  if Qle_bool (Qpower 2 1024) v then None else Some v.

Definition round_double (negative : bool) (q : Q) : double :=
  if Qle_bool q 0 then DFin 0
  else match nearest_double q with
       | Some v => DFin (if negative then Qopp v else v)
       | None => DInf negative
       end.

Definition is_white (c : ascii) : bool :=
  let n := nat_of_ascii c in
  ((9 <=? n) && (n <=? 13))%nat || (n =? 32)%nat.

Fixpoint trim_left (s : list ascii) : list ascii :=
  match s with
  | c :: r => if is_white c then trim_left r else s
  | [] => []
  end.

Definition trim (s : list ascii) : list ascii :=
  rev (trim_left (rev (trim_left s))).

(** The value of a digit in a base up to 16. *)
Definition digit_value (base : Z) (c : ascii) : option Z :=
  let n := Z.of_nat (nat_of_ascii c) in
  let v := if (48 <=? n) && (n <=? 57) then n - 48
           else if (97 <=? n) && (n <=? 102) then n - 87
           else if (65 <=? n) && (n <=? 70) then n - 55
           else 16 in
  if v <? base then Some v else None.

(** The longest run of digits at the front, and what follows it. *)
Fixpoint span_digits (base : Z) (s : list ascii) : list Z * list ascii :=
  match s with
  | c :: r =>
      match digit_value base c with
      | Some v => let '(ds, rest) := span_digits base r in (v :: ds, rest)
      | None => ([], s)
      end
  | [] => ([], [])
  end.

Definition digits_value (base : Z) (ds : list Z) : Z :=
  fold_left (fun acc d => acc * base + d) ds 0.

Definition is_char (c : ascii) (n : nat) : bool := (nat_of_ascii c =? n)%nat.

(** An optional sign: whether it is a minus, and what follows it. *)
Definition take_sign (s : list ascii) : bool * list ascii :=
  match s with
  | c :: r => if is_char c 45 then (true, r)
              else if is_char c 43 then (false, r)
              else (false, s)
  | [] => (false, [])
  end.

(** The exponent part: nothing, or [e] or [E], an optional sign and at
    least one digit, up to the end of the text. *)
Definition exponent_part (s : list ascii) : option Z :=
  match s with
  | [] => Some 0
  | c :: r =>
      if is_char c 101 || is_char c 69 then
        let '(neg, r1) := take_sign r in
        match span_digits 10 r1 with
        | ((_ :: _) as ds, []) =>
            Some (if neg then - digits_value 10 ds else digits_value 10 ds)
        | _ => None
        end
      else None
  end.

(** An unsigned decimal literal [ddd.ddd e±dd] as mantissa and power of
    ten. *)
Definition unsigned_decimal (s : list ascii) : option (Z * Z) :=
  let '(ip, r1) := span_digits 10 s in
  let '(fp, r2) :=
    match r1 with
    | c :: r => if is_char c 46 then span_digits 10 r else ([], r1)
    | [] => ([], r1)
    end in
  match ip ++ fp with
  | [] => None
  | ds =>
      match exponent_part r2 with
      | Some e => Some (digits_value 10 ds, e - Z.of_nat (length fp))
      | None => None
      end
  end.

Definition decimal_value (mantissa exp10 : Z) : Q :=
  if 0 <=? exp10 then inject_Z (mantissa * 10 ^ exp10)
  else Qmake mantissa (Z.to_pos (10 ^ (- exp10))).

(** A literal in base 2, 8 or 16 after its prefix. *)
Definition radix_literal (base : Z) (s : list ascii) : double :=
  match span_digits base s with
  | ((_ :: _) as ds, []) => round_double false (inject_Z (digits_value base ds))
  | _ => DNaN
  end.

Definition decimal_literal (s : list ascii) : double :=
  let '(neg, r) := take_sign s in
  if String.eqb (string_of_list_ascii r) "Infinity" then DInf neg
  else match unsigned_decimal r with
       | Some (m, e) => round_double neg (decimal_value m e)
       | None => DNaN
       end.

(** [Number(s)] for a string of ASCII characters. *)
Definition Number (s : string) : double :=
  match trim (list_ascii_of_string s) with
  | [] => DFin 0
  | (c0 :: c1 :: r) as t =>
      if is_char c0 48 && (is_char c1 120 || is_char c1 88) then radix_literal 16 r
      else if is_char c0 48 && (is_char c1 111 || is_char c1 79) then radix_literal 8 r
      else if is_char c0 48 && (is_char c1 98 || is_char c1 66) then radix_literal 2 r
      else decimal_literal t
  | t => decimal_literal t
  end.

(** [Number.isFinite(n)], [n <= 0] and [Math.floor(n)] of a finite [n]. *)
Definition isFinite (n : double) : bool :=
  match n with DFin _ => true | _ => false end.

Definition le_zero (n : double) : bool :=
  match n with
  | DFin q => Qle_bool q 0
  | DInf negative => negative
  | DNaN => false
  end.

(** [Math.floor(n)]; the component applies it to finite numbers only. *)
Definition floor (n : double) : Z :=
  match n with DFin q => Qfloor q | _ => 0 end.

(** ** What the three versions share *)

(** [type Minutes = 5 | 10 | 15 | 75] *)
Inductive Minutes : Type := M5 | M10 | M15 | M75.

Definition minutesValue (m : Minutes) : Z :=
  match m with M5 => 5 | M10 => 10 | M15 => 15 | M75 => 75 end.

Definition options : list Minutes := [M5; M10; M15; M75].

(** [parsedCustomMinutes], the same text in the three versions. *)
Definition parsedCustomMinutes (customMinutes : string) : option Z :=
  let n := Number customMinutes in
  if negb (isFinite n) || le_zero n then None
  else Some (floor n).

(** [!v] for [v : number | null]: [null] and 0 are falsy. *)
Definition falsy (v : option Z) : bool :=
  match v with
  | None => true
  | Some z => z =? 0
  end.

(** [:disabled="!parsedCustomMinutes"] of the Start button. *)
Definition startDisabled (customMinutes : string) : bool :=
  falsy (parsedCustomMinutes customMinutes).

(** [customExpiresAt] when the clock shows [now]. *)
Definition customExpiresAt (customMinutes : string) (now : Z) : option Date :=
  match parsedCustomMinutes customMinutes with
  | Some m =>
      if m =? 0 then None
      else Some (newDate (nadd (Num now) (nmul (Num m) (Num 60000))))
  | None => None
  end.

(** The refs of a run and the timers of [window].  A scheduled callback is
    the closure [update] of the version at hand; [timers] keeps the [end]
    it has captured. *)
Record Run : Type := mkRun {
  running : bool;
  startTime : option Date;
  endTime : option Date;
  remainingMs : number;
  tickHandle : option nat;
  timers : gmap nat Date;
  nextHandle : nat
}.

Definition initialRun : Run :=
  mkRun false None None (Num 0) None ∅ 0%nat.

Definition set_running (b : bool) (r : Run) : Run :=
  mkRun b (startTime r) (endTime r) (remainingMs r)
        (tickHandle r) (timers r) (nextHandle r).

Definition set_times (s e : option Date) (r : Run) : Run :=
  mkRun (running r) s e (remainingMs r)
        (tickHandle r) (timers r) (nextHandle r).

Definition set_remainingMs (v : number) (r : Run) : Run :=
  mkRun (running r) (startTime r) (endTime r) v
        (tickHandle r) (timers r) (nextHandle r).

(** [window.clearInterval(h)] *)
Definition clearInterval (h : nat) (r : Run) : Run :=
  mkRun (running r) (startTime r) (endTime r) (remainingMs r)
        (tickHandle r) (delete h (timers r)) (nextHandle r).

(** [tickHandle = window.setInterval(update, 250)], [update] closing over
    [e]: the handle is a new one. *)
Definition setInterval (e : Date) (r : Run) : Run :=
  mkRun (running r) (startTime r) (endTime r) (remainingMs r)
        (Some (nextHandle r)) (<[nextHandle r := e]> (timers r))
        (S (nextHandle r)).

Definition clearTimer (r : Run) : Run :=
  match tickHandle r with
  | Some h =>
      let r' := clearInterval h r in
      mkRun (running r') (startTime r') (endTime r') (remainingMs r')
            None (timers r') (nextHandle r')
  | None => r
  end.

Definition cancel (r : Run) : Run :=
  set_remainingMs (Num 0)
    (set_times None None (set_running false (clearTimer r))).

(** The [end] of [start(minutes)] when [new Date()] shows [now]. *)
Definition endOfMinutes (now minutes : Z) : Date :=
  newDate (nadd (getTime (dateNow now)) (nmul (Num minutes) (Num 60000))).

(** ** [src/App.vue]: the version that stops by itself *)

Module AutoStop.

Record State : Type := mkState {
  hovered : option Minutes;
  customMinutes : string;
  run : Run
}.

Definition initial : State := mkState None "" initialRun.

(** [hoveredExpiresAt] when the clock shows [now]. *)
Definition hoveredExpiresAt (st : State) (now : Z) : option Date :=
  match hovered st with
  | Some m => Some (newDate (nadd (Num now) (nmul (Num (minutesValue m)) (Num 60000))))
  | None => None
  end.

(** The closure [update] of [start], run when [Date.now()] is [now]. *)
Definition update (e : Date) (now : Z) (r : Run) : Run :=
  let diff := nsub (getTime e) (Num now) in
  let r1 := set_remainingMs (max0 diff) r in
  if nle diff (Num 0) then set_running false (clearTimer r1) else r1.

(** [start(minutes)]: [new Date()] shows [now], and the first call of
    [update] reads [now'] from the clock. *)
Definition start (minutes now now' : Z) (r : Run) : Run :=
  let r0 := clearTimer r in
  let s := dateNow now in
  let e := endOfMinutes now minutes in
  let r1 := set_running true (set_times (Some s) (Some e) r0) in
  setInterval e (update e now' r1).

Definition startCustom (now now' : Z) (st : State) : State :=
  match parsedCustomMinutes (customMinutes st) with
  | Some m =>
      if m =? 0 then st
      else mkState (hovered st) "" (start m now now' (run st))
  | None => st
  end.

(** What can happen to the component: the user acts, a scheduled
    callback fires, the component is taken down. *)
Inductive event : Type :=
| MouseEnter (m : Minutes)
| MouseLeave
| Input (text : string)
| ClickOption (m : Minutes) (now now' : Z)
| ClickStart (now now' : Z)
| ClickCancel
| Tick (h : nat) (now : Z)
| Unmount.

Definition step (st : State) (ev : event) : State :=
  match ev with
  | MouseEnter m => mkState (Some m) (customMinutes st) (run st)
  | MouseLeave => mkState None (customMinutes st) (run st)
  | Input text => mkState (hovered st) text (run st)
  | ClickOption m now now' =>
      mkState (hovered st) (customMinutes st)
              (start (minutesValue m) now now' (run st))
  | ClickStart now now' => startCustom now now' st
  | ClickCancel => mkState (hovered st) (customMinutes st) (cancel (run st))
  | Tick h now =>
      match timers (run st) !! h with
      | Some e => mkState (hovered st) (customMinutes st) (update e now (run st))
      | None => st
      end
  | Unmount => mkState (hovered st) (customMinutes st) (clearTimer (run st))
  end.

Definition exec (evs : list event) : State := fold_left step evs initial.

End AutoStop.

(** ** The two versions with a pending selection

    [update], [start] and [startUntil] never clamp the remaining time and
    never stop the run. *)

Definition update (e : Date) (now : Z) (r : Run) : Run :=
  set_remainingMs (nsub (getTime e) (Num now)) r.

Definition start (minutes now now' : Z) (r : Run) : Run :=
  let r0 := clearTimer r in
  let s := dateNow now in
  let e := endOfMinutes now minutes in
  let r1 := set_running true (set_times (Some s) (Some e) r0) in
  setInterval e (update e now' r1).

Definition startUntil (e : Date) (now now' : Z) (r : Run) : Run :=
  let r0 := clearTimer r in
  let s := dateNow now in
  let r1 := set_running true (set_times (Some s) (Some e) r0) in
  setInterval e (update e now' r1).

Module Preview.

Record State : Type := mkState {
  pendingMinutes : option Z;
  customMinutes : string;
  run : Run
}.

Definition initial : State := mkState None "" initialRun.

Definition pendingExpiresAt (st : State) (now : Z) : option Date :=
  match pendingMinutes st with
  | Some m => Some (newDate (nadd (Num now) (nmul (Num m) (Num 60000))))
  | None => None
  end.

Definition startCustom (st : State) : State :=
  if falsy (parsedCustomMinutes (customMinutes st)) then st
  else mkState (parsedCustomMinutes (customMinutes st)) (customMinutes st) (run st).

Definition choosePreset (m : Minutes) (st : State) : State :=
  mkState (Some (minutesValue m)) (customMinutes st) (run st).

Definition confirmStart (now now' : Z) (st : State) : State :=
  match pendingMinutes st with
  | None => st
  | Some m => mkState None (customMinutes st) (start m now now' (run st))
  end.

Definition cancelPending (st : State) : State :=
  mkState None (customMinutes st) (run st).

Inductive event : Type :=
| ChoosePreset (m : Minutes)
| Input (text : string)
| ClickStart
| ConfirmStart (now now' : Z)
| CancelPending
| ClickCancel
| Tick (h : nat) (now : Z)
| Unmount.

Definition step (st : State) (ev : event) : State :=
  match ev with
  | ChoosePreset m => choosePreset m st
  | Input text => mkState (pendingMinutes st) text (run st)
  | ClickStart => startCustom st
  | ConfirmStart now now' => confirmStart now now' st
  | CancelPending => cancelPending st
  | ClickCancel => mkState (pendingMinutes st) (customMinutes st) (cancel (run st))
  | Tick h now =>
      match timers (run st) !! h with
      | Some e => mkState (pendingMinutes st) (customMinutes st) (update e now (run st))
      | None => st
      end
  | Unmount => mkState (pendingMinutes st) (customMinutes st) (clearTimer (run st))
  end.

Definition exec (evs : list event) : State := fold_left step evs initial.

End Preview.

Module Precise.

(** What the component takes from the browser: the local zone of the
    [Date] methods (the abstract operations LocalTime and UTC of the
    language), the reading of a date-time text by [new Date(text)], and
    the zone database entry of America/New_York. *)
Record Runtime : Type := mkRuntime {
  LocalTime : Z -> Z;
  UTC : Z -> Z;
  DateParse : string -> number;
  easternOffset : Z -> Z
}.

Record State : Type := mkState {
  pendingMinutes : option Z;
  pendingExactEnd : option Date;
  customMinutes : string;
  preciseEndLocal : string;
  run : Run
}.

Definition initial : State := mkState None None "" "" initialRun.

Definition set_pending (m : option Z) (e : option Date) (st : State) : State :=
  mkState m e (customMinutes st) (preciseEndLocal st) (run st).

Definition set_run (r : Run) (st : State) : State :=
  mkState (pendingMinutes st) (pendingExactEnd st) (customMinutes st)
          (preciseEndLocal st) r.

Definition pendingExpiresAt (st : State) (now : Z) : option Date :=
  match pendingExactEnd st with
  | Some e => Some e
  | None =>
      match pendingMinutes st with
      | Some m => Some (newDate (nadd (Num now) (nmul (Num m) (Num 60000))))
      | None => None
      end
  end.

Section WithRuntime.
Variable rt : Runtime.

Definition parsedPreciseEnd (text : string) : option Date :=
  if String.eqb text "" then None
  else
    let d := newDate (DateParse rt text) in
    match getTime d with
    | NaN => None
    | Num _ => Some d
    end.

(** The getter of [preciseEndIsFuture], run when the clock shows [now].
    The ref keeps the value until [preciseEndLocal] changes, so for a
    read [now] is the clock reading of the evaluation the read gets its
    value from ([Computed.readFuture]). *)
Definition preciseEndIsFuture (text : string) (now : Z) : bool :=
  match parsedPreciseEnd text with
  | Some d => ngt (getTime d) (Num now)
  | None => false
  end.

Definition startCustom (st : State) : State :=
  if falsy (parsedCustomMinutes (customMinutes st)) then st
  else set_pending (parsedCustomMinutes (customMinutes st)) None st.

Definition choosePreset (m : Minutes) (st : State) : State :=
  set_pending (Some (minutesValue m)) None st.

Definition confirmStart (now now' : Z) (st : State) : State :=
  match pendingExactEnd st with
  | Some e => set_pending None None (set_run (startUntil e now now' (run st)) st)
  | None =>
      match pendingMinutes st with
      | Some m => set_pending None None (set_run (start m now now' (run st)) st)
      | None => st
      end
  end.

Definition cancelPending (st : State) : State := set_pending None None st.

(** [previewPreciseEnd()]; [now] is the clock reading at which the
    value of [preciseEndIsFuture] it reads was computed. *)
Definition previewPreciseEnd (now : Z) (st : State) : State :=
  if negb (preciseEndIsFuture (preciseEndLocal st) now) then st
  else
    match parsedPreciseEnd (preciseEndLocal st) with
    | None => st
    | Some d => set_pending None (Some d) st
    end.

(** [String(v).padStart(2, '0')] *)
Definition String_of (v : number) : string :=
  match v with
  | NaN => "NaN"
  | Num z => DecimalString.NilZero.string_of_int (Z.to_int z)
  end.

Definition pad2 (v : number) : string :=
  let s := String_of v in
  match String.length s with
  | 0%nat => "00" ++ s
  | 1%nat => "0" ++ s
  | _ => s
  end.

(** The local calendar fields of a date: [NaN] when it is not valid. *)
Definition localField (f : Parts -> Z) (d : Date) : number :=
  match getTime d with
  | Num t => Num (f (wallClock (LocalTime rt t)))
  | NaN => NaN
  end.

Definition toDatetimeLocalValue (d : Date) : string :=
  let y := localField p_year d in
  let m := pad2 (localField p_month d) in
  let day := pad2 (localField p_day d) in
  let hh := pad2 (localField p_hour d) in
  let mm := pad2 (localField p_minute d) in
  String_of y ++ "-" ++ m ++ "-" ++ day ++ "T" ++ hh ++ ":" ++ mm.

(** [date.setSeconds(0, 0)] *)
Definition setSeconds00 (d : Date) : Date :=
  match getTime d with
  | NaN => d
  | Num t =>
      let lt := LocalTime rt t in
      let time := MakeTime ((lt / msPerHour) mod 24) ((lt / msPerMinute) mod 60) 0 0 in
      mkDate (TimeClip (Num (UTC rt (MakeDate (lt / msPerDay) time))))
  end.

(** [setPrecise(date)]; [Date.now()] shows [now]. *)
Definition setPrecise (date : Date) (now : Z) (st : State) : State :=
  let date' := setSeconds00 date in
  let st1 := mkState (pendingMinutes st) (pendingExactEnd st) (customMinutes st)
                     (toDatetimeLocalValue date') (run st) in
  if ngt (getTime date') (Num now) then set_pending None (Some date') st1
  else st1.

(** [shortcutEndOfDay()]: [new Date()] shows [now] and the [Date.now()]
    of [setPrecise] shows [now'].  When the formatter throws, nothing
    has been written yet. *)
Definition shortcutEndOfDay (now now' : Z) (st : State) : State :=
  match EndOfDay.targetMs (easternOffset rt) now with
  | Some target => setPrecise (newDate target) now' st
  | None => st
  end.

(** [Shortcut d now] stands for the four shortcuts on the local clock
    ([shortcutHalfPast], [shortcutEndOfHour], [shortcutNextHour],
    [shortcutNoon]): each ends with [setPrecise(d)] for the date [d] it
    has built. *)
Inductive event : Type :=
| ChoosePreset (m : Minutes)
| InputCustom (text : string)
| ClickStart
| InputPrecise (text : string)
| ClickPreview (now : Z)
| Shortcut (d : Date) (now : Z)
| ShortcutEndOfDay (now now' : Z)
| ConfirmStart (now now' : Z)
| CancelPending
| ClickCancel
| Tick (h : nat) (now : Z)
| Unmount.

Definition step (st : State) (ev : event) : State :=
  match ev with
  | ChoosePreset m => choosePreset m st
  | InputCustom text =>
      mkState (pendingMinutes st) (pendingExactEnd st) text
              (preciseEndLocal st) (run st)
  | ClickStart => startCustom st
  | InputPrecise text =>
      mkState (pendingMinutes st) (pendingExactEnd st) (customMinutes st)
              text (run st)
  | ClickPreview now => previewPreciseEnd now st
  | Shortcut d now => setPrecise d now st
  | ShortcutEndOfDay now now' => shortcutEndOfDay now now' st
  | ConfirmStart now now' => confirmStart now now' st
  | CancelPending => cancelPending st
  | ClickCancel => set_run (cancel (run st)) st
  | Tick h now =>
      match timers (run st) !! h with
      | Some e => set_run (update e now (run st)) st
      | None => st
      end
  | Unmount => set_run (clearTimer (run st)) st
  end.

Definition exec (evs : list event) : State := fold_left step evs initial.

End WithRuntime.

End Precise.

(** ** What the template shows *)

(** [a < b] and [a >= b] *)
Definition nlt (a b : number) : bool :=
  match a, b with Num x, Num y => x <? y | _, _ => false end.
Definition nge (a b : number) : bool :=
  match a, b with Num x, Num y => y <=? x | _, _ => false end.

(** [Math.abs(a)], [Math.floor(a / k)] and [a % k] for a constant [k];
    [%] takes the sign of [a]. *)
Definition nabs (a : number) : number :=
  match a with Num x => Num (Z.abs x) | NaN => NaN end.
Definition nfloordiv (a : number) (k : Z) : number :=
  match a with Num x => Num (x / k) | NaN => NaN end.
Definition nrem (a : number) (k : Z) : number :=
  match a with Num x => Num (Z.rem x k) | NaN => NaN end.

(** [String(v).padStart(2, '0')], as in [toDatetimeLocalValue].  (A
    number from 1e21 on prints with an exponent; a count of minutes or
    seconds between two dates is far below.) *)
Definition padded (v : number) : string := Precise.pad2 v.

Module AutoStopView.

(** [countdown] of [src/App.vue] for a value of [remainingMs]. *)
Definition countdown (remainingMs : number) : string :=
  let ms := max0 remainingMs in
  let totalSeconds := nfloordiv ms 1000 in
  let minutes := nfloordiv totalSeconds 60 in
  let seconds := nrem totalSeconds 60 in
  (padded minutes ++ ":" ++ padded seconds)%string.

(** [:class="{ done: remainingMs === 0 }"] of the countdown, inside
    [<section v-if="running">]: whether the class is rendered. *)
Definition done (r : Run) : bool :=
  running r && match remainingMs r with Num z => z =? 0 | NaN => false end.

End AutoStopView.

Module OverdueView.

(** [countdown] of the versions with a pending selection. *)
Definition countdown (remainingMs : number) : string :=
  let ms := remainingMs in
  let sign := if nlt ms (Num 0) then "-"%string else EmptyString in
  let absMs := nabs ms in
  let totalSeconds := nfloordiv absMs 1000 in
  let minutes := nfloordiv totalSeconds 60 in
  let seconds := nrem totalSeconds 60 in
  (sign ++ padded minutes ++ ":" ++ padded seconds)%string.

(** [v-if="remainingMs <= 0"] of the banner, inside [v-if="running"]. *)
Definition overdueBanner (r : Run) : bool :=
  running r && nle (remainingMs r) (Num 0).

(** [formatDuration(ms)] *)
Definition formatDuration (ms : number) : string :=
  let total := max0 (nfloordiv ms 1000) in
  let h := nfloordiv total 3600 in
  let m := nfloordiv (nrem total 3600) 60 in
  if ngt h (Num 0)
  then (Precise.String_of h ++ "h " ++ Precise.String_of m ++ "m")%string
  else (Precise.String_of m ++ "m")%string.

(** The getters of [pendingDurationMs] and [preciseDurationMs], run when
    the clock shows [now]; the refs keep the value ([Computed]). *)
Definition pendingDurationMs (st : Precise.State) (now : Z) : option number :=
  match Precise.pendingExactEnd st with
  | Some e => Some (nsub (getTime e) (Num now))
  | None => None
  end.

Definition preciseDurationMs (rt : Precise.Runtime) (st : Precise.State)
    (now : Z) : number :=
  match Precise.parsedPreciseEnd rt (Precise.preciseEndLocal st) with
  | Some e => nsub (getTime e) (Num now)
  | None => Num 0
  end.

End OverdueView.

(** ** The shortcuts on the local clock of [Precise] *)

Module LocalClock.
Section WithRuntime.
Variable rt : Precise.Runtime.

(** [d.getHours()], [d.getMinutes()], [d.getDate()] *)
Definition getHours (d : Date) : number := Precise.localField rt p_hour d.
Definition getMinutes (d : Date) : number := Precise.localField rt p_minute d.
Definition getDate (d : Date) : number := Precise.localField rt p_day d.

(** The local time of a date with its time of day replaced, turned back
    into a time value. *)
Definition withTime (t : Z) (hour min sec ms : number) : number :=
  match hour, min, sec, ms with
  | Num h, Num m, Num s, Num milli =>
      TimeClip (Num (Precise.UTC rt
        (MakeDate (Precise.LocalTime rt t / msPerDay) (MakeTime h m s milli))))
  | _, _, _, _ => NaN
  end.

(** [d.setHours(hour)] *)
Definition setHours (hour : number) (d : Date) : Date :=
  match getTime d with
  | NaN => d
  | Num t0 =>
      let t := Precise.LocalTime rt t0 in
      mkDate (withTime t0 hour (Num ((t / msPerMinute) mod 60))
                (Num ((t / msPerSecond) mod 60)) (Num (t mod msPerSecond)))
  end.

(** [d.setHours(hour, min, sec, ms)] *)
Definition setHours4 (hour min sec ms : number) (d : Date) : Date :=
  match getTime d with
  | NaN => d
  | Num t0 => mkDate (withTime t0 hour min sec ms)
  end.

(** [d.setMinutes(min, sec, ms)] *)
Definition setMinutes (min sec ms : number) (d : Date) : Date :=
  match getTime d with
  | NaN => d
  | Num t0 =>
      let t := Precise.LocalTime rt t0 in
      mkDate (withTime t0 (Num ((t / msPerHour) mod 24)) min sec ms)
  end.

(** [d.setDate(date)] *)
Definition setDate (date : number) (d : Date) : Date :=
  match getTime d, date with
  | Num t0, Num dt =>
      let t := Precise.LocalTime rt t0 in
      let '(y, m, _) := civil_from_days (t / msPerDay) in
      mkDate (TimeClip (Num (Precise.UTC rt
        (MakeDate (MakeDay y (m - 1) dt) (t mod msPerDay)))))
  | Num _, NaN => mkDate NaN
  | NaN, _ => d
  end.

(** The date each shortcut hands to [setPrecise] when [new Date()] shows
    [now]. *)
Definition halfPast (now : Z) : Date :=
  let now := dateNow now in
  let d := now in
  let d := if nge (getMinutes now) (Num 30)
           then setHours (nadd (getHours now) (Num 1)) d else d in
  setMinutes (Num 30) (Num 0) (Num 0) d.

Definition endOfHour (now : Z) : Date :=
  let now := dateNow now in
  let d := setMinutes (Num 59) (Num 0) (Num 0) now in
  if nle (getTime d) (getTime now)
  then setMinutes (Num 59) (Num 0) (Num 0)
         (setHours (nadd (getHours d) (Num 1)) d)
  else d.

Definition nextHour (now : Z) : Date :=
  let now := dateNow now in
  setHours4 (nadd (getHours now) (Num 1)) (Num 0) (Num 0) (Num 0) now.

Definition noon (now : Z) : Date :=
  let now := dateNow now in
  let d := setHours4 (Num 12) (Num 0) (Num 0) (Num 0) now in
  if nle (getTime d) (getTime now)
  then setDate (nadd (getDate d) (Num 1)) d
  else d.

(** [shortcutHalfPast()], [shortcutEndOfHour()], [shortcutNextHour()] and
    [shortcutNoon()]: [new Date()] shows [now] and the [Date.now()] of
    [setPrecise] shows [now']. *)
Definition shortcutHalfPast (now now' : Z) (st : Precise.State) : Precise.State :=
  Precise.setPrecise rt (halfPast now) now' st.

Definition shortcutEndOfHour (now now' : Z) (st : Precise.State) : Precise.State :=
  Precise.setPrecise rt (endOfHour now) now' st.

Definition shortcutNextHour (now now' : Z) (st : Precise.State) : Precise.State :=
  Precise.setPrecise rt (nextHour now) now' st.

Definition shortcutNoon (now now' : Z) (st : Precise.State) : Precise.State :=
  Precise.setPrecise rt (noon now) now' st.

End WithRuntime.
End LocalClock.

(** ** The computed refs of [Precise] that read the clock

    [preciseEndIsFuture], [preciseDurationMs] and [pendingDurationMs] are
    [computed] refs whose getters call [Date.now()].  A computed ref keeps
    the value of its last evaluation and runs its getter again only at
    the first read after a ref its getter has read was assigned a value
    that is not the one it held ([Object.is]); the clock is no ref.
    [preciseEndIsFuture] and [preciseDurationMs] read [preciseEndLocal]
    through [parsedPreciseEnd], which makes a new [Date] from each new
    text; [pendingDurationMs] reads [pendingExactEnd].

    A [View] is the state of [Precise] with the three caches ([None]:
    the next read runs the getter) and with [pendingIsParsed]: whether
    [pendingExactEnd] holds the very [Date] object that [parsedPreciseEnd]
    has cached, for then [previewPreciseEnd()] assigns the object it
    already holds and [pendingDurationMs] keeps its value.  The dates a
    shortcut hands to [setPrecise] are new objects.  Reads, by the
    template when it renders, are events of their own. *)
Module Computed.

Record View : Type := mkView {
  state : Precise.State;
  futureCache : option bool;
  preciseDurationCache : option number;
  pendingDurationCache : option (option number);
  pendingIsParsed : bool
}.

Definition initial : View := mkView Precise.initial None None None false.

Section WithRuntime.
Variable rt : Precise.Runtime.

(** [preciseEndIsFuture.value], [preciseDurationMs.value] and
    [pendingDurationMs.value], read when the clock shows [now]: the value
    and the view after the read. *)
Definition readFuture (now : Z) (v : View) : bool * View :=
  match futureCache v with
  | Some b => (b, v)
  | None =>
      let b := Precise.preciseEndIsFuture rt (Precise.preciseEndLocal (state v)) now in
      (b, mkView (state v) (Some b) (preciseDurationCache v)
                 (pendingDurationCache v) (pendingIsParsed v))
  end.

Definition readPreciseDuration (now : Z) (v : View) : number * View :=
  match preciseDurationCache v with
  | Some z => (z, v)
  | None =>
      let z := OverdueView.preciseDurationMs rt (state v) now in
      (z, mkView (state v) (futureCache v) (Some z)
                 (pendingDurationCache v) (pendingIsParsed v))
  end.

Definition readPendingDuration (now : Z) (v : View) : option number * View :=
  match pendingDurationCache v with
  | Some z => (z, v)
  | None =>
      let z := OverdueView.pendingDurationMs (state v) now in
      (z, mkView (state v) (futureCache v) (preciseDurationCache v)
                 (Some z) (pendingIsParsed v))
  end.

(** [preciseEndLocal.value = text] *)
Definition writeText (text : string) (v : View) : View :=
  if String.eqb text (Precise.preciseEndLocal (state v)) then v
  else
    let st := state v in
    mkView (Precise.mkState (Precise.pendingMinutes st) (Precise.pendingExactEnd st)
                            (Precise.customMinutes st) text (Precise.run st))
           None None (pendingDurationCache v) false.

(** An operation that leaves [preciseEndLocal] alone and assigns nothing
    but [null] to [pendingExactEnd]; [st'] is the state after it. *)
Definition lift (st' : Precise.State) (v : View) : View :=
  match Precise.pendingExactEnd (state v), Precise.pendingExactEnd st' with
  | Some _, None =>
      mkView st' (futureCache v) (preciseDurationCache v) None false
  | _, _ =>
      mkView st' (futureCache v) (preciseDurationCache v)
             (pendingDurationCache v) (pendingIsParsed v)
  end.

(** [previewPreciseEnd()], clicked when the clock shows [now]: it reads
    [preciseEndIsFuture.value], and assigns the [Date] that
    [parsedPreciseEnd] has cached. *)
Definition previewPreciseEnd (now : Z) (v : View) : View :=
  let '(b, v1) := readFuture now v in
  if negb b then v1
  else
    match Precise.parsedPreciseEnd rt (Precise.preciseEndLocal (state v1)) with
    | None => v1
    | Some d =>
        mkView (Precise.set_pending None (Some d) (state v1))
               (futureCache v1) (preciseDurationCache v1)
               (if pendingIsParsed v1 then pendingDurationCache v1 else None)
               true
    end.

(** [setPrecise(date)] with a new [date]; [Date.now()] shows [now]. *)
Definition setPrecise (date : Date) (now : Z) (v : View) : View :=
  let date' := Precise.setSeconds00 rt date in
  let v1 := writeText (Precise.toDatetimeLocalValue rt date') v in
  if ngt (getTime date') (Num now)
  then mkView (Precise.set_pending None (Some date') (state v1))
              (futureCache v1) (preciseDurationCache v1) None false
  else v1.

Definition shortcutEndOfDay (now now' : Z) (v : View) : View :=
  match EndOfDay.targetMs (Precise.easternOffset rt) now with
  | Some target => setPrecise (newDate target) now' v
  | None => v
  end.

(** What can happen: an event of [Precise], where the clock reading of
    [ClickPreview] is now that of the click, or a read of one of the
    three refs when the clock shows [now]. *)
Inductive event : Type :=
| Do (ev : Precise.event)
| ReadFuture (now : Z)
| ReadPreciseDuration (now : Z)
| ReadPendingDuration (now : Z).

Definition step (v : View) (ev : event) : View :=
  match ev with
  | Do (Precise.InputPrecise text) => writeText text v
  | Do (Precise.ClickPreview now) => previewPreciseEnd now v
  | Do (Precise.Shortcut d now) => setPrecise d now v
  | Do (Precise.ShortcutEndOfDay now now') => shortcutEndOfDay now now' v
  | Do ev' => lift (Precise.step rt (state v) ev') v
  | ReadFuture now => snd (readFuture now v)
  | ReadPreciseDuration now => snd (readPreciseDuration now v)
  | ReadPendingDuration now => snd (readPendingDuration now v)
  end.

Definition exec (evs : list event) : View := fold_left step evs initial.

End WithRuntime.
End Computed.

(** ** Invariants of a run *)

(** The only scheduled callback is the one [tickHandle] names, and it has
    captured the [endTime] of the run. *)
Definition one_ticker (r : Run) : Prop :=
  match tickHandle r with
  | Some h => exists e, timers r = {[h := e]} /\ endTime r = Some e
  | None => timers r = ∅
  end.

(** In the versions that never stop by themselves a callback is scheduled
    only while a run is on. *)
Definition ticker_means_running (r : Run) : Prop :=
  tickHandle r <> None -> running r = true.

Definition preview_inv (st : Preview.State) : Prop :=
  one_ticker (Preview.run st) /\ ticker_means_running (Preview.run st).

(** The invariant of [Precise]: the timers as above, and at most one of
    the two pending fields is set. *)
Definition precise_inv (st : Precise.State) : Prop :=
  one_ticker (Precise.run st) /\ ticker_means_running (Precise.run st) /\
  (Precise.pendingMinutes st = None \/ Precise.pendingExactEnd st = None).

(** A zone of the browser with the same offset [c] all year. *)
Definition fixedZone (rt : Precise.Runtime) (c : Z) : Prop :=
  (forall t, Precise.LocalTime rt t = t + c) /\ (forall t, Precise.UTC rt t = t - c).

(** What [setPrecise] does with the date of time value [t] that a shortcut
    has built: the text of the input shows it, and it becomes the pending
    end when it is after the clock reading [now']. *)
Definition proposes (rt : Precise.Runtime) (t now' : Z)
    (st st' : Precise.State) : Prop :=
  Precise.preciseEndLocal st' = Precise.toDatetimeLocalValue rt (mkDate (Num t)) /\
  Precise.run st' = Precise.run st /\
  Precise.customMinutes st' = Precise.customMinutes st /\
  (now' < t ->
   Precise.pendingMinutes st' = None /\
   Precise.pendingExactEnd st' = Some (mkDate (Num t))) /\
  (t <= now' ->
   Precise.pendingMinutes st' = Precise.pendingMinutes st /\
   Precise.pendingExactEnd st' = Precise.pendingExactEnd st).

(** The start and the end of a run are set together, and a run of minutes
    whose end is a valid date ends a whole positive number of minutes after
    its start. *)
Definition times_together (r : Run) : Prop :=
  startTime r = None <-> endTime r = None.

Definition whole_minutes (r : Run) : Prop :=
  forall s e a b,
    startTime r = Some s -> endTime r = Some e ->
    getTime s = Num a -> getTime e = Num b ->
    a < b /\ (b - a) mod 60000 = 0.

(** The remaining time is never negative. *)
Definition remaining_clamped (r : Run) : Prop :=
  match remainingMs r with Num z => 0 <= z | NaN => True end.

Definition positive_minutes (m : option Z) : Prop :=
  match m with Some z => 1 <= z | None => True end.

Definition valid_date (d : option Date) : Prop :=
  match d with Some e => exists t, getTime e = Num t | None => True end.

Definition autostop_shown (st : AutoStop.State) : Prop :=
  remaining_clamped (AutoStop.run st) /\
  times_together (AutoStop.run st) /\
  whole_minutes (AutoStop.run st) /\
  (running (AutoStop.run st) = true -> endTime (AutoStop.run st) <> None).

Definition preview_shown (st : Preview.State) : Prop :=
  positive_minutes (Preview.pendingMinutes st) /\
  times_together (Preview.run st) /\
  whole_minutes (Preview.run st) /\
  (running (Preview.run st) = true <-> endTime (Preview.run st) <> None).

Definition precise_shown (st : Precise.State) : Prop :=
  positive_minutes (Precise.pendingMinutes st) /\
  valid_date (Precise.pendingExactEnd st) /\
  times_together (Precise.run st) /\
  (running (Precise.run st) = true <-> endTime (Precise.run st) <> None).

(** [src/App.vue]: while a run is on, time remains. *)
Definition running_remaining (r : Run) : Prop :=
  running r = true -> match remainingMs r with Num z => 0 < z | NaN => True end.

(** The operations of [Computed.lift]: they leave [preciseEndLocal] alone
    and assign nothing but [null] to [pendingExactEnd]. *)
Definition keeps_text (st st' : Precise.State) : Prop :=
  Precise.preciseEndLocal st' = Precise.preciseEndLocal st /\
  (Precise.pendingExactEnd st' = None \/
   Precise.pendingExactEnd st' = Precise.pendingExactEnd st).

(** What a cache holds in a reachable view: the value of its getter at
    some clock reading, for the text and the pending end of the view. *)
Definition coherent (rt : Precise.Runtime) (v : Computed.View) : Prop :=
  let st := Computed.state v in
  (forall b, Computed.futureCache v = Some b ->
     exists now0, b = Precise.preciseEndIsFuture rt (Precise.preciseEndLocal st) now0) /\
  (forall z, Computed.preciseDurationCache v = Some z ->
     exists now0, z = OverdueView.preciseDurationMs rt st now0) /\
  (forall z, Computed.pendingDurationCache v = Some z ->
     exists now0, z = OverdueView.pendingDurationMs st now0) /\
  (Computed.pendingIsParsed v = true ->
   Precise.pendingExactEnd st <> None /\
   Precise.pendingExactEnd st
   = Precise.parsedPreciseEnd rt (Precise.preciseEndLocal st)).

(** A browser in a zone five hours behind UTC all year, with the zone
    database entry [newYorkOffset]; it reads no date-time text. *)
Definition exampleRuntime : Precise.Runtime :=
  Precise.mkRuntime (fun t => t - 18000000) (fun t => t + 18000000)
                    (fun _ => NaN) newYorkOffset.

(** * Theorems *)

(** ** The timers of a run *)

Lemma one_ticker_initial : one_ticker initialRun.
Proof. reflexivity. Qed.

Lemma one_ticker_size (r : Run) : one_ticker r -> (size (timers r) <= 1)%nat.
Proof.
  unfold one_ticker. destruct (tickHandle r) as [h|].
  - intros (e & -> & _). rewrite map_size_singleton. lia.
  - intros ->. rewrite map_size_empty. lia.
Qed.

Lemma clearTimer_tickHandle (r : Run) : tickHandle (clearTimer r) = None.
Proof. unfold clearTimer. by destruct (tickHandle r) eqn:E. Qed.

Lemma clearTimer_timers (r : Run) :
  one_ticker r -> timers (clearTimer r) = ∅.
Proof.
  unfold one_ticker, clearTimer. destruct (tickHandle r) as [h|]; simpl.
  - intros (e & -> & _). apply delete_singleton_eq.
  - done.
Qed.

Lemma clearTimer_one_ticker (r : Run) : one_ticker r -> one_ticker (clearTimer r).
Proof.
  intros H. unfold one_ticker. rewrite clearTimer_tickHandle.
  by apply clearTimer_timers.
Qed.

Lemma clearTimer_no_handle (r : Run) : tickHandle r = None -> clearTimer r = r.
Proof. unfold clearTimer. by intros ->. Qed.

Lemma cancel_one_ticker (r : Run) : one_ticker r -> one_ticker (cancel r).
Proof.
  intros H. unfold one_ticker, cancel. simpl.
  rewrite clearTimer_tickHandle. by apply clearTimer_timers.
Qed.

Lemma cancel_ticking (r : Run) : ticker_means_running (cancel r).
Proof.
  unfold ticker_means_running, cancel. simpl. rewrite clearTimer_tickHandle.
  congruence.
Qed.

Lemma clearTimer_ticking (r : Run) : ticker_means_running (clearTimer r).
Proof. unfold ticker_means_running. rewrite clearTimer_tickHandle. congruence. Qed.

Lemma update_one_ticker e now (r : Run) : one_ticker r -> one_ticker (update e now r).
Proof. done. Qed.

Lemma update_ticking e now (r : Run) :
  ticker_means_running r -> ticker_means_running (update e now r).
Proof. done. Qed.

Lemma startUntil_one_ticker e now now' (r : Run) :
  one_ticker r -> one_ticker (startUntil e now now' r).
Proof.
  intros H. unfold one_ticker, startUntil. simpl.
  exists e. by rewrite clearTimer_timers.
Qed.

Lemma startUntil_ticking e now now' (r : Run) :
  ticker_means_running (startUntil e now now' r).
Proof. done. Qed.

Lemma start_one_ticker m now now' (r : Run) :
  one_ticker r -> one_ticker (start m now now' r).
Proof. apply startUntil_one_ticker. Qed.

Lemma start_ticking m now now' (r : Run) :
  ticker_means_running (start m now now' r).
Proof. done. Qed.

Lemma autostop_update_one_ticker e now (r : Run) :
  one_ticker r -> one_ticker (AutoStop.update e now r).
Proof.
  intros H. unfold AutoStop.update.
  destruct (nle _ _); [|done].
  unfold one_ticker. simpl. rewrite clearTimer_tickHandle.
  by apply (clearTimer_timers (set_remainingMs _ r)).
Qed.

Lemma autostop_update_timers_empty e now (r : Run) :
  timers r = ∅ -> tickHandle r = None ->
  timers (AutoStop.update e now r) = ∅ /\ tickHandle (AutoStop.update e now r) = None.
Proof.
  intros Ht Hh. unfold AutoStop.update.
  destruct (nle _ _); simpl; [|done].
  rewrite (clearTimer_no_handle (set_remainingMs _ r)); done.
Qed.

Lemma clearTimer_times (r : Run) :
  startTime (clearTimer r) = startTime r /\ endTime (clearTimer r) = endTime r.
Proof. unfold clearTimer. by destruct (tickHandle r). Qed.

Lemma clearTimer_shown (r : Run) :
  running (clearTimer r) = running r /\ remainingMs (clearTimer r) = remainingMs r.
Proof. unfold clearTimer. by destruct (tickHandle r). Qed.

Lemma autostop_update_endTime e now (r : Run) :
  endTime (AutoStop.update e now r) = endTime r.
Proof.
  unfold AutoStop.update. destruct (nle _ _); simpl; [|done].
  apply (clearTimer_times (set_remainingMs _ r)).
Qed.

Lemma autostop_update_startTime e now (r : Run) :
  startTime (AutoStop.update e now r) = startTime r.
Proof.
  unfold AutoStop.update. destruct (nle _ _); simpl; [|done].
  apply (clearTimer_times (set_remainingMs _ r)).
Qed.

Lemma autostop_start_one_ticker m now now' (r : Run) :
  one_ticker r -> one_ticker (AutoStop.start m now now' r).
Proof.
  intros H. unfold AutoStop.start.
  set (r1 := set_running true _).
  destruct (autostop_update_timers_empty (endOfMinutes now m) now' r1) as [Ht Hh].
  { by apply clearTimer_timers. }
  { apply clearTimer_tickHandle. }
  unfold one_ticker, setInterval. simpl.
  exists (endOfMinutes now m). rewrite Ht. split; [done|].
  by rewrite autostop_update_endTime.
Qed.

(** ** What holds after every sequence of events *)

Lemma fold_left_invariant {S E : Type} (step : S -> E -> S) (P : S -> Prop) :
  (forall st ev, P st -> P (step st ev)) ->
  forall evs st, P st -> P (fold_left step evs st).
Proof.
  intros Hstep evs. induction evs as [|ev evs IH]; intros st Hst; simpl.
  - exact Hst.
  - apply IH, Hstep, Hst.
Qed.

Lemma autostop_step_one_ticker (st : AutoStop.State) (ev : AutoStop.event) :
  one_ticker (AutoStop.run st) -> one_ticker (AutoStop.run (AutoStop.step st ev)).
Proof.
  intros H. destruct ev; simpl; try exact H.
  - by apply autostop_start_one_ticker.
  - unfold AutoStop.startCustom.
    destruct (parsedCustomMinutes _) as [m|]; [|exact H].
    destruct (m =? 0); [exact H|]. simpl. by apply autostop_start_one_ticker.
  - by apply cancel_one_ticker.
  - destruct (timers (AutoStop.run st) !! h); [|exact H].
    simpl. by apply autostop_update_one_ticker.
  - by apply clearTimer_one_ticker.
Qed.

Lemma autostop_exec_one_ticker (evs : list AutoStop.event) :
  one_ticker (AutoStop.run (AutoStop.exec evs)).
Proof.
  apply (fold_left_invariant AutoStop.step (fun st => one_ticker (AutoStop.run st))).
  - apply autostop_step_one_ticker.
  - apply one_ticker_initial.
Qed.

Lemma preview_step_inv (st : Preview.State) (ev : Preview.event) :
  preview_inv st -> preview_inv (Preview.step st ev).
Proof.
  unfold preview_inv. intros [H1 H2]. destruct ev; simpl; try (split; assumption).
  - unfold Preview.startCustom. destruct (falsy _); split; assumption.
  - unfold Preview.confirmStart. destruct (Preview.pendingMinutes st); simpl.
    + split; [by apply start_one_ticker | apply start_ticking].
    + split; assumption.
  - split; [by apply cancel_one_ticker | apply cancel_ticking].
  - destruct (timers (Preview.run st) !! h); simpl; split; assumption.
  - split; [by apply clearTimer_one_ticker | apply clearTimer_ticking].
Qed.

Lemma preview_exec_inv (evs : list Preview.event) : preview_inv (Preview.exec evs).
Proof.
  apply (fold_left_invariant Preview.step preview_inv).
  - apply preview_step_inv.
  - split; [apply one_ticker_initial | intros H; by destruct H].
Qed.

Section PreciseFacts.
Variable rt : Precise.Runtime.

Lemma precise_setPrecise_inv d now (st : Precise.State) :
  precise_inv st -> precise_inv (Precise.setPrecise rt d now st).
Proof.
  unfold precise_inv, Precise.setPrecise. intros (H1 & H2 & H3).
  destruct (ngt _ _); simpl; auto.
Qed.

Lemma precise_step_inv (st : Precise.State) (ev : Precise.event) :
  precise_inv st -> precise_inv (Precise.step rt st ev).
Proof.
  intros H. pose proof H as (H1 & H2 & H3).
  destruct ev; simpl; try exact H; unfold precise_inv.
  - simpl. auto.
  - unfold Precise.startCustom. destruct (falsy _); simpl; auto.
  - unfold Precise.previewPreciseEnd.
    destruct (negb _); [exact H|].
    destruct (Precise.parsedPreciseEnd _ _); simpl; auto.
  - by apply precise_setPrecise_inv.
  - unfold Precise.shortcutEndOfDay.
    destruct (EndOfDay.targetMs _ _); [|exact H].
    by apply precise_setPrecise_inv.
  - unfold Precise.confirmStart.
    destruct (Precise.pendingExactEnd st); simpl.
    + split; [by apply startUntil_one_ticker|]. split; [done | auto].
    + destruct (Precise.pendingMinutes st); simpl; [|exact H].
      split; [by apply start_one_ticker|]. split; [done | auto].
  - simpl. auto.
  - simpl. split; [by apply cancel_one_ticker|].
    split; [apply cancel_ticking | exact H3].
  - destruct (timers (Precise.run st) !! h); simpl; auto.
  - simpl. split; [by apply clearTimer_one_ticker|].
    split; [apply clearTimer_ticking | exact H3].
Qed.

Lemma precise_exec_inv (evs : list Precise.event) :
  precise_inv (Precise.exec rt evs).
Proof.
  apply (fold_left_invariant (Precise.step rt) precise_inv).
  - apply precise_step_inv.
  - split; [apply one_ticker_initial|]. split; [intros H; by destruct H | by left].
Qed.

End PreciseFacts.

(** ** The claims about the timer *)

Lemma newDate_in_range (z : Z) :
  Z.abs z <= maxTimeValue -> newDate (Num z) = mkDate (Num z).
Proof.
  intros H. unfold newDate, TimeClip.
  destruct (Z.leb_spec (Z.abs z) maxTimeValue); [reflexivity | lia].
Qed.

Lemma endOfMinutes_in_range (now m : Z) :
  Z.abs (now + m * 60000) <= maxTimeValue ->
  endOfMinutes now m = mkDate (Num (now + m * 60000)).
Proof. intros H. unfold endOfMinutes. simpl. by apply newDate_in_range. Qed.

Lemma start_times (m now now' : Z) (r : Run) :
  Z.abs (now + m * 60000) <= maxTimeValue ->
  (startTime (AutoStop.start m now now' r) = Some (mkDate (Num now)) /\
   endTime (AutoStop.start m now now' r) = Some (mkDate (Num (now + m * 60000)))) /\
  (startTime (start m now now' r) = Some (mkDate (Num now)) /\
   endTime (start m now now' r) = Some (mkDate (Num (now + m * 60000)))).
Proof.
  intros Hr. pose proof (endOfMinutes_in_range now m Hr) as He.
  repeat split.
  - unfold AutoStop.start. simpl. apply autostop_update_startTime.
  - rewrite <- He. unfold AutoStop.start. simpl. apply autostop_update_endTime.
  - unfold start. simpl. by rewrite He.
Qed.

(** C3 as it is stated fails: [start(m)] for m = 144000000000 minutes at
    now = 1700000000000 leaves an end time that is not a valid date. *)
Lemma start_end_time_counterexample :
  ~ (forall m now now' r, 0 < m ->
       endTime (AutoStop.start m now now' r) = Some (mkDate (Num (now + m * 60000)))).
Proof.
  intros H.
  specialize (H 144000000000 1700000000000 1700000000000 initialRun eq_refl).
  vm_compute in H. discriminate H.
Qed.

(** C3, amended.  For every positive number of minutes [m] and every
    clock reading [now] such that now + m * 60000 is a time value (at most
    8.64e15 in magnitude), [start(m)] of each version sets [startTime] to
    [now] and [endTime] to now + m * 60000, and the previews of the expiry
    ([hoveredExpiresAt], [pendingExpiresAt], [customExpiresAt]) are
    now + m * 60000 too. *)
Theorem relative_deadline (m now now' : Z) (r : Run) :
  0 < m ->
  Z.abs (now + m * 60000) <= maxTimeValue ->
  let expiry := Some (mkDate (Num (now + m * 60000))) in
  (startTime (AutoStop.start m now now' r) = Some (mkDate (Num now)) /\
   endTime (AutoStop.start m now now' r) = expiry) /\
  (startTime (start m now now' r) = Some (mkDate (Num now)) /\
   endTime (start m now now' r) = expiry) /\
  (forall text, Preview.pendingExpiresAt (Preview.mkState (Some m) text r) now = expiry) /\
  (forall text text', Precise.pendingExpiresAt (Precise.mkState (Some m) None text text' r) now
                      = expiry) /\
  (forall text, parsedCustomMinutes text = Some m -> customExpiresAt text now = expiry) /\
  (forall p text, minutesValue p = m ->
     AutoStop.hoveredExpiresAt (AutoStop.mkState (Some p) text r) now = expiry).
Proof.
  intros Hm Hr expiry. unfold expiry.
  pose proof (newDate_in_range _ Hr) as Hd.
  split; [apply (start_times m now now' r Hr)|].
  split; [apply (start_times m now now' r Hr)|].
  repeat split.
  - intros text. unfold Preview.pendingExpiresAt. simpl. by rewrite Hd.
  - intros text text'. unfold Precise.pendingExpiresAt. simpl. by rewrite Hd.
  - intros text Hp. unfold customExpiresAt. rewrite Hp.
    destruct (Z.eqb_spec m 0); [lia|]. simpl. by rewrite Hd.
  - intros p text Hp. unfold AutoStop.hoveredExpiresAt. simpl. rewrite Hp.
    simpl. by rewrite Hd.
Qed.

Lemma relative_deadline_witness :
  endTime (AutoStop.start 10 1700000000000 1700000000000 initialRun)
  = Some (mkDate (Num 1700000600000)).
Proof.
  apply (relative_deadline 10 1700000000000 1700000000000 initialRun);
    vm_compute; congruence.
Defined.

(** C5.  After every finite sequence of events of a version (choosing,
    confirming, starting, cancelling, ticks, taking the component down) at
    most one periodic callback is scheduled, and it is the one
    [tickHandle] names: [start] and [startUntil] begin with [clearTimer],
    and [clearTimer] removes the callback of [tickHandle]. *)
Theorem at_most_one_ticker :
  (forall evs,
     let r := AutoStop.run (AutoStop.exec evs) in
     (size (timers r) <= 1)%nat /\ one_ticker r) /\
  (forall rt evs,
     let r := Precise.run (Precise.exec rt evs) in
     (size (timers r) <= 1)%nat /\ one_ticker r) /\
  (forall evs,
     let r := Preview.run (Preview.exec evs) in
     (size (timers r) <= 1)%nat /\ one_ticker r).
Proof.
  split; [|split].
  - intros evs r. pose proof (autostop_exec_one_ticker evs) as H.
    split; [by apply one_ticker_size | exact H].
  - intros rt evs r. destruct (precise_exec_inv rt evs) as (H & _).
    split; [by apply one_ticker_size | exact H].
  - intros evs r. destruct (preview_exec_inv evs) as (H & _).
    split; [by apply one_ticker_size | exact H].
Qed.

(** C6.  In [Precise], after every sequence of events at most one of
    [pendingMinutes] and [pendingExactEnd] is set: a preset, valid custom
    minutes, the preview of a precise end in the future and a shortcut to
    a date in the future each set their own field and clear the other. *)
Theorem at_most_one_pending (rt : Precise.Runtime) :
  (forall evs,
     let st := Precise.exec rt evs in
     Precise.pendingMinutes st = None \/ Precise.pendingExactEnd st = None) /\
  (forall m st,
     Precise.pendingMinutes (Precise.choosePreset m st) = Some (minutesValue m) /\
     Precise.pendingExactEnd (Precise.choosePreset m st) = None) /\
  (forall st m,
     parsedCustomMinutes (Precise.customMinutes st) = Some m -> m <> 0 ->
     Precise.pendingMinutes (Precise.startCustom st) = Some m /\
     Precise.pendingExactEnd (Precise.startCustom st) = None) /\
  (forall st now d,
     Precise.parsedPreciseEnd rt (Precise.preciseEndLocal st) = Some d ->
     Precise.preciseEndIsFuture rt (Precise.preciseEndLocal st) now = true ->
     Precise.pendingMinutes (Precise.previewPreciseEnd rt now st) = None /\
     Precise.pendingExactEnd (Precise.previewPreciseEnd rt now st) = Some d) /\
  (forall st date now,
     ngt (getTime (Precise.setSeconds00 rt date)) (Num now) = true ->
     Precise.pendingMinutes (Precise.setPrecise rt date now st) = None /\
     Precise.pendingExactEnd (Precise.setPrecise rt date now st)
     = Some (Precise.setSeconds00 rt date)).
Proof.
  split; [|split; [|split; [|split]]].
  - intros evs st. by destruct (precise_exec_inv rt evs) as (_ & _ & H).
  - intros m st. by split.
  - intros st m Hp Hm. unfold Precise.startCustom. rewrite Hp. simpl.
    destruct (Z.eqb_spec m 0); [contradiction|]. by split.
  - intros st now d Hp Hf. unfold Precise.previewPreciseEnd. rewrite Hf, Hp.
    by split.
  - intros st date now Hf. unfold Precise.setPrecise. rewrite Hf. by split.
Qed.

Lemma at_most_one_pending_witness :
  let rt := Precise.mkRuntime (fun t => t) (fun t => t)
              (fun _ => Num 1700000600000) newYorkOffset in
  let st := Precise.mkState (Some 5) None "25" "2023-11-14T22:23" initialRun in
  Precise.pendingMinutes (Precise.startCustom st) = Some 25 /\
  Precise.pendingExactEnd (Precise.previewPreciseEnd rt 1700000000000 st)
  = Some (mkDate (Num 1700000600000)).
Proof.
  intros rt st.
  pose proof (at_most_one_pending rt) as (_ & _ & H3 & H4 & _).
  split.
  - apply (H3 st 25); [reflexivity | discriminate].
  - apply (H4 st 1700000000000); reflexivity.
Defined.

(** C7.  [confirmStart()] with nothing pending leaves the whole state as
    it is, the timers of [window] included; with a selection pending it
    clears the selection and starts a run whose [startTime] is the clock
    reading and whose [endTime] is what [pendingExpiresAt] resolves the
    selection to at that reading, with its callback scheduled. *)
Theorem confirm_start (rt : Precise.Runtime) (now now' : Z) :
  (forall st,
     Precise.pendingMinutes st = None -> Precise.pendingExactEnd st = None ->
     Precise.confirmStart now now' st = st) /\
  (forall st,
     Preview.pendingMinutes st = None -> Preview.confirmStart now now' st = st) /\
  (forall st e,
     Precise.pendingExpiresAt st now = Some e ->
     let st' := Precise.confirmStart now now' st in
     Precise.pendingMinutes st' = None /\ Precise.pendingExactEnd st' = None /\
     running (Precise.run st') = true /\
     startTime (Precise.run st') = Some (dateNow now) /\
     endTime (Precise.run st') = Some e /\
     tickHandle (Precise.run st') = Some (nextHandle (Precise.run st)) /\
     timers (Precise.run st') !! nextHandle (Precise.run st) = Some e) /\
  (forall st e,
     Preview.pendingExpiresAt st now = Some e ->
     let st' := Preview.confirmStart now now' st in
     Preview.pendingMinutes st' = None /\
     running (Preview.run st') = true /\
     startTime (Preview.run st') = Some (dateNow now) /\
     endTime (Preview.run st') = Some e /\
     tickHandle (Preview.run st') = Some (nextHandle (Preview.run st)) /\
     timers (Preview.run st') !! nextHandle (Preview.run st) = Some e).
Proof.
  split; [|split; [|split]].
  - intros st Hm He. unfold Precise.confirmStart. by rewrite He, Hm.
  - intros st Hm. unfold Preview.confirmStart. by rewrite Hm.
  - intros st e. unfold Precise.pendingExpiresAt, Precise.confirmStart.
    assert (Hh : forall r, nextHandle (clearTimer r) = nextHandle r).
    { intros r. unfold clearTimer. by destruct (tickHandle r). }
    destruct (Precise.pendingExactEnd st) as [x|].
    + intros [= ->]. simpl. rewrite Hh.
      repeat split. apply lookup_insert_eq.
    + destruct (Precise.pendingMinutes st) as [m|]; [|discriminate].
      intros [= <-]. simpl. rewrite Hh.
      repeat split. apply lookup_insert_eq.
  - intros st e. unfold Preview.pendingExpiresAt, Preview.confirmStart.
    assert (Hh : forall r, nextHandle (clearTimer r) = nextHandle r).
    { intros r. unfold clearTimer. by destruct (tickHandle r). }
    destruct (Preview.pendingMinutes st) as [m|]; [|discriminate].
    intros [= <-]. simpl. rewrite Hh.
    repeat split. apply lookup_insert_eq.
Qed.

Lemma confirm_start_witness :
  Precise.confirmStart 1700000000000 1700000000000 Precise.initial = Precise.initial /\
  endTime (Preview.run (Preview.confirmStart 1700000000000 1700000000000
                          (Preview.mkState (Some 10) "" initialRun)))
  = Some (mkDate (Num 1700000600000)).
Proof.
  pose proof (confirm_start (Precise.mkRuntime (fun t => t) (fun t => t)
                (fun _ => NaN) newYorkOffset) 1700000000000 1700000000000)
    as (H1 & _ & _ & H4).
  split.
  - apply H1; reflexivity.
  - apply (H4 (Preview.mkState (Some 10) "" initialRun)). reflexivity.
Defined.

(** C8.  [cancel()] on an idle run (not running, no tick handle, no start
    and end time, zero remaining) changes nothing, in the run and so in the
    state of each version; and cancelling twice is cancelling once. *)
Theorem cancel_idle (r : Run) :
  running r = false -> tickHandle r = None ->
  startTime r = None -> endTime r = None -> remainingMs r = Num 0 ->
  cancel r = r /\
  (forall h text, AutoStop.step (AutoStop.mkState h text r) AutoStop.ClickCancel
                  = AutoStop.mkState h text r) /\
  (forall rt m e text text',
     Precise.step rt (Precise.mkState m e text text' r) Precise.ClickCancel
     = Precise.mkState m e text text' r) /\
  (forall m text, Preview.step (Preview.mkState m text r) Preview.ClickCancel
                  = Preview.mkState m text r) /\
  cancel (cancel r) = cancel r.
Proof.
  intros H1 H2 H3 H4 H5.
  assert (Hc : cancel r = r).
  { unfold cancel. rewrite (clearTimer_no_handle r H2).
    destruct r; simpl in *; subst. reflexivity. }
  repeat split; simpl; intros; unfold Precise.set_run; simpl; by rewrite ?Hc.
Qed.

Lemma cancel_idle_witness :
  AutoStop.step AutoStop.initial AutoStop.ClickCancel = AutoStop.initial.
Proof.
  apply (cancel_idle initialRun); reflexivity.
Defined.

Lemma one_ticker_lookup (r : Run) (h : nat) (e : Date) :
  one_ticker r -> timers r !! h = Some e ->
  tickHandle r = Some h /\ endTime r = Some e /\ timers r = {[h := e]}.
Proof.
  unfold one_ticker. destruct (tickHandle r) as [h'|].
  - intros (e' & Ht & He) Hl. rewrite Ht in Hl.
    apply lookup_singleton_Some in Hl as [-> ->]. by rewrite Ht, He.
  - intros -> Hl. by rewrite lookup_empty in Hl.
Qed.

Lemma autostop_first_start (T m : Z) :
  0 < m -> Z.abs (T + m * 60000) <= maxTimeValue ->
  AutoStop.start m T T initialRun
  = mkRun true (Some (dateNow T)) (Some (mkDate (Num (T + m * 60000))))
          (Num (m * 60000)) (Some 0%nat) {[0%nat := mkDate (Num (T + m * 60000))]} 1.
Proof.
  intros Hm HT. unfold AutoStop.start.
  rewrite (endOfMinutes_in_range T m HT).
  unfold AutoStop.update. cbn [getTime nsub nle max0].
  destruct (Z.leb_spec (T + m * 60000 - T) 0); [lia|].
  unfold setInterval. simpl. f_equal. f_equal. lia.
Qed.
Lemma first_start (T m : Z) :
  Z.abs (T + m * 60000) <= maxTimeValue ->
  start m T T initialRun
  = mkRun true (Some (dateNow T)) (Some (mkDate (Num (T + m * 60000))))
          (Num (m * 60000)) (Some 0%nat) {[0%nat := mkDate (Num (T + m * 60000))]} 1.
Proof.
  intros HT. unfold start.
  rewrite (endOfMinutes_in_range T m HT).
  unfold update, setInterval. simpl. f_equal. f_equal. lia.
Qed.


(** C4.  A tick recomputes the remaining time from the end of the run and
    the clock.  In [Precise], a tick can only fire while the run is on; it
    stores [endTime - now] as it is, negative when the time is up, and the
    run stays on with its callback.  In [AutoStop] a tick stores
    [Math.max(0, endTime - now)], and when [endTime - now <= 0] it clears
    the callback and turns [running] off.  Ten minutes chosen and started
    at T give the end T + 600000; the tick at T + 600001 leaves -1 and a
    run that is on in [Precise], and 0 and no run in [AutoStop]. *)
Theorem tick_remaining :
  (forall rt evs h now e,
     let st := Precise.exec rt evs in
     timers (Precise.run st) !! h = Some e ->
     let st' := Precise.step rt st (Precise.Tick h now) in
     running (Precise.run st) = true /\
     endTime (Precise.run st) = Some e /\
     remainingMs (Precise.run st') = nsub (getTime e) (Num now) /\
     running (Precise.run st') = true /\
     tickHandle (Precise.run st') = Some h /\
     timers (Precise.run st') = timers (Precise.run st)) /\
  (forall evs h now e,
     let st := AutoStop.exec evs in
     timers (AutoStop.run st) !! h = Some e ->
     let st' := AutoStop.step st (AutoStop.Tick h now) in
     let diff := nsub (getTime e) (Num now) in
     endTime (AutoStop.run st) = Some e /\
     remainingMs (AutoStop.run st') = max0 diff /\
     (nle diff (Num 0) = true ->
      running (AutoStop.run st') = false /\
      tickHandle (AutoStop.run st') = None /\
      timers (AutoStop.run st') = ∅) /\
     (nle diff (Num 0) = false ->
      running (AutoStop.run st') = running (AutoStop.run st) /\
      tickHandle (AutoStop.run st') = Some h /\
      timers (AutoStop.run st') = timers (AutoStop.run st))) /\
  (forall rt T,
     Z.abs (T + 600000) <= maxTimeValue ->
     let r := Precise.run (Precise.exec rt
                [Precise.ChoosePreset M10; Precise.ConfirmStart T T;
                 Precise.Tick 0 (T + 600001)]) in
     endTime r = Some (mkDate (Num (T + 600000))) /\
     remainingMs r = Num (-1) /\ running r = true /\ tickHandle r = Some 0%nat) /\
  (forall T,
     Z.abs (T + 600000) <= maxTimeValue ->
     let r := AutoStop.run (AutoStop.exec
                [AutoStop.ClickOption M10 T T; AutoStop.Tick 0 (T + 600001)]) in
     endTime r = Some (mkDate (Num (T + 600000))) /\
     remainingMs r = Num 0 /\ running r = false /\
     tickHandle r = None /\ timers r = ∅).
Proof.
  split; [|split; [|split]].
  - intros rt evs h now e st Hl st'.
    destruct (precise_exec_inv rt evs) as (H1 & H2 & _). fold st in H1, H2.
    destruct (one_ticker_lookup _ _ _ H1 Hl) as (Hh & He & Ht).
    unfold st'. simpl. rewrite Hl. simpl.
    repeat split; try assumption.
    all: apply H2; by rewrite Hh.
  - intros evs h now e st Hl st' diff.
    pose proof (autostop_exec_one_ticker evs) as H1. fold st in H1.
    destruct (one_ticker_lookup _ _ _ H1 Hl) as (Hh & He & Ht).
    unfold st'. simpl. rewrite Hl. simpl. unfold AutoStop.update. fold diff.
    split; [exact He|]. split.
    { destruct (nle diff (Num 0)); simpl; [|reflexivity].
      apply (clearTimer_shown (set_remainingMs _ _)). }
    split; intros ->; simpl.
    + split; [reflexivity|]. split; [apply clearTimer_tickHandle|].
      by apply (clearTimer_timers (set_remainingMs _ _)).
    + by rewrite Hh.
  - intros rt T HT r. unfold r, Precise.exec.
    cbn -[start lookup].
    rewrite (first_start T 10 HT). cbn -[lookup].
    rewrite lookup_singleton_eq. simpl.
    repeat split; repeat f_equal; lia.
  - intros T HT r. unfold r, AutoStop.exec.
    cbn -[AutoStop.start lookup].
    rewrite (autostop_first_start T 10 eq_refl HT). cbn -[lookup].
    rewrite lookup_singleton_eq. unfold AutoStop.update. cbn [getTime nsub nle].
    destruct (Z.leb_spec (T + 10 * 60000 - (T + 600001)) 0); [|lia].
    unfold clearTimer. cbn -[delete].
    rewrite delete_singleton_eq.
    repeat split; repeat f_equal; lia.
Qed.

Lemma tick_remaining_witness :
  let r := AutoStop.run (AutoStop.exec
             [AutoStop.ClickOption M10 1700000000000 1700000000000;
              AutoStop.Tick 0 1700000600001]) in
  remainingMs r = Num 0 /\ running r = false /\ timers r = ∅.
Proof.
  pose proof tick_remaining as (_ & _ & _ & H).
  assert (HT : Z.abs (1700000000000 + 600000) <= maxTimeValue)
    by (vm_compute; congruence).
  destruct (H 1700000000000 HT) as (_ & H1 & H2 & _ & H3).
  intros r. split; [exact H1 | split; [exact H2 | exact H3]].
Defined.

(** ** The claims about custom minutes *)

(** C9.  A custom-minutes text whose number is not a number, not finite,
    or at most zero gives no parsed selection: [parsedCustomMinutes] is
    [null], the Start button is disabled, no expiry is previewed and
    [startCustom()] changes nothing in any version.  The functions are
    total, so nothing is thrown. *)
Theorem invalid_custom_minutes (text : string) :
  Number text = DNaN \/ isFinite (Number text) = false \/ le_zero (Number text) = true ->
  parsedCustomMinutes text = None /\
  startDisabled text = true /\
  (forall now, customExpiresAt text now = None) /\
  (forall h r now now',
     AutoStop.startCustom now now' (AutoStop.mkState h text r) = AutoStop.mkState h text r) /\
  (forall m e text' r,
     Precise.startCustom (Precise.mkState m e text text' r)
     = Precise.mkState m e text text' r) /\
  (forall m r, Preview.startCustom (Preview.mkState m text r) = Preview.mkState m text r).
Proof.
  intros H.
  assert (Hp : parsedCustomMinutes text = None).
  { unfold parsedCustomMinutes.
    destruct H as [-> | [-> | ->]]; try reflexivity.
    by rewrite orb_true_r. }
  split; [exact Hp|].
  unfold startDisabled, customExpiresAt, AutoStop.startCustom,
    Precise.startCustom, Preview.startCustom. simpl. rewrite Hp.
  repeat split.
Qed.

Lemma invalid_custom_minutes_witness :
  (parsedCustomMinutes "0" = None /\ startDisabled "0" = true) /\
  (parsedCustomMinutes "-5" = None /\ startDisabled "-5" = true) /\
  (parsedCustomMinutes "abc" = None /\ startDisabled "abc" = true).
Proof.
  split; [|split].
  - destruct (invalid_custom_minutes "0") as (H1 & H2 & _); [|by split].
    right; right; reflexivity.
  - destruct (invalid_custom_minutes "-5") as (H1 & H2 & _); [|by split].
    right; right; reflexivity.
  - destruct (invalid_custom_minutes "abc") as (H1 & H2 & _); [|by split].
    left; reflexivity.
Defined.

(** C10 as it is stated fails: "0.5" is the finite positive number 1/2,
    not an integer, but its floor is 0, which the Start button and
    [startCustom()] take for no selection. *)
Lemma fractional_minutes_counterexample :
  ~ (forall text q,
       Number text = DFin q -> (0 < q)%Q -> ~ (inject_Z (Qfloor q) == q)%Q ->
       parsedCustomMinutes text = Some (Qfloor q) /\
       startDisabled text = false /\
       Precise.pendingMinutes
         (Precise.startCustom (Precise.mkState None None text "" initialRun))
       = Some (Qfloor q)).
Proof.
  intros H.
  destruct (H "0.5"%string (1 # 2)%Q) as (_ & Hd & _).
  - reflexivity.
  - reflexivity.
  - intros Heq. vm_compute in Heq. discriminate Heq.
  - vm_compute in Hd. discriminate Hd.
Qed.

(** C10, amended.  A custom-minutes text whose number [n] is finite and
    positive parses to [floor(n)].  When [n] is at least 1, an integer or
    not, that is a valid selection: the Start button is enabled,
    [startCustom()] makes [floor(n)] the pending minutes ([Precise],
    [Preview]) or starts the run ([AutoStop]), and the run started for it
    lasts [floor(n) * 60000] ms when its end is a time value.  When
    0 < n < 1 the parsed value is 0, which the Start button and
    [startCustom()] take for no selection: the button is disabled, no
    expiry is previewed and [startCustom()] changes nothing in any
    version. *)
Theorem fractional_custom_minutes (text : string) (q : Q) :
  Number text = DFin q -> (0 < q)%Q ->
  let m := Qfloor q in
  parsedCustomMinutes text = Some m /\
  ((1 <= q)%Q ->
   1 <= m /\
   startDisabled text = false /\
   (forall p e text' r,
      Precise.pendingMinutes (Precise.startCustom (Precise.mkState p e text text' r))
      = Some m) /\
   (forall p r,
      Preview.pendingMinutes (Preview.startCustom (Preview.mkState p text r)) = Some m) /\
   (forall h r now now',
      AutoStop.startCustom now now' (AutoStop.mkState h text r)
      = AutoStop.mkState h "" (AutoStop.start m now now' r)) /\
   (forall r now now',
      Z.abs (now + m * 60000) <= maxTimeValue ->
      startTime (AutoStop.start m now now' r) = Some (mkDate (Num now)) /\
      endTime (AutoStop.start m now now' r) = Some (mkDate (Num (now + m * 60000))) /\
      startTime (start m now now' r) = Some (mkDate (Num now)) /\
      endTime (start m now now' r) = Some (mkDate (Num (now + m * 60000))))) /\
  ((q < 1)%Q ->
   m = 0 /\
   startDisabled text = true /\
   (forall now, customExpiresAt text now = None) /\
   (forall h r now now',
      AutoStop.startCustom now now' (AutoStop.mkState h text r) = AutoStop.mkState h text r) /\
   (forall p e text' r,
      Precise.startCustom (Precise.mkState p e text text' r)
      = Precise.mkState p e text text' r) /\
   (forall p r, Preview.startCustom (Preview.mkState p text r) = Preview.mkState p text r)).
Proof.
  intros HN Hpos m.
  assert (Hp : parsedCustomMinutes text = Some m).
  { unfold parsedCustomMinutes. rewrite HN. simpl.
    destruct (Qle_bool q 0) eqn:E; [|reflexivity].
    apply Qle_bool_iff in E. exfalso.
    apply (Qlt_irrefl 0). by apply Qlt_le_trans with q. }
  split; [exact Hp|]. split.
  - intros Hq.
    assert (Hm : 1 <= m).
    { unfold m. change 1 with (Qfloor (inject_Z 1)). by apply Qfloor_resp_le. }
    assert (Hz : (m =? 0) = false) by (apply Z.eqb_neq; lia).
    split; [exact Hm|].
    unfold startDisabled, Precise.startCustom, Preview.startCustom,
      AutoStop.startCustom. simpl. rewrite Hp. simpl. rewrite Hz. simpl.
    repeat split.
    all: destruct (start_times m now now' r) as ((H1 & H2) & (H3 & H4));
      assumption.
  - intros Hq.
    assert (Hm : m = 0).
    { assert (H0 : 0 <= m).
      { unfold m. change 0 with (Qfloor (inject_Z 0)).
        apply Qfloor_resp_le. by apply Qlt_le_weak. }
      assert (H1 : m < 1).
      { rewrite Zlt_Qlt. apply Qle_lt_trans with q; [apply Qfloor_le | exact Hq]. }
      lia. }
    split; [exact Hm|].
    unfold startDisabled, customExpiresAt, Precise.startCustom, Preview.startCustom,
      AutoStop.startCustom. simpl. rewrite Hp, Hm. simpl.
    repeat split.
Qed.

Lemma fractional_custom_minutes_witness :
  (parsedCustomMinutes "2.5" = Some 2 /\ startDisabled "2.5" = false) /\
  (parsedCustomMinutes "0.5" = Some 0 /\ startDisabled "0.5" = true).
Proof.
  split.
  - destruct (fractional_custom_minutes "2.5" (5 # 2)) as (H1 & H2 & _);
      [reflexivity | reflexivity |].
    destruct H2 as (_ & H2 & _); [vm_compute; discriminate|].
    split; [exact H1 | exact H2].
  - destruct (fractional_custom_minutes "0.5" (1 # 2)) as (H1 & _ & H3);
      [reflexivity | reflexivity |].
    destruct H3 as (_ & H3 & _); [reflexivity|].
    split; [exact H1 | exact H3].
Defined.

(** ** The calendar *)

Lemma year_of_era_bounds (doe : Z) :
  0 <= doe < 146097 ->
  let yoe := year_of_era doe in
  0 <= yoe <= 399 /\
  days_before_year yoe <= doe <= days_before_year yoe + 365 /\
  (doe < days_before_year (yoe + 1) \/ yoe = 399).
Proof.
  intros H yoe. unfold yoe, year_of_era, days_before_year.
  Z.div_mod_to_equations. lia.
Qed.

Lemma month_of_year_bounds (doy : Z) :
  0 <= doy <= 365 ->
  let mp := month_of_year doy in
  0 <= mp <= 11 /\ 1 <= doy - days_before_month mp + 1 <= 31.
Proof.
  intros H mp. unfold mp, month_of_year, days_before_month.
  Z.div_mod_to_equations. lia.
Qed.

(** The next day of a year is the next day of the month or the first of
    the next month. *)
Lemma month_of_year_next (doy : Z) :
  0 <= doy < 365 ->
  let mp := month_of_year doy in
  let mp' := month_of_year (doy + 1) in
  (mp' = mp /\ days_before_month mp' = days_before_month mp) \/
  (mp' = mp + 1 /\ doy + 1 = days_before_month mp' /\
   30 <= doy - days_before_month mp + 1).
Proof.
  intros H mp mp'. unfold mp', mp, month_of_year, days_before_month.
  Z.div_mod_to_equations. lia.
Qed.

Lemma month_of_year_last (doy : Z) :
  364 <= doy <= 365 ->
  month_of_year doy = 11 /\ days_before_month 11 = 337.
Proof.
  intros H. unfold month_of_year, days_before_month.
  Z.div_mod_to_equations. lia.
Qed.

(** The next day of a cycle is the next day of the year or the first of
    the next year. *)
Lemma year_of_era_next (doe : Z) :
  0 <= doe < 146096 ->
  let yoe := year_of_era doe in
  let yoe' := year_of_era (doe + 1) in
  yoe' = yoe \/
  (yoe' = yoe + 1 /\ doe + 1 = days_before_year yoe' /\
   364 <= doe - days_before_year yoe).
Proof.
  intros H yoe yoe'.
  pose proof (year_of_era_bounds doe ltac:(lia)) as Ha.
  pose proof (year_of_era_bounds (doe + 1) ltac:(lia)) as Hb.
  cbv zeta in Ha, Hb. fold yoe in Ha. fold yoe' in Hb.
  clearbody yoe yoe'. unfold days_before_year in *.
  Z.div_mod_to_equations. lia.
Qed.

(** The day of the era of a day number. *)
Lemma era_day (z : Z) :
  0 <= (z + 719468) mod 146097 < 146097 /\
  z + 719468 = (z + 719468) / 146097 * 146097 + (z + 719468) mod 146097.
Proof.
  pose proof (Z.mod_pos_bound (z + 719468) 146097 eq_refl).
  pose proof (Z.div_mod (z + 719468) 146097). lia.
Qed.

Lemma civil_roundtrip (z : Z) :
  let '(y, m, d) := civil_from_days z in
  days_from_civil y m d = z /\ 1 <= m <= 12 /\ 1 <= d <= 31 /\
  400 * ((z + 719468) / 146097) <= y.
Proof.
  unfold civil_from_days.
  destruct (era_day z) as [Hdoe Hz].
  set (era := (z + 719468) / 146097) in *.
  set (doe := (z + 719468) mod 146097) in *.
  destruct (year_of_era_bounds doe Hdoe) as (Hy & Hd & _).
  set (yoe := year_of_era doe) in *.
  set (doy := doe - days_before_year yoe).
  destruct (month_of_year_bounds doy ltac:(unfold doy; lia)) as (Hm & Hdm).
  set (mp := month_of_year doy) in *.
  set (m := if mp <? 10 then mp + 3 else mp - 9).
  assert (Hmv : 1 <= m <= 12 /\ (if 2 <? m then m - 3 else m + 9) = mp
                /\ (m <= 2 <-> 10 <= mp)).
  { unfold m. destruct (Z.ltb_spec mp 10).
    - destruct (Z.ltb_spec 2 (mp + 3)); lia.
    - destruct (Z.ltb_spec 2 (mp - 9)); lia. }
  destruct Hmv as (Hm1 & Hm2 & Hm3).
  unfold days_from_civil. rewrite Hm2.
  replace (if m <=? 2
           then yoe + era * 400 + (if m <=? 2 then 1 else 0) - 1
           else yoe + era * 400 + (if m <=? 2 then 1 else 0))
    with (yoe + era * 400) by (destruct (m <=? 2); lia).
  rewrite Z.div_add by lia. rewrite Z.mod_add by lia.
  rewrite (Z.div_small yoe) by lia. rewrite (Z.mod_small yoe) by lia.
  split; [unfold doy; lia|]. split; [exact Hm1|]. split; [exact Hdm|].
  destruct (m <=? 2); lia.
Qed.

Lemma MakeDay_civil (z : Z) :
  let '(y, m, d) := civil_from_days z in MakeDay y (m - 1) d = z.
Proof.
  pose proof (civil_roundtrip z) as H.
  destruct (civil_from_days z) as [[y m] d].
  destruct H as (H & Hm & _). unfold MakeDay.
  rewrite (Z.div_small (m - 1)) by lia. rewrite (Z.mod_small (m - 1)) by lia.
  replace (y + 0) with y by lia. replace (m - 1 + 1) with m by lia.
  rewrite <- H. unfold days_from_civil. lia.
Qed.

(** Before 0100-01-01 lie the dates of the years up to 99. *)
Lemma days_before_100 (y m d : Z) :
  y <= 99 -> 1 <= m <= 12 -> 1 <= d <= 31 -> days_from_civil y m d < firstPlainDay.
Proof.
  intros Hy Hm Hd. unfold days_from_civil, firstPlainDay, days_before_year,
    days_before_month.
  destruct (Z.leb_spec m 2); destruct (Z.ltb_spec 2 m); try lia;
    Z.div_mod_to_equations; lia.
Qed.

Lemma year_from_100 (z : Z) :
  firstPlainDay <= z -> 100 <= fst (fst (civil_from_days z)).
Proof.
  intros Hz. pose proof (civil_roundtrip z) as H.
  destruct (civil_from_days z) as [[y m] d]. simpl.
  destruct H as (H & Hm & Hd & _).
  destruct (Z.le_gt_cases y 99) as [Hy|]; [|lia].
  pose proof (days_before_100 y m d Hy Hm Hd). lia.
Qed.

Lemma civil_month_day (z : Z) :
  let '(_, m, d) := civil_from_days z in
  month_day ((z + 719468) mod 146097) = (m, d).
Proof. reflexivity. Qed.

Lemma month_day_next (doe : Z) :
  0 <= doe < 146096 ->
  let '(m, d) := month_day doe in
  let '(m', d') := month_day (doe + 1) in
  (m' = m /\ d' = d + 1) \/
  (d' = 1 /\ 28 <= d /\ m' = if m =? 12 then 1 else m + 1).
Proof.
  intros H. unfold month_day. cbv beta zeta iota.
  destruct (year_of_era_bounds doe ltac:(lia)) as (_ & Hd & _).
  destruct (year_of_era_bounds (doe + 1) ltac:(lia)) as (_ & Hd' & _).
  destruct (year_of_era_next doe H) as [Hy | (Hy & Hfirst & Hlast)].
  - rewrite Hy in *.
    remember (doe - days_before_year (year_of_era doe)) as doy eqn:Hdoy.
    assert (Hdoy' : doe + 1 - days_before_year (year_of_era doe) = doy + 1) by lia.
    rewrite Hdoy'.
    destruct (month_of_year_bounds (doy + 1) ltac:(lia)) as (Hm' & _).
    destruct (month_of_year_bounds doy ltac:(lia)) as (Hm & _).
    destruct (month_of_year_next doy ltac:(lia)) as [(Hs & _) | (Hn & Hf & Hl)].
    + left. rewrite Hs. split; [reflexivity | lia].
    + right. rewrite Hn in *.
      remember (month_of_year doy) as mp eqn:Hmp.
      split; [lia|]. split; [lia|].
      destruct (Z.ltb_spec (mp + 1) 10), (Z.ltb_spec mp 10); try lia.
      * destruct (Z.eqb_spec (mp + 3) 12); lia.
      * destruct (Z.eqb_spec (mp + 3) 12); lia.
      * destruct (Z.eqb_spec (mp - 9) 12); lia.
  - right. rewrite <- Hfirst, Z.sub_diag. change (month_of_year 0) with 0.
    change (days_before_month 0) with 0.
    destruct (month_of_year_last (doe - days_before_year (year_of_era doe)) ltac:(lia))
      as [-> ->].
    simpl. lia.
Qed.

Lemma civil_next (z : Z) :
  let '(_, m, d) := civil_from_days z in
  let '(_, m', d') := civil_from_days (z + 1) in
  (m' = m /\ d' = d + 1) \/
  (d' = 1 /\ 28 <= d /\ m' = if m =? 12 then 1 else m + 1).
Proof.
  pose proof (civil_month_day z) as H. pose proof (civil_month_day (z + 1)) as H'.
  destruct (civil_from_days z) as [[y m] d].
  destruct (civil_from_days (z + 1)) as [[y' m'] d'].
  destruct (era_day z) as [Hdoe Hz].
  set (doe := (z + 719468) mod 146097) in *.
  destruct (Z.eq_dec doe 146096) as [Hlast | Hne].
  - assert (Hw : (z + 1 + 719468) mod 146097 = 0).
    { symmetry. apply Z.mod_unique with ((z + 719468) / 146097 + 1); lia. }
    rewrite Hw in H'. rewrite Hlast in H.
    vm_compute in H, H'. injection H as <- <-. injection H' as <- <-.
    right. repeat split. lia.
  - assert (Hw : (z + 1 + 719468) mod 146097 = doe + 1).
    { symmetry. apply Z.mod_unique with ((z + 719468) / 146097); lia. }
    rewrite Hw in H'.
    pose proof (month_day_next doe ltac:(lia)) as Hn.
    rewrite H, H' in Hn. exact Hn.
Qed.

Lemma weekDay_next (z : Z) :
  0 <= weekDay z <= 6 /\
  weekDay (z + 1) = if weekDay z =? 6 then 0 else weekDay z + 1.
Proof.
  unfold weekDay. destruct (Z.eqb_spec ((z + 4) mod 7) 6);
    Z.div_mod_to_equations; lia.
Qed.

Ltac compare_cases :=
  repeat match goal with
    | |- context [?a <=? ?b] => destruct (Z.leb_spec a b)
    | |- context [?a <? ?b] => destruct (Z.ltb_spec a b)
    | |- context [?a =? ?b] => destruct (Z.eqb_spec a b)
    end;
  simpl; try reflexivity; try (exfalso; lia).

Lemma daylightRule_next_day (m d wd : Z) :
  1 <= d -> 0 <= wd <= 6 ->
  daylightRule m d wd (7 * msPerHour)
  = daylightRule m (d + 1) (if wd =? 6 then 0 else wd + 1) 0.
Proof.
  intros Hd Hwd. unfold daylightRule.
  change (7 * msPerHour <=? 7 * msPerHour) with true.
  change (6 * msPerHour <=? 7 * msPerHour) with true.
  change (7 * msPerHour <=? 0) with false.
  change (6 * msPerHour <=? 0) with false.
  rewrite !orb_true_r, !orb_false_r, !andb_true_r.
  destruct (m =? 3); [|destruct (m =? 11); [|reflexivity]];
    destruct (Z.eqb_spec wd 6) as [-> | Hne]; compare_cases.
Qed.

Lemma daylightRule_next_month (m d wd wd' : Z) :
  28 <= d -> 0 <= wd <= 6 -> 0 <= wd' <= 6 ->
  daylightRule m d wd (7 * msPerHour)
  = daylightRule (if m =? 12 then 1 else m + 1) 1 wd' 0.
Proof.
  intros Hd Hwd Hwd'.
  assert (Hm : m = 2 \/ m = 3 \/ m = 10 \/ m = 11 \/ m = 12 \/
               (m <> 2 /\ m <> 3 /\ m <> 10 /\ m <> 11 /\ m <> 12)) by lia.
  unfold daylightRule.
  change (7 * msPerHour <=? 7 * msPerHour) with true.
  change (6 * msPerHour <=? 7 * msPerHour) with true.
  change (7 * msPerHour <=? 0) with false.
  change (6 * msPerHour <=? 0) with false.
  rewrite !orb_true_r, !orb_false_r, !andb_true_r.
  destruct Hm as [-> | [-> | [-> | [-> | [-> | Hm]]]]].
  - simpl. compare_cases.
  - simpl. compare_cases.
  - simpl. compare_cases.
  - simpl. compare_cases.
  - reflexivity.
  - destruct (Z.eqb_spec m 12); [lia|].
    destruct (Z.eqb_spec m 3); [lia|]. destruct (Z.eqb_spec m 11); [lia|].
    destruct (Z.eqb_spec (m + 1) 3); [lia|].
    destruct (Z.eqb_spec (m + 1) 11); [lia|].
    compare_cases.
Qed.

Lemma daylightOn_overnight (day : Z) :
  daylightOn day (7 * msPerHour) = daylightOn (day + 1) 0.
Proof.
  unfold daylightOn.
  pose proof (civil_next day) as Hn. pose proof (civil_roundtrip day) as Hr.
  destruct (weekDay_next day) as [Hwd ->].
  destruct (weekDay_next (day + 1)) as [Hwd' _].
  destruct (civil_from_days day) as [[y m] d].
  destruct (civil_from_days (day + 1)) as [[y' m'] d'].
  destruct Hr as (_ & _ & Hd & _).
  destruct Hn as [(-> & ->) | (-> & Hl & ->)].
  - apply daylightRule_next_day; lia.
  - apply daylightRule_next_month; [lia | lia |].
    destruct (Z.eqb_spec (weekDay day) 6); lia.
Qed.

Lemma TimeClip_in_range (z : Z) :
  Z.abs z <= maxTimeValue -> TimeClip (Num z) = Num z.
Proof.
  intros H. unfold TimeClip.
  destruct (Z.leb_spec (Z.abs z) maxTimeValue); [reflexivity | lia].
Qed.

(** [Date.UTC] of the date of a day number from 0100-01-01 on. *)
Lemma DateUTC_plain (z h mi s : Z) :
  firstPlainDay <= z ->
  let '(y, m, d) := civil_from_days z in
  DateUTC y (m - 1) d h mi s 0
  = TimeClip (Num (z * msPerDay + (h * msPerHour + mi * msPerMinute + s * msPerSecond))).
Proof.
  intros Hz. pose proof (MakeDay_civil z) as Hd.
  pose proof (year_from_100 z Hz) as Hy.
  destruct (civil_from_days z) as [[y m] d]. simpl in Hy.
  unfold DateUTC.
  destruct (Z.leb_spec y 99); [lia|]. rewrite andb_false_r. cbv zeta.
  rewrite Hd. unfold MakeDate, MakeTime. do 2 f_equal. lia.
Qed.

Lemma time_fields (tod : Z) :
  tod / msPerHour * msPerHour + (tod / msPerMinute) mod 60 * msPerMinute
  + (tod / msPerSecond) mod 60 * msPerSecond
  = tod - tod mod 1000.
Proof.
  unfold msPerHour, msPerMinute, msPerSecond.
  replace (tod / 3600000) with (tod / 1000 / 60 / 60)
    by (rewrite !Z.div_div by lia; reflexivity).
  replace (tod / 60000) with (tod / 1000 / 60)
    by (rewrite !Z.div_div by lia; reflexivity).
  pose proof (Z.div_mod tod 1000).
  pose proof (Z.div_mod (tod / 1000) 60).
  pose proof (Z.div_mod (tod / 1000 / 60) 60).
  lia.
Qed.

Lemma DateUTC_wallClock (local : Z) :
  firstPlainYear <= local ->
  let p := wallClock local in
  DateUTC (p_year p) (p_month p - 1) (p_day p) (p_hour p) (p_minute p) (p_second p) 0
  = TimeClip (Num (local - local mod 1000)).
Proof.
  intros Hl. unfold wallClock.
  assert (Hz : firstPlainDay <= local / msPerDay).
  { apply Z.div_le_lower_bound; [reflexivity|]. unfold firstPlainYear in Hl. lia. }
  pose proof (DateUTC_plain (local / msPerDay) (local mod msPerDay / msPerHour)
                ((local mod msPerDay / msPerMinute) mod 60)
                ((local mod msPerDay / msPerSecond) mod 60) Hz) as H.
  destruct (civil_from_days (local / msPerDay)) as [[y m] d].
  cbn [p_year p_month p_day p_hour p_minute p_second].
  rewrite H. do 2 f_equal.
  replace (local mod msPerDay / msPerHour * msPerHour
           + (local mod msPerDay / msPerMinute) mod 60 * msPerMinute
           + (local mod msPerDay / msPerSecond) mod 60 * msPerSecond)
    with (local mod msPerDay - (local mod msPerDay) mod 1000)
    by (symmetry; apply time_fields).
  replace ((local mod msPerDay) mod 1000) with (local mod 1000).
  - pose proof (Z.div_mod local msPerDay). unfold msPerDay in *. lia.
  - symmetry. apply Z.mod_mod_divide. exists 86400. reflexivity.
Qed.

Lemma wallClock_date (local : Z) :
  let p := wallClock local in
  civil_from_days (local / msPerDay) = (p_year p, p_month p, p_day p).
Proof.
  unfold wallClock. by destruct (civil_from_days (local / msPerDay)) as [[y m] d].
Qed.

Lemma DateUTC_whole_second (y mo d h mi c : Z) :
  DateUTC y mo d h mi 0 0 = Num c -> c mod 1000 = 0.
Proof.
  unfold DateUTC, TimeClip. destruct (_ <=? maxTimeValue); [|discriminate].
  intros [= <-]. unfold MakeDate, MakeTime, msPerDay, msPerHour, msPerMinute, msPerSecond.
  set (day := MakeDay _ _ _).
  replace (day * 86400000 + (h * 3600000 + mi * 60000 + 0 * 1000 + 0))
    with ((day * 86400 + h * 3600 + mi * 60) * 1000) by lia.
  apply Z.mod_mul. lia.
Qed.

(** [getOffsetMs] at a valid date whose wall clock in the zone shows a
    date from 0100-01-01 on, not after the last date: the offset of the
    zone, less the milliseconds of the instant. *)
Lemma getOffsetMs_exact (offset : Z -> Z) (t : Z) :
  offset t mod 1000 = 0 ->
  Z.abs t <= maxTimeValue ->
  firstPlainYear <= t + offset t <= maxTimeValue ->
  EndOfDay.getOffsetMs offset (Num t) = Some (Num (offset t - t mod 1000)).
Proof.
  intros Hw Ht Hl.
  unfold EndOfDay.getOffsetMs, newDate, EndOfDay.formatToParts.
  rewrite TimeClip_in_range by exact Ht.
  cbn [getTime].
  rewrite DateUTC_wallClock by lia.
  assert (Hm : (t + offset t) mod 1000 = t mod 1000).
  { rewrite Z.add_mod by lia. rewrite Hw, Z.add_0_r. apply Z.mod_mod. lia. }
  pose proof (Z.mod_pos_bound t 1000 eq_refl).
  rewrite TimeClip_in_range
    by (unfold firstPlainYear, firstPlainDay, msPerDay, maxTimeValue in *; lia).
  cbn [nsub]. do 2 f_equal. lia.
Qed.

Lemma DateUTC_valid (y mo d h mi s ms c : Z) :
  DateUTC y mo d h mi s ms = Num c -> Z.abs c <= maxTimeValue.
Proof.
  unfold DateUTC, TimeClip.
  destruct (Z.leb_spec (Z.abs (MakeDate (MakeDay (if (0 <=? y) && (y <=? 99) then 1900 + y else y) mo d)
                                 (MakeTime h mi s ms))) maxTimeValue);
    [|discriminate].
  intros [= <-]. assumption.
Qed.

Lemma zonedTimeToUtc_exact (offset : Z -> Z) (y mo d h mi c : Z) :
  (forall t, offset t mod 1000 = 0) ->
  DateUTC y (mo - 1) d h mi 0 0 = Num c ->
  firstPlainYear <= c + offset c <= maxTimeValue ->
  Z.abs (c - offset c) <= maxTimeValue ->
  firstPlainYear <= c - offset c + offset (c - offset c) <= maxTimeValue ->
  EndOfDay.getOffsetMs offset (Num c) = Some (Num (offset c)) /\
  EndOfDay.getOffsetMs offset (Num (c - offset c)) = Some (Num (offset (c - offset c))) /\
  EndOfDay.zonedTimeToUtc offset y mo d h mi
  = Some (Num (c - offset (c - offset c))).
Proof.
  intros Hw Hc Hl Hg Hgl.
  pose proof (DateUTC_whole_second _ _ _ _ _ _ Hc) as Hs.
  pose proof (DateUTC_valid _ _ _ _ _ _ _ _ Hc) as Hv.
  assert (H1 : EndOfDay.getOffsetMs offset (Num c) = Some (Num (offset c))).
  { rewrite getOffsetMs_exact by auto. rewrite Hs. do 2 f_equal. lia. }
  assert (H2 : EndOfDay.getOffsetMs offset (Num (c - offset c))
               = Some (Num (offset (c - offset c)))).
  { rewrite getOffsetMs_exact by auto.
    replace ((c - offset c) mod 1000) with 0; [do 2 f_equal; lia|].
    symmetry. rewrite Zminus_mod, Hs, Hw. reflexivity. }
  split; [exact H1|]. split; [exact H2|].
  unfold EndOfDay.zonedTimeToUtc. rewrite Hc, H1. cbn [nsub]. by rewrite H2.
Qed.

(** A zone whose offsets are whole seconds of at most a day: for instants
    well inside the range of dates since 1970, [getOffsetMs] returns the
    offset of the zone, less the milliseconds of the instant. *)
Section ZoneFacts.
Variable offset : Z -> Z.
Hypothesis off_whole : forall t, offset t mod 1000 = 0.
Hypothesis off_bound : forall t, - msPerDay <= offset t <= msPerDay.

Lemma getOffsetMs_actual (t : Z) :
  msPerDay <= t <= maxTimeValue - msPerDay ->
  EndOfDay.getOffsetMs offset (Num t) = Some (Num (offset t - t mod 1000)).
Proof.
  intros Ht. pose proof (off_bound t) as Hb.
  apply getOffsetMs_exact; [apply off_whole | |];
    unfold firstPlainYear, firstPlainDay, msPerDay, maxTimeValue in *; lia.
Qed.

End ZoneFacts.

(** The target of the shortcut in a zone that is Eastern around [now]. *)
Section EasternTarget.
Variable offset : Z -> Z.
Variable now : Z.
Hypothesis eastern : easternAround offset now.

(** [zonedTimeToUtc] for an hour from 12:00 to 17:00 on the wall clock of
    day number [k]: an instant four to five hours after that hour of the
    UTC day. *)
Lemma zonedTimeToUtc_on_day (k hh : Z) :
  firstPlainDay <= k -> (k + 1) * msPerDay <= maxTimeValue -> 12 <= hh <= 17 ->
  now - msPerDay <= k * msPerDay + 12 * msPerHour ->
  k * msPerDay + 22 * msPerHour <= now + 3 * msPerDay ->
  let '(y, m, d) := civil_from_days k in
  let c := k * msPerDay + hh * msPerHour in
  exists r,
    EndOfDay.zonedTimeToUtc offset y m d hh 0 = Some (Num r) /\
    r = c - offset (c - offset c) /\
    c + 4 * msPerHour <= c - offset c <= c + 5 * msPerHour /\
    c + 4 * msPerHour <= r <= c + 5 * msPerHour.
Proof.
  intros Hk Hmax Hh Hlo Hhi.
  destruct eastern as (Hwhole & Hrange & _).
  pose proof (DateUTC_plain k hh 0 0 Hk) as Hc.
  destruct (civil_from_days k) as [[y m] d].
  intros c.
  assert (Hoc : - 5 * msPerHour <= offset c <= - 4 * msPerHour)
    by (apply Hrange; unfold c, msPerDay, msPerHour in *; lia).
  assert (Hog : - 5 * msPerHour <= offset (c - offset c) <= - 4 * msPerHour)
    by (apply Hrange; unfold c, msPerDay, msPerHour in *; lia).
  rewrite TimeClip_in_range in Hc
    by (unfold firstPlainDay, msPerDay, msPerHour, msPerMinute, msPerSecond,
          maxTimeValue in *; lia).
  replace (k * msPerDay + (hh * msPerHour + 0 * msPerMinute + 0 * msPerSecond))
    with c in Hc by (unfold c; lia).
  destruct (zonedTimeToUtc_exact offset y m d hh 0 c Hwhole Hc) as (_ & _ & Hz).
  - unfold firstPlainYear, firstPlainDay, c, msPerDay, msPerHour, maxTimeValue in *. lia.
  - unfold firstPlainDay, c, msPerDay, msPerHour, maxTimeValue in *. lia.
  - unfold firstPlainYear, firstPlainDay, c, msPerDay, msPerHour, maxTimeValue in *. lia.
  - exists (c - offset (c - offset c)). split; [exact Hz|]. split; [reflexivity|].
    unfold msPerHour in *. lia.
Qed.

(** At 17:00 the first approximation and the result lie between 21:00
    and 22:00 UTC, where the zone keeps its offset. *)
Lemma zonedTimeToUtc_at_17 (k : Z) :
  firstPlainDay <= k -> (k + 1) * msPerDay <= maxTimeValue ->
  now - msPerDay <= k * msPerDay + 12 * msPerHour ->
  k * msPerDay + 22 * msPerHour <= now + 3 * msPerDay ->
  let '(y, m, d) := civil_from_days k in
  exists r,
    EndOfDay.zonedTimeToUtc offset y m d 17 0 = Some (Num r) /\
    k * msPerDay + 21 * msPerHour <= r <= k * msPerDay + 22 * msPerHour /\
    r + offset r = k * msPerDay + 17 * msPerHour.
Proof.
  intros Hk Hmax Hlo Hhi.
  pose proof (zonedTimeToUtc_on_day k 17 Hk Hmax ltac:(lia) Hlo Hhi) as H.
  destruct eastern as (_ & _ & Hstable).
  destruct (civil_from_days k) as [[y m] d]. cbv zeta in H.
  destruct H as (r & Hz & Hr & Hg & Hrr).
  set (c := k * msPerDay + 17 * msPerHour) in *.
  set (g := c - offset c) in *.
  assert (Hlo' : now - msPerDay <= k * msPerDay + 21 * msPerHour)
    by (unfold msPerHour in *; lia).
  assert (H1 : offset g = offset (k * msPerDay + 21 * msPerHour))
    by (apply Hstable; try assumption; unfold c, msPerHour in *; lia).
  assert (H2 : offset r = offset (k * msPerDay + 21 * msPerHour))
    by (apply Hstable; try assumption; unfold c, msPerHour in *; lia).
  exists r. split; [exact Hz|]. split; [unfold c, msPerHour in *; lia|].
  rewrite H2, <- H1. lia.
Qed.

Lemma targetMs_resolves :
  firstPlainYear + 5 * msPerHour <= now < maxTimeValue - 3 * msPerHour ->
  let k := (now + offset now) / msPerDay in
  exists r,
    EndOfDay.targetMs offset now = Some (Num r) /\
    now < r /\
    (r + offset r = k * msPerDay + 17 * msPerHour \/
     r + offset r = (k + 1) * msPerDay + 17 * msPerHour /\
     exists r0, r0 + offset r0 = k * msPerDay + 17 * msPerHour /\ r0 <= now).
Proof.
  intros Hnow k.
  pose proof eastern as (Hwhole & Hrange & Hstable).
  assert (Hb : - 5 * msPerHour <= offset now <= - 4 * msPerHour)
    by (apply Hrange; unfold msPerDay; lia).
  pose proof (Z.div_mod (now + offset now) msPerDay ltac:(discriminate)) as Hdm.
  pose proof (Z.mod_pos_bound (now + offset now) msPerDay eq_refl) as Hmod.
  fold k in Hdm.
  assert (Hk : firstPlainDay <= k /\ (k + 1) * msPerDay <= maxTimeValue).
  { unfold firstPlainYear, firstPlainDay, msPerDay, msPerHour, maxTimeValue in *. lia. }
  destruct Hk as [Hk Hkmax].
  assert (Hlo : now - msPerDay <= k * msPerDay + 12 * msPerHour)
    by (unfold msPerDay, msPerHour in *; lia).
  assert (Hhi : k * msPerDay + 22 * msPerHour <= now + 3 * msPerDay)
    by (unfold msPerDay, msPerHour in *; lia).
  unfold EndOfDay.targetMs, EndOfDay.formatToParts at 1. cbn [getTime dateNow].
  pose proof (wallClock_date (now + offset now)) as Hd. cbv zeta in Hd. fold k in Hd.
  set (p := wallClock (now + offset now)) in *.
  pose proof (zonedTimeToUtc_at_17 k Hk Hkmax Hlo Hhi) as H17.
  pose proof (zonedTimeToUtc_on_day k 12 Hk Hkmax ltac:(lia) Hlo Hhi) as H12.
  rewrite Hd in H17, H12. cbv zeta in H12.
  destruct H17 as (r & Hz & Hr & Hw). destruct H12 as (r12 & Hz12 & _ & _ & Hr12).
  rewrite Hz. cbn [nle].
  destruct (Z.leb_spec r now) as [Hle | Hgt].
  - assert (Hk1 : (k + 1 + 1) * msPerDay <= maxTimeValue)
      by (unfold msPerDay, msPerHour, maxTimeValue in *; lia).
    rewrite Hz12. cbn [nadd]. unfold newDate.
    rewrite TimeClip_in_range
      by (unfold firstPlainYear, firstPlainDay, msPerDay, msPerHour, maxTimeValue in *; lia).
    unfold EndOfDay.formatToParts. cbn [getTime].
    set (tt := r12 + 24 * 60 * 60 * 1000).
    assert (Htt : (k + 1) * msPerDay + 16 * msPerHour <= tt
                  <= (k + 1) * msPerDay + 17 * msPerHour)
      by (unfold tt, msPerDay, msPerHour in *; lia).
    assert (Hott : - 5 * msPerHour <= offset tt <= - 4 * msPerHour)
      by (apply Hrange; unfold msPerDay, msPerHour in *; lia).
    assert (Hday : (tt + offset tt) / msPerDay = k + 1).
    { symmetry. apply Z.div_unique with (tt + offset tt - (k + 1) * msPerDay).
      - left. unfold msPerDay, msPerHour in *; lia.
      - lia. }
    pose proof (wallClock_date (tt + offset tt)) as Hd'. cbv zeta in Hd'.
    rewrite Hday in Hd'.
    pose proof (zonedTimeToUtc_at_17 (k + 1) ltac:(lia) Hk1
                  ltac:(unfold msPerDay, msPerHour in *; lia)
                  ltac:(unfold msPerDay, msPerHour in *; lia)) as H17'.
    rewrite Hd' in H17'. destruct H17' as (r' & Hz' & Hr' & Hw').
    exists r'. split; [exact Hz'|]. split.
    + unfold msPerDay, msPerHour in *; lia.
    + right. split; [exact Hw'|]. exists r. split; [exact Hw | exact Hle].
  - exists r. split; [reflexivity|]. split; [exact Hgt|]. left. exact Hw.
Qed.

End EasternTarget.

(** A zone that is five or four hours behind UTC and changes its offset
    only between 06:00 and 07:00 UTC at every instant. *)
Section WallClockTarget.
Variable offset : Z -> Z.
Hypothesis off_cases :
  forall t, offset t = -5 * msPerHour \/ offset t = -4 * msPerHour.
Hypothesis off_stable :
  forall k t,
    k * msPerDay + 7 * msPerHour <= t < (k + 1) * msPerDay + 6 * msPerHour ->
    offset t = offset (k * msPerDay + 7 * msPerHour).

Lemma off_whole_of_cases (t : Z) : offset t mod 1000 = 0.
Proof. by destruct (off_cases t) as [-> | ->]. Qed.

Lemma off_bound_of_cases (t : Z) : - msPerDay <= offset t <= msPerDay.
Proof. destruct (off_cases t) as [-> | ->]; unfold msPerDay, msPerHour; lia. Qed.

Lemma eastern_of_cases (now : Z) : easternAround offset now.
Proof.
  split; [exact off_whole_of_cases|]. split.
  - intros t _. destruct (off_cases t) as [-> | ->]; unfold msPerHour; lia.
  - intros k t _ _ Ht.
    rewrite (off_stable k t) by (unfold msPerDay, msPerHour in *; lia).
    symmetry. apply off_stable. unfold msPerDay, msPerHour. lia.
Qed.

Lemma targetMs_next (now : Z) :
  3 * msPerDay <= now <= maxTimeValue - 5 * msPerDay ->
  let k := (now + offset now) / msPerDay in
  exists r,
    EndOfDay.targetMs offset now = Some (Num r) /\
    now < r /\
    (r + offset r = k * msPerDay + 17 * msPerHour \/
     r + offset r = (k + 1) * msPerDay + 17 * msPerHour /\
     exists r0, r0 + offset r0 = k * msPerDay + 17 * msPerHour /\ r0 <= now).
Proof.
  intros Hnow. apply (targetMs_resolves offset now (eastern_of_cases now)).
  unfold firstPlainYear, firstPlainDay, msPerDay, msPerHour, maxTimeValue in *. lia.
Qed.

End WallClockTarget.

Lemma newYork_cases (t : Z) :
  newYorkOffset t = -5 * msPerHour \/ newYorkOffset t = -4 * msPerHour.
Proof. unfold newYorkOffset. destruct (usDaylight t); auto. Qed.

Lemma daylightOn_late (day tod : Z) :
  7 * msPerHour <= tod -> daylightOn day tod = daylightOn day (7 * msPerHour).
Proof.
  intros H. unfold daylightOn, daylightRule.
  destruct (civil_from_days day) as [[y m] d].
  destruct (Z.leb_spec (7 * msPerHour) tod); [|lia].
  destruct (Z.leb_spec (6 * msPerHour) tod); [|unfold msPerHour in *; lia].
  reflexivity.
Qed.

Lemma daylightOn_early (day tod : Z) :
  0 <= tod < 6 * msPerHour -> daylightOn day tod = daylightOn day 0.
Proof.
  intros H. unfold daylightOn, daylightRule.
  destruct (civil_from_days day) as [[y m] d].
  destruct (Z.leb_spec (7 * msPerHour) tod); [unfold msPerHour in *; lia|].
  destruct (Z.leb_spec (6 * msPerHour) tod); [lia|].
  reflexivity.
Qed.

Lemma newYork_stable (k t : Z) :
  k * msPerDay + 7 * msPerHour <= t < (k + 1) * msPerDay + 6 * msPerHour ->
  newYorkOffset t = newYorkOffset (k * msPerDay + 7 * msPerHour).
Proof.
  intros Ht. unfold newYorkOffset, usDaylight.
  assert (Hk : (k * msPerDay + 7 * msPerHour) / msPerDay = k).
  { symmetry. apply Z.div_unique with (7 * msPerHour); [left; split; [discriminate | reflexivity] | lia]. }
  assert (Hm : (k * msPerDay + 7 * msPerHour) mod msPerDay = 7 * msPerHour).
  { symmetry. apply Z.mod_unique with k; [left; split; [discriminate | reflexivity] | lia]. }
  rewrite Hk, Hm.
  destruct (Z.lt_ge_cases t ((k + 1) * msPerDay)) as [Hlt | Hge].
  - assert (Hq : t / msPerDay = k).
    { symmetry. apply Z.div_unique with (t - k * msPerDay); [left|]; unfold msPerDay, msPerHour in *; lia. }
    pose proof (Z.div_mod t msPerDay ltac:(discriminate)) as Hdm. rewrite Hq in Hdm.
    rewrite Hq, (daylightOn_late k (t mod msPerDay)); [reflexivity|].
    unfold msPerDay, msPerHour in *. lia.
  - assert (Hq : t / msPerDay = k + 1).
    { symmetry. apply Z.div_unique with (t - (k + 1) * msPerDay); [left|]; unfold msPerDay, msPerHour in *; lia. }
    pose proof (Z.div_mod t msPerDay ltac:(discriminate)) as Hdm. rewrite Hq in Hdm.
    rewrite Hq, (daylightOn_early (k + 1) (t mod msPerDay)), <- daylightOn_overnight;
      [reflexivity|].
    unfold msPerDay, msPerHour in *. lia.
Qed.

(** ** The claims about the 5:00 PM Eastern shortcut *)

(** C1 as it is stated, for every input, fails at both ends of the
    calendar.  For 275760-09-13 00:00 the candidate is the last valid
    date and the zone is four hours behind, so the first approximation is
    no valid date and the formatter throws.  For 0100-01-01 00:00 the
    wall clock of the zone at the candidate, 4:56:02 behind under the
    local mean time the database has for that day, shows 0099-12-31
    19:03:58; [Date.UTC] reads the year 99 as 1999 and [getOffsetMs]
    returns the offset plus the 693960 days of 1900 years. *)
Lemma zonedTimeToUtc_counterexample :
  (DateUTC 275760 (9 - 1) 13 0 0 0 0 = Num maxTimeValue /\
   EndOfDay.getOffsetMs newYorkOffset (Num maxTimeValue) = Some (Num (-4 * msPerHour)) /\
   EndOfDay.zonedTimeToUtc newYorkOffset 275760 9 13 0 0 = None) /\
  (DateUTC 100 (1 - 1) 1 0 0 0 0 = Num firstPlainYear /\
   EndOfDay.getOffsetMs (fun _ => localMeanTime) (Num firstPlainYear)
   = Some (Num (localMeanTime + 693960 * msPerDay)) /\
   localMeanTime + 693960 * msPerDay = 59958126238000).
Proof. vm_compute. repeat split. Qed.

(** C1, amended.  For a zone of whole-second offsets and an input whose
    candidate [c] = [Date.UTC(y, mo - 1, d, h, mi)] and first
    approximation [c - offset c] are valid dates at which the wall clock
    of the zone shows a date from 0100-01-01 on, not after the last
    valid date: [getOffsetMs] at the candidate is the offset of the zone
    there, [getOffsetMs] at the first approximation is the offset of the
    zone there, and [zonedTimeToUtc] returns the candidate less the
    second, c - offset(c - offset(c)). *)
Theorem zonedTimeToUtc_two_step (offset : Z -> Z) (y mo d h mi c : Z) :
  (forall t, offset t mod 1000 = 0) ->
  DateUTC y (mo - 1) d h mi 0 0 = Num c ->
  let guess := c - offset c in
  firstPlainYear <= c + offset c <= maxTimeValue ->
  Z.abs guess <= maxTimeValue ->
  firstPlainYear <= guess + offset guess <= maxTimeValue ->
  EndOfDay.getOffsetMs offset (Num c) = Some (Num (offset c)) /\
  EndOfDay.getOffsetMs offset (Num guess) = Some (Num (offset guess)) /\
  EndOfDay.zonedTimeToUtc offset y mo d h mi = Some (Num (c - offset guess)).
Proof.
  intros Hw Hc guess H1 H2 H3.
  exact (zonedTimeToUtc_exact offset y mo d h mi c Hw Hc H1 H2 H3).
Qed.

Lemma zonedTimeToUtc_two_step_witness :
  EndOfDay.zonedTimeToUtc newYorkOffset 2024 3 9 17 0 = Some (Num 1710021600000).
Proof.
  destruct (zonedTimeToUtc_two_step newYorkOffset 2024 3 9 17 0 1710003600000)
    as (_ & _ & H3).
  - apply (off_whole_of_cases _ newYork_cases).
  - reflexivity.
  - vm_compute. split; congruence.
  - vm_compute. congruence.
  - vm_compute. split; congruence.
  - exact H3.
Defined.

Lemma wallClock_at_17 (j local : Z) :
  local = j * msPerDay + 17 * msPerHour ->
  local / msPerDay = j /\
  p_hour (wallClock local) = 17 /\ p_minute (wallClock local) = 0 /\
  p_second (wallClock local) = 0.
Proof.
  intros ->.
  assert (Hq : (j * msPerDay + 17 * msPerHour) / msPerDay = j).
  { symmetry. apply Z.div_unique with (17 * msPerHour);
      [left; split; [discriminate | reflexivity] | lia]. }
  assert (Hm : (j * msPerDay + 17 * msPerHour) mod msPerDay = 17 * msPerHour).
  { symmetry. apply Z.mod_unique with j;
      [left; split; [discriminate | reflexivity] | lia]. }
  split; [exact Hq|]. unfold wallClock. rewrite Hq, Hm.
  destruct (civil_from_days j) as [[y m] d]. repeat split.
Qed.

(** C2 as it is stated fails in its example and for some [now]: for
    now = 2024-03-09T06:30:00Z the result is not 2024-03-09T21:00:00Z
    (which is 16:00 EST); for now = 275760-09-12T21:00:00Z, 17:00 in the
    zone and three hours before the last valid date, today's 17:00 is not
    after [now] and tomorrow's noon is no valid date, so the formatter
    throws; and for now = 0099-06-15T12:00:00Z the zone's date has the
    year 99, which [Date.UTC] reads as 1999, and the result is
    1999-06-15T21:00:00Z, 17:00 in the zone nineteen centuries later.
    (On 0099-06-15 the database has local mean time and not the offset of
    [newYorkOffset]; the date read at 12:00Z is the same, and in June
    1999 daylight time is on under the rule of the time as well.) *)
Lemma end_of_day_counterexample :
  EndOfDay.targetMs newYorkOffset 1709965800000 <> Some (Num 1710018000000) /\
  EndOfDay.targetMs newYorkOffset (maxTimeValue - 3 * msPerHour) = None /\
  EndOfDay.targetMs newYorkOffset (-59028696000000) = Some (Num 929480400000).
Proof. vm_compute. repeat split. discriminate. Qed.

(** C2, amended.  In a zone that around [now] is five to four hours
    behind UTC in whole seconds and keeps its offset from 21:00 to 22:00
    UTC ([easternAround]), for every clock reading [now] from
    0100-01-01T05:00:00Z (the wall clock of the zone shows the year 100
    or a later one) to less than three hours before the last valid
    date, [shortcutEndOfDay] resolves an instant
    [r] strictly after [now] whose wall clock in the zone shows 17:00:00
    exactly, on the zone's date of [now], or on the next date when the
    17:00 of the zone's date of [now] is not after [now]; this holds on
    the days of the transitions too.  For now = 2024-03-09T06:30:00Z the
    result is 2024-03-09T22:00:00Z (17:00 EST, UTC-5). *)
Theorem end_of_day_target (offset : Z -> Z) (now : Z) :
  easternAround offset now ->
  firstPlainYear + 5 * msPerHour <= now < maxTimeValue - 3 * msPerHour ->
  let today := (now + offset now) / msPerDay in
  (exists r,
     EndOfDay.targetMs offset now = Some (Num r) /\
     now < r /\
     let clock := wallClock (r + offset r) in
     p_hour clock = 17 /\ p_minute clock = 0 /\ p_second clock = 0 /\
     (r + offset r = today * msPerDay + 17 * msPerHour \/
      r + offset r = (today + 1) * msPerDay + 17 * msPerHour /\
      exists r0,
        r0 + offset r0 = today * msPerDay + 17 * msPerHour /\ r0 <= now)) /\
  EndOfDay.targetMs newYorkOffset 1709965800000 = Some (Num 1710021600000).
Proof.
  intros Heast Hnow today. split; [|vm_compute; reflexivity].
  destruct (targetMs_resolves offset now Heast Hnow) as (r & Hr & Hlt & Hw).
  fold today in Hw.
  exists r. split; [exact Hr|]. split; [exact Hlt|].
  destruct Hw as [Hw | [Hw H0]].
  - destruct (wallClock_at_17 _ _ Hw) as (_ & H1 & H2 & H3). auto.
  - destruct (wallClock_at_17 _ _ Hw) as (_ & H1 & H2 & H3). auto 6.
Qed.

Lemma end_of_day_target_witness :
  exists r, EndOfDay.targetMs newYorkOffset 1709965800000 = Some (Num r) /\
            1709965800000 < r.
Proof.
  destruct (end_of_day_target newYorkOffset 1709965800000) as [(r & H1 & H2 & _) _].
  - apply (eastern_of_cases _ newYork_cases newYork_stable).
  - vm_compute. split; congruence.
  - exists r. split; [exact H1 | exact H2].
Defined.

(** ** More invariants of the three versions *)

Lemma parsedCustomMinutes_nonneg (text : string) (m : Z) :
  parsedCustomMinutes text = Some m -> 0 <= m.
Proof.
  unfold parsedCustomMinutes.
  destruct (Number text) as [| neg | q]; simpl; try discriminate.
  destruct (Qle_bool q 0) eqn:E; [discriminate|]. intros [= <-].
  change 0 with (Qfloor 0). apply Qfloor_resp_le.
  destruct (Qlt_le_dec 0 q) as [H | H]; [by apply Qlt_le_weak|].
  apply Qle_bool_iff in H. congruence.
Qed.

Lemma endOfMinutes_time (now m b : Z) :
  getTime (endOfMinutes now m) = Num b -> b = now + m * 60000.
Proof.
  unfold endOfMinutes, newDate, TimeClip. simpl.
  destruct (_ <=? _); [|discriminate]. by intros [= <-].
Qed.

Lemma whole_minutes_started (now m : Z) (r : Run) :
  1 <= m ->
  startTime r = Some (dateNow now) -> endTime r = Some (endOfMinutes now m) ->
  whole_minutes r.
Proof.
  intros Hm Hs He s e a b. rewrite Hs, He. intros [= <-] [= <-] [= <-] Hb.
  apply endOfMinutes_time in Hb. subst b. split; [lia|].
  replace (now + m * 60000 - now) with (m * 60000) by lia. apply Z.mod_mul. lia.
Qed.

Lemma whole_minutes_none (r : Run) : startTime r = None -> whole_minutes r.
Proof. intros H s e a b Hs. congruence. Qed.

Lemma autostop_start_shown (m now now' : Z) (r : Run) :
  1 <= m ->
  let r' := AutoStop.start m now now' r in
  remaining_clamped r' /\ times_together r' /\ whole_minutes r' /\
  (running r' = true -> endTime r' <> None).
Proof.
  intros Hm r'.
  assert (Hs : startTime r' = Some (dateNow now)).
  { unfold r', AutoStop.start. simpl. apply autostop_update_startTime. }
  assert (He : endTime r' = Some (endOfMinutes now m)).
  { unfold r', AutoStop.start. simpl. apply autostop_update_endTime. }
  split; [|split; [|split]].
  - unfold r', AutoStop.start, remaining_clamped, AutoStop.update. simpl.
    destruct (nle _ _); simpl.
    + rewrite (proj2 (clearTimer_shown _)). simpl.
      destruct (nsub _ _); simpl; [done | lia].
    + destruct (nsub _ _); simpl; [done | lia].
  - unfold times_together. rewrite Hs, He. split; discriminate.
  - by apply (whole_minutes_started now m).
  - rewrite He. discriminate.
Qed.

Lemma minutesValue_positive (m : Minutes) : 1 <= minutesValue m.
Proof. destruct m; simpl; lia. Qed.

Lemma autostop_step_shown (st : AutoStop.State) (ev : AutoStop.event) :
  autostop_shown st -> autostop_shown (AutoStop.step st ev).
Proof.
  intros H. pose proof H as (H1 & H2 & H3 & H4).
  destruct ev; simpl; try exact H.
  - apply autostop_start_shown, minutesValue_positive.
  - unfold AutoStop.startCustom.
    destruct (parsedCustomMinutes _) as [m|] eqn:E; [|exact H].
    destruct (Z.eqb_spec m 0); [exact H|].
    apply autostop_start_shown. apply parsedCustomMinutes_nonneg in E. lia.
  - unfold autostop_shown, cancel. simpl.
    split; [unfold remaining_clamped; simpl; lia|].
    split; [done|]. split; [by apply whole_minutes_none | discriminate].
  - destruct (timers (AutoStop.run st) !! h) as [e|]; [|exact H].
    unfold autostop_shown. simpl.
    unfold times_together, whole_minutes, remaining_clamped.
    rewrite autostop_update_startTime, autostop_update_endTime.
    split; [|split; [|split]]; try assumption.
    + unfold AutoStop.update. destruct (nle _ _); simpl.
      * rewrite (proj2 (clearTimer_shown _)). simpl.
        destruct (nsub _ _); simpl; [done | lia].
      * destruct (nsub _ _); simpl; [done | lia].
    + unfold AutoStop.update. destruct (nle _ _); simpl; [discriminate | exact H4].
  - unfold autostop_shown, times_together, whole_minutes, remaining_clamped. simpl.
    destruct (clearTimer_times (AutoStop.run st)) as [-> ->].
    destruct (clearTimer_shown (AutoStop.run st)) as [-> ->]. exact H.
Qed.

Lemma start_shown (m now now' : Z) (r : Run) :
  1 <= m ->
  let r' := start m now now' r in
  times_together r' /\ whole_minutes r' /\ (running r' = true <-> endTime r' <> None).
Proof.
  intros Hm r'. split; [|split].
  - unfold times_together. simpl. split; discriminate.
  - by apply (whole_minutes_started now m).
  - simpl. split; [discriminate | reflexivity].
Qed.

Lemma preview_step_shown (st : Preview.State) (ev : Preview.event) :
  preview_shown st -> preview_shown (Preview.step st ev).
Proof.
  intros H. pose proof H as (H1 & H2 & H3 & H4).
  destruct ev; simpl; try exact H.
  - split; [apply minutesValue_positive | done].
  - unfold Preview.startCustom.
    destruct (parsedCustomMinutes _) as [m|] eqn:E; simpl; [|exact H].
    destruct (Z.eqb_spec m 0); [exact H|].
    split; [|done]. simpl. apply parsedCustomMinutes_nonneg in E. lia.
  - unfold Preview.confirmStart.
    destruct (Preview.pendingMinutes st) as [m|] eqn:E; [|exact H].
    split; [done|]. apply start_shown. exact H1.
  - split; [done|]. done.
  - unfold preview_shown, cancel. simpl.
    split; [exact H1|]. split; [done|]. split; [by apply whole_minutes_none|].
    split; [discriminate | congruence].
  - destruct (timers (Preview.run st) !! h); exact H.
  - unfold preview_shown, times_together, whole_minutes. simpl.
    destruct (clearTimer_times (Preview.run st)) as [-> ->].
    destruct (clearTimer_shown (Preview.run st)) as [-> _]. exact H.
Qed.

Lemma parsedPreciseEnd_valid (rt : Precise.Runtime) (text : string) :
  valid_date (Precise.parsedPreciseEnd rt text).
Proof.
  unfold Precise.parsedPreciseEnd. destruct (String.eqb text _); [done|].
  destruct (getTime (newDate _)) eqn:E; [done|]. simpl. eauto.
Qed.

Lemma setPrecise_shown (rt : Precise.Runtime) (d : Date) (now : Z) (st : Precise.State) :
  precise_shown st -> precise_shown (Precise.setPrecise rt d now st).
Proof.
  intros (H1 & H2 & H3 & H4). unfold Precise.setPrecise.
  destruct (ngt _ _) eqn:E; [|done].
  split; [done|]. split; [|done]. simpl.
  destruct (getTime (Precise.setSeconds00 rt d)); [discriminate | eauto].
Qed.

Lemma precise_step_shown (rt : Precise.Runtime) (st : Precise.State)
    (ev : Precise.event) :
  precise_shown st -> precise_shown (Precise.step rt st ev).
Proof.
  intros H. pose proof H as (H1 & H2 & H3 & H4).
  destruct ev; simpl; try exact H.
  - split; [apply minutesValue_positive | done].
  - unfold Precise.startCustom.
    destruct (parsedCustomMinutes _) as [m|] eqn:E; simpl; [|exact H].
    destruct (Z.eqb_spec m 0); [exact H|].
    split; [|done]. simpl. apply parsedCustomMinutes_nonneg in E. lia.
  - unfold Precise.previewPreciseEnd. destruct (negb _); [exact H|].
    pose proof (parsedPreciseEnd_valid rt (Precise.preciseEndLocal st)) as Hv.
    destruct (Precise.parsedPreciseEnd _ _); [|exact H]. done.
  - by apply setPrecise_shown.
  - unfold Precise.shortcutEndOfDay. destruct (EndOfDay.targetMs _ _); [|exact H].
    by apply setPrecise_shown.
  - unfold Precise.confirmStart.
    destruct (Precise.pendingExactEnd st) as [e|].
    + unfold precise_shown, times_together. simpl.
      repeat split; try done; discriminate.
    + destruct (Precise.pendingMinutes st) as [m|]; [|exact H].
      unfold precise_shown, times_together. simpl.
      repeat split; try done; discriminate.
  - done.
  - unfold precise_shown, times_together, cancel. simpl.
    repeat split; try done; try discriminate; congruence.
  - destruct (timers (Precise.run st) !! h); exact H.
  - unfold precise_shown, times_together. simpl.
    destruct (clearTimer_times (Precise.run st)) as [-> ->].
    destruct (clearTimer_shown (Precise.run st)) as [-> _]. exact H.
Qed.

(** X2.  [src/App.vue]: after every sequence of events the remaining
    time is not negative, the start and the end of the run are set
    together, every run with a valid end lasts a whole positive number of
    minutes, and a run that is on has an end. *)
Theorem autostop_shown_always (evs : list AutoStop.event) :
  autostop_shown (AutoStop.exec evs).
Proof.
  apply (fold_left_invariant AutoStop.step autostop_shown).
  - apply autostop_step_shown.
  - unfold autostop_shown, remaining_clamped, times_together. simpl.
    split; [lia|]. split; [done|]. split; [by apply whole_minutes_none | discriminate].
Qed.

(** X3.  [Preview]: after every sequence of events pending minutes are
    at least 1, the start and the end of the run are set together, every
    run with a valid end lasts a whole positive number of minutes, and the
    run is on exactly when it has an end. *)
Theorem preview_shown_always (evs : list Preview.event) :
  preview_shown (Preview.exec evs).
Proof.
  apply (fold_left_invariant Preview.step preview_shown).
  - apply preview_step_shown.
  - unfold preview_shown, times_together. simpl.
    split; [done|]. split; [done|]. split; [by apply whole_minutes_none|].
    split; [discriminate | congruence].
Qed.

(** X4.  [Precise]: after every sequence of events pending minutes are
    at least 1, a pending precise end is a valid date, the start and the
    end of the run are set together, and the run is on exactly when it has
    an end. *)
Theorem precise_shown_always (rt : Precise.Runtime) (evs : list Precise.event) :
  precise_shown (Precise.exec rt evs).
Proof.
  apply (fold_left_invariant (Precise.step rt) precise_shown).
  - apply precise_step_shown.
  - unfold precise_shown, times_together. simpl.
    split; [done|]. split; [done|]. split; [done|].
    split; [discriminate | congruence].
Qed.

(** ** Cancelling and expiry *)

Lemma cancel_of_one_ticker (r : Run) :
  one_ticker r ->
  cancel r = mkRun false None None (Num 0) None ∅ (nextHandle r).
Proof.
  intros H. pose proof (clearTimer_timers r H) as Ht.
  pose proof (clearTimer_tickHandle r) as Hh.
  unfold cancel, set_remainingMs, set_times, set_running. simpl.
  rewrite Ht, Hh. f_equal. unfold clearTimer. by destruct (tickHandle r).
Qed.

(** X1.  In every reachable state of each version [cancel()] takes the
    run back to idle: not running, no start and end, zero remaining, no
    tick handle and no callback left in [window]. *)
Theorem cancel_resets :
  (forall evs,
     let st := AutoStop.exec evs in
     AutoStop.run (AutoStop.step st AutoStop.ClickCancel)
     = mkRun false None None (Num 0) None ∅ (nextHandle (AutoStop.run st))) /\
  (forall rt evs,
     let st := Precise.exec rt evs in
     Precise.run (Precise.step rt st Precise.ClickCancel)
     = mkRun false None None (Num 0) None ∅ (nextHandle (Precise.run st))) /\
  (forall evs,
     let st := Preview.exec evs in
     Preview.run (Preview.step st Preview.ClickCancel)
     = mkRun false None None (Num 0) None ∅ (nextHandle (Preview.run st))).
Proof.
  split; [|split].
  - intros evs st. simpl. apply cancel_of_one_ticker, autostop_exec_one_ticker.
  - intros rt evs st. simpl. apply cancel_of_one_ticker.
    by destruct (precise_exec_inv rt evs) as (H & _).
  - intros evs st. simpl. apply cancel_of_one_ticker.
    by destruct (preview_exec_inv evs) as (H & _).
Qed.

Lemma autostop_update_remaining e now (r : Run) :
  running_remaining (AutoStop.update e now r).
Proof.
  unfold running_remaining, AutoStop.update.
  destruct (getTime e) as [|t]; simpl; [done|].
  destruct (Z.leb_spec (t - now) 0); simpl; [discriminate|].
  intros _. lia.
Qed.

Lemma autostop_step_remaining (st : AutoStop.State) (ev : AutoStop.event) :
  running_remaining (AutoStop.run st) ->
  running_remaining (AutoStop.run (AutoStop.step st ev)).
Proof.
  intros H. destruct ev; simpl; try exact H.
  - apply autostop_update_remaining.
  - unfold AutoStop.startCustom.
    destruct (parsedCustomMinutes _) as [m|]; [|exact H].
    destruct (m =? 0); [exact H|]. apply autostop_update_remaining.
  - discriminate.
  - destruct (timers (AutoStop.run st) !! h); [|exact H].
    apply autostop_update_remaining.
  - unfold running_remaining.
    destruct (clearTimer_shown (AutoStop.run st)) as [-> ->]. exact H.
Qed.

Lemma autostop_exec_remaining (evs : list AutoStop.event) :
  running_remaining (AutoStop.run (AutoStop.exec evs)).
Proof.
  apply (fold_left_invariant AutoStop.step
           (fun st => running_remaining (AutoStop.run st))).
  - apply autostop_step_remaining.
  - discriminate.
Qed.

(** X5.  [src/App.vue]: the tick that finds the end reached turns the run
    off, so the status section with the countdown is no longer rendered:
    [running] is false, the interval is cleared, 0 remains, and the start
    and the end of the run stay as they were (only [cancel()] clears
    them); no later tick changes anything.  And the class [done] of the
    countdown is rendered in no reachable state: while a run is on, time
    remains. *)
Theorem autostop_expired (evs : list AutoStop.event) (h : nat) (now t : Z) (e : Date) :
  let st := AutoStop.exec evs in
  timers (AutoStop.run st) !! h = Some e ->
  getTime e = Num t -> t <= now ->
  let st' := AutoStop.step st (AutoStop.Tick h now) in
  running (AutoStop.run st') = false /\
  tickHandle (AutoStop.run st') = None /\
  timers (AutoStop.run st') = ∅ /\
  startTime (AutoStop.run st') = startTime (AutoStop.run st) /\
  endTime (AutoStop.run st') = Some e /\
  remainingMs (AutoStop.run st') = Num 0 /\
  (forall h' now', AutoStop.step st' (AutoStop.Tick h' now') = st') /\
  (forall evs',
     running_remaining (AutoStop.run (AutoStop.exec evs')) /\
     AutoStopView.done (AutoStop.run (AutoStop.exec evs')) = false).
Proof.
  intros st Hl He Hle st'.
  pose proof (autostop_exec_one_ticker evs) as H1. fold st in H1.
  destruct (one_ticker_lookup _ _ _ H1 Hl) as (Hh & Hend & Ht).
  assert (Hr : AutoStop.run st'
               = set_running false (clearTimer (set_remainingMs (Num 0) (AutoStop.run st)))).
  { unfold st'. simpl. rewrite Hl. simpl. unfold AutoStop.update. rewrite He.
    cbn [nsub nle max0]. destruct (Z.leb_spec (t - now) 0); [|lia].
    replace (Z.max 0 (t - now)) with 0 by lia. reflexivity. }
  assert (Hempty : timers (AutoStop.run st') = ∅).
  { rewrite Hr. simpl. by apply (clearTimer_timers (set_remainingMs _ _)). }
  split; [by rewrite Hr|].
  split; [rewrite Hr; simpl; apply clearTimer_tickHandle|].
  split; [exact Hempty|].
  split; [rewrite Hr; simpl; apply (clearTimer_times (set_remainingMs _ _))|].
  split.
  { rewrite Hr. simpl.
    rewrite (proj2 (clearTimer_times (set_remainingMs _ _))). exact Hend. }
  split; [rewrite Hr; simpl; apply (clearTimer_shown (set_remainingMs _ _))|].
  split.
  - intros h' now'. simpl. rewrite Hempty, lookup_empty. reflexivity.
  - intros evs'. pose proof (autostop_exec_remaining evs') as Hinv.
    split; [exact Hinv|].
    unfold running_remaining in Hinv. unfold AutoStopView.done.
    destruct (running (AutoStop.run (AutoStop.exec evs'))); [|reflexivity].
    specialize (Hinv eq_refl).
    destruct (remainingMs (AutoStop.run (AutoStop.exec evs'))) as [|z]; [reflexivity|].
    simpl. apply Z.eqb_neq. lia.
Qed.

(** ** The offset query *)

(** X11.  [getOffsetMs] formats to the second, so for a zone of
    whole-second offsets it returns the offset of the zone less the
    milliseconds of the instant: it is the offset exactly on whole
    seconds only. *)
Theorem getOffsetMs_truncates (offset : Z -> Z) (t : Z) :
  (forall u, offset u mod 1000 = 0) ->
  (forall u, - msPerDay <= offset u <= msPerDay) ->
  msPerDay <= t <= maxTimeValue - msPerDay ->
  EndOfDay.getOffsetMs offset (Num t) = Some (Num (offset t - t mod 1000)) /\
  (EndOfDay.getOffsetMs offset (Num t) = Some (Num (offset t)) <-> t mod 1000 = 0).
Proof.
  intros Hw Hb Ht. rewrite (getOffsetMs_actual offset Hw Hb t Ht).
  split; [reflexivity|]. split.
  - intros [= H]. lia.
  - intros ->. do 2 f_equal. lia.
Qed.

(** ** What the template shows *)

Lemma padded_two_digits (s : Z) :
  0 <= s <= 59 -> String.length (padded (Num s)) = 2%nat.
Proof.
  intros H.
  assert (Hn : exists n : nat, (n < 60)%nat /\ s = Z.of_nat n)
    by (exists (Z.to_nat s); lia).
  destruct Hn as (n & Hn & ->).
  do 60 (destruct n as [|n]; [reflexivity|]). lia.
Qed.

Lemma seconds_split (a : Z) :
  0 <= a ->
  a / 1000 / 60 = a / 60000 /\
  Z.rem (a / 1000) 60 = (a / 1000) mod 60 /\
  0 <= (a / 1000) mod 60 <= 59 /\
  0 <= a - (a / 60000 * 60000 + (a / 1000) mod 60 * 1000) < 1000.
Proof.
  intros Ha.
  assert (H0 : 0 <= a / 1000) by (apply Z.div_pos; lia).
  split; [rewrite Z.div_div by lia; reflexivity|].
  split; [apply Z.rem_mod_nonneg; lia|].
  Z.div_mod_to_equations. lia.
Qed.

(** X7.  [countdown] of the versions with a pending selection shows the
    magnitude of the remaining time cut to whole seconds, as minutes and
    two-digit seconds, with a minus sign for a negative value: an overdue
    time shows as the time still to go of the same magnitude with a minus
    in front, and the first second overdue shows as -00:00. *)
Theorem overdue_countdown (z : Z) :
  let a := Z.abs z in
  let m := a / 60000 in
  let s := (a / 1000) mod 60 in
  OverdueView.countdown (Num z)
  = ((if (z <? 0)%Z then "-" else EmptyString) ++ padded (Num m) ++ ":" ++ padded (Num s))%string /\
  String.length (padded (Num s)) = 2%nat /\
  0 <= a - (m * 60000 + s * 1000) < 1000 /\
  (0 < z ->
   OverdueView.countdown (Num (- z)) = ("-" ++ OverdueView.countdown (Num z))%string) /\
  (-1000 < z < 0 -> OverdueView.countdown (Num z) = "-00:00"%string).
Proof.
  intros a m s.
  assert (Hform : forall y,
            OverdueView.countdown (Num y)
            = ((if (y <? 0)%Z then "-" else EmptyString)
               ++ padded (Num (Z.abs y / 60000)) ++ ":"
               ++ padded (Num ((Z.abs y / 1000) mod 60)))%string).
  { intros y. unfold OverdueView.countdown. cbn [nlt nabs nfloordiv nrem].
    destruct (seconds_split (Z.abs y) (Z.abs_nonneg y)) as (-> & -> & _).
    reflexivity. }
  destruct (seconds_split a (Z.abs_nonneg z)) as (_ & _ & Hs & Hr).
  split; [apply Hform|]. split; [by apply padded_two_digits|]. split; [exact Hr|].
  split.
  - intros Hz. rewrite !Hform. rewrite Z.abs_opp.
    destruct (Z.ltb_spec (- z) 0); [|lia]. destruct (Z.ltb_spec z 0); [lia|].
    reflexivity.
  - intros Hz. rewrite Hform. destruct (Z.ltb_spec z 0); [|lia].
    assert (H0 : Z.abs z / 1000 = 0) by (apply Z.div_small; lia).
    assert (H1 : Z.abs z / 60000 = 0) by (apply Z.div_small; lia).
    rewrite H0, H1. reflexivity.
Qed.

(** X8.  [countdown] of [src/App.vue] is the other [countdown] of the
    remaining time clamped at zero: it never shows a sign, shows 00:00
    for everything below one second, and agrees with the other on
    values from zero up. *)
Theorem clamped_countdown (v : number) :
  AutoStopView.countdown v = OverdueView.countdown (max0 v) /\
  (forall z, v = Num z -> z < 1000 -> AutoStopView.countdown v = "00:00"%string) /\
  (forall z, v = Num z -> 0 <= z ->
     AutoStopView.countdown v = OverdueView.countdown v).
Proof.
  assert (H : AutoStopView.countdown v = OverdueView.countdown (max0 v)).
  { unfold AutoStopView.countdown, OverdueView.countdown.
    destruct v as [|z]; [reflexivity|]. cbn [max0 nlt nabs].
    destruct (Z.ltb_spec (Z.max 0 z) 0); [lia|].
    rewrite (Z.abs_eq (Z.max 0 z)) by lia. reflexivity. }
  split; [exact H|]. split.
  - intros z -> Hz. unfold AutoStopView.countdown. cbn [max0 nfloordiv nrem].
    assert (H0 : Z.max 0 z / 1000 = 0) by (apply Z.div_small; lia).
    rewrite H0. reflexivity.
  - intros z -> Hz. rewrite H. cbn [max0]. by rewrite Z.max_r.
Qed.

(** X9.  [formatDuration] shows whole hours and minutes below 60 that
    fall short of a duration from zero up by less than a minute; the
    hours are left out when they are 0, and every duration below one
    minute, negative ones included, shows as 0m. *)
Theorem formatDuration_parts (z : Z) :
  let total := Z.max 0 (z / 1000) in
  let h := total / 3600 in
  let m := (total / 60) mod 60 in
  OverdueView.formatDuration (Num z)
  = (if (0 <? h)%Z
     then Precise.String_of (Num h) ++ "h " ++ Precise.String_of (Num m) ++ "m"
     else Precise.String_of (Num m) ++ "m")%string /\
  0 <= m <= 59 /\
  (0 <= z -> 0 <= z - (h * 3600000 + m * 60000) < 60000) /\
  (z < 60000 -> OverdueView.formatDuration (Num z) = "0m"%string).
Proof.
  intros total h m.
  assert (Ht : 0 <= total) by (unfold total; lia).
  assert (Hm : Z.rem total 3600 / 60 = m).
  { rewrite Z.rem_mod_nonneg by lia. unfold m. Z.div_mod_to_equations. lia. }
  assert (Hform : OverdueView.formatDuration (Num z)
            = (if (0 <? h)%Z
               then Precise.String_of (Num h) ++ "h " ++ Precise.String_of (Num m) ++ "m"
               else Precise.String_of (Num m) ++ "m")%string).
  { unfold OverdueView.formatDuration. cbn [nfloordiv max0 nrem ngt].
    fold total. fold h. rewrite Hm. reflexivity. }
  split; [exact Hform|].
  split; [unfold m; Z.div_mod_to_equations; lia|].
  split.
  - intros Hz. assert (Hq : total = z / 1000).
    { unfold total. apply Z.max_r. apply Z.div_pos; lia. }
    unfold h, m. rewrite Hq. Z.div_mod_to_equations. lia.
  - intros Hz. rewrite Hform.
    assert (Hs : total < 60) by (unfold total; Z.div_mod_to_equations; lia).
    assert (Hh : h = 0) by (unfold h; apply Z.div_small; lia).
    assert (Hmm : m = 0).
    { unfold m. rewrite (Z.div_small total 60) by lia. reflexivity. }
    rewrite Hh, Hmm. reflexivity.
Qed.

(** X6.  [Precise]: after a tick of a run with a valid end, the banner
    "Break is over" shows exactly when the clock has reached the end, and
    the countdown shows end - now. *)
Theorem overdue_banner (rt : Precise.Runtime) (evs : list Precise.event)
    (h : nat) (now t : Z) (e : Date) :
  let st := Precise.exec rt evs in
  timers (Precise.run st) !! h = Some e -> getTime e = Num t ->
  let r' := Precise.run (Precise.step rt st (Precise.Tick h now)) in
  OverdueView.overdueBanner r' = (t <=? now) /\
  OverdueView.countdown (remainingMs r') = OverdueView.countdown (Num (t - now)).
Proof.
  intros st Hl He r'.
  destruct (precise_exec_inv rt evs) as (H1 & H2 & _). fold st in H1, H2.
  destruct (one_ticker_lookup _ _ _ H1 Hl) as (Hh & _ & _).
  unfold r'. simpl. rewrite Hl. simpl.
  unfold OverdueView.overdueBanner. simpl. rewrite He. cbn [nsub nle].
  rewrite H2 by (rewrite Hh; discriminate). simpl. split; [|reflexivity].
  destruct (Z.leb_spec (t - now) 0), (Z.leb_spec t now); try reflexivity; lia.
Qed.

(** ** The local clock in a zone of a fixed offset *)

Lemma local_fields (lt : Z) :
  let tod := lt mod msPerDay in
  lt / msPerDay * msPerDay + tod = lt /\
  0 <= tod < msPerDay /\
  (lt / msPerHour) mod 24 = tod / msPerHour /\
  (lt / msPerMinute) mod 60 = (tod / msPerMinute) mod 60 /\
  tod / msPerHour * msPerHour + lt mod msPerHour = tod /\
  0 <= lt mod msPerHour < msPerHour /\
  (lt / msPerMinute) mod 60 * msPerMinute + (lt / msPerSecond) mod 60 * msPerSecond
  + lt mod msPerSecond = lt mod msPerHour /\
  (30 <= (lt / msPerMinute) mod 60 <-> 30 * msPerMinute <= lt mod msPerHour) /\
  lt mod msPerHour - lt mod msPerMinute = (lt / msPerMinute) mod 60 * msPerMinute.
Proof.
  unfold msPerDay, msPerHour, msPerMinute, msPerSecond. cbv zeta.
  Z.div_mod_to_equations. lia.
Qed.

Section FixedZone.
Variable rt : Precise.Runtime.
Variable c : Z.
Hypothesis zone : fixedZone rt c.

Lemma getHours_fixed (t : Z) :
  LocalClock.getHours rt (mkDate (Num t)) = Num ((t + c) mod msPerDay / msPerHour).
Proof.
  unfold LocalClock.getHours, Precise.localField. cbn [getTime].
  rewrite (proj1 zone). unfold wallClock.
  by destruct (civil_from_days ((t + c) / msPerDay)) as [[y m] d].
Qed.

Lemma getMinutes_fixed (t : Z) :
  LocalClock.getMinutes rt (mkDate (Num t))
  = Num (((t + c) mod msPerDay / msPerMinute) mod 60).
Proof.
  unfold LocalClock.getMinutes, Precise.localField. cbn [getTime].
  rewrite (proj1 zone). unfold wallClock.
  by destruct (civil_from_days ((t + c) / msPerDay)) as [[y m] d].
Qed.

Lemma setHours_fixed (h t : Z) :
  LocalClock.setHours rt (Num h) (mkDate (Num t))
  = newDate (Num (t - (t + c) mod msPerDay + h * msPerHour + (t + c) mod msPerHour)).
Proof.
  unfold LocalClock.setHours, LocalClock.withTime, newDate. cbn [getTime].
  rewrite (proj1 zone), (proj2 zone). unfold MakeDate, MakeTime.
  do 3 f_equal. pose proof (local_fields (t + c)) as H. cbv zeta in H. lia.
Qed.

Lemma setHours4_fixed (h t : Z) :
  LocalClock.setHours4 rt (Num h) (Num 0) (Num 0) (Num 0) (mkDate (Num t))
  = newDate (Num (t - (t + c) mod msPerDay + h * msPerHour)).
Proof.
  unfold LocalClock.setHours4, LocalClock.withTime, newDate. cbn [getTime].
  rewrite (proj1 zone), (proj2 zone). unfold MakeDate, MakeTime.
  do 3 f_equal. pose proof (local_fields (t + c)) as H. cbv zeta in H. lia.
Qed.

Lemma setMinutes_fixed (m t : Z) :
  LocalClock.setMinutes rt (Num m) (Num 0) (Num 0) (mkDate (Num t))
  = newDate (Num (t - (t + c) mod msPerHour + m * msPerMinute)).
Proof.
  unfold LocalClock.setMinutes, LocalClock.withTime, newDate. cbn [getTime].
  rewrite (proj1 zone), (proj2 zone). unfold MakeDate, MakeTime.
  do 3 f_equal. pose proof (local_fields (t + c)) as H. cbv zeta in H. lia.
Qed.

Lemma getDate_setDate_fixed (t : Z) :
  exists dd,
    LocalClock.getDate rt (mkDate (Num t)) = Num dd /\
    forall k, LocalClock.setDate rt (Num (dd + k)) (mkDate (Num t))
              = newDate (Num (t + k * msPerDay)).
Proof.
  unfold LocalClock.getDate, LocalClock.setDate, Precise.localField, newDate.
  cbn [getTime]. rewrite (proj1 zone). unfold wallClock.
  pose proof (MakeDay_civil ((t + c) / msPerDay)) as Hd.
  destruct (civil_from_days ((t + c) / msPerDay)) as [[y m] d].
  exists d. split; [reflexivity|]. intros k.
  rewrite (proj2 zone). unfold MakeDate. do 3 f_equal.
  assert (Hk : MakeDay y (m - 1) (d + k) = (t + c) / msPerDay + k).
  { rewrite <- Hd. unfold MakeDay. lia. }
  rewrite Hk. pose proof (local_fields (t + c)) as H. cbv zeta in H. lia.
Qed.

Lemma setSeconds00_fixed (t : Z) :
  Precise.setSeconds00 rt (mkDate (Num t))
  = newDate (Num (t - (t + c) mod msPerMinute)).
Proof.
  unfold Precise.setSeconds00, newDate. cbn [getTime].
  rewrite (proj1 zone), (proj2 zone). unfold MakeDate, MakeTime.
  do 3 f_equal. pose proof (local_fields (t + c)) as H. cbv zeta in H. lia.
Qed.

End FixedZone.

Section FixedZoneShortcuts.
Variable rt : Precise.Runtime.
Variable c : Z.
Hypothesis zone : fixedZone rt c.

(** [setPrecise] of a date on a whole minute of the local clock. *)
Lemma setPrecise_whole_minute (t now' : Z) (st : Precise.State) :
  Z.abs t <= maxTimeValue -> (t + c) mod msPerMinute = 0 ->
  Precise.setPrecise rt (mkDate (Num t)) now' st
  = let st1 := Precise.mkState (Precise.pendingMinutes st) (Precise.pendingExactEnd st)
                 (Precise.customMinutes st)
                 (Precise.toDatetimeLocalValue rt (mkDate (Num t))) (Precise.run st) in
    if now' <? t then Precise.set_pending None (Some (mkDate (Num t))) st1 else st1.
Proof.
  intros Ht Hm. unfold Precise.setPrecise.
  rewrite (setSeconds00_fixed rt c zone), Hm, Z.sub_0_r, (newDate_in_range t Ht).
  reflexivity.
Qed.

Lemma mod_hour_reset (y r : Z) :
  0 <= r < msPerHour -> (y - y mod msPerHour + r) mod msPerHour = r.
Proof.
  intros Hr. pose proof (Z.div_mod y msPerHour ltac:(discriminate)) as H.
  replace (y - y mod msPerHour + r) with (r + y / msPerHour * msPerHour) by lia.
  rewrite Z.mod_add by discriminate. by apply Z.mod_small.
Qed.

Lemma whole_minute_of_hour (x k : Z) :
  x mod msPerHour = k * msPerMinute -> x mod msPerMinute = 0.
Proof.
  unfold msPerHour, msPerMinute. intros H. Z.div_mod_to_equations. lia.
Qed.

Lemma nextHour_fixed (now : Z) :
  Z.abs now + 2 * msPerDay <= maxTimeValue ->
  exists t,
    LocalClock.nextHour rt now = mkDate (Num t) /\
    now < t <= now + msPerHour /\ (t + c) mod msPerHour = 0.
Proof.
  intros Hr. unfold LocalClock.nextHour, dateNow.
  rewrite (getHours_fixed rt c zone). cbn [nadd].
  rewrite (setHours4_fixed rt c zone).
  pose proof (local_fields (now + c)) as H. cbv zeta in H.
  set (t := now - (now + c) mod msPerDay
            + ((now + c) mod msPerDay / msPerHour + 1) * msPerHour).
  assert (Ht : t = now - (now + c) mod msPerHour + msPerHour) by (unfold t; lia).
  exists t. split.
  - apply newDate_in_range. unfold msPerDay, msPerHour, maxTimeValue in *. lia.
  - split; [lia|]. rewrite Ht.
    replace (now - (now + c) mod msPerHour + msPerHour + c)
      with ((now + c) - (now + c) mod msPerHour + 1 * msPerHour) by lia.
    replace ((now + c) - (now + c) mod msPerHour + 1 * msPerHour)
      with ((now + c) - (now + c) mod msPerHour + 0 + 1 * msPerHour) by lia.
    rewrite Z.mod_add by discriminate. apply mod_hour_reset. by vm_compute.
Qed.

Lemma halfPast_fixed (now : Z) :
  Z.abs now + 2 * msPerDay <= maxTimeValue ->
  exists t,
    LocalClock.halfPast rt now = mkDate (Num t) /\
    now < t <= now + msPerHour /\ (t + c) mod msPerHour = 30 * msPerMinute.
Proof.
  intros Hr. unfold LocalClock.halfPast, dateNow.
  rewrite (getMinutes_fixed rt c zone), (getHours_fixed rt c zone). cbn [nge nadd].
  pose proof (local_fields (now + c)) as H. cbv zeta in H.
  destruct H as (H1 & H2 & H3 & H4 & H5 & H6 & H7 & H8 & H9).
  set (x := (now + c) mod msPerHour) in *.
  assert (Hmod : forall y, y mod msPerHour = x ->
            (y - x + 30 * msPerMinute) mod msPerHour = 30 * msPerMinute).
  { intros y Hy. rewrite <- Hy. apply mod_hour_reset. by vm_compute. }
  destruct (Z.leb_spec 30 (((now + c) mod msPerDay / msPerMinute) mod 60)) as [Hge | Hlt].
  - rewrite (setHours_fixed rt c zone). fold x.
    assert (Hs : now - (now + c) mod msPerDay
                 + ((now + c) mod msPerDay / msPerHour + 1) * msPerHour + x
                 = now + msPerHour) by lia.
    rewrite Hs, newDate_in_range
      by (unfold msPerDay, msPerHour, maxTimeValue in *; lia).
    rewrite (setMinutes_fixed rt c zone).
    assert (Hx : (now + msPerHour + c) mod msPerHour = x).
    { replace (now + msPerHour + c) with (now + c + 1 * msPerHour) by lia.
      apply Z.mod_add. discriminate. }
    rewrite Hx.
    exists (now + msPerHour - x + 30 * msPerMinute). split.
    + apply newDate_in_range. unfold msPerDay, msPerHour, msPerMinute, maxTimeValue in *. lia.
    + split; [unfold msPerHour, msPerMinute in *; lia|].
      replace (now + msPerHour - x + 30 * msPerMinute + c)
        with ((now + msPerHour + c) - x + 30 * msPerMinute) by lia.
      by apply Hmod.
  - rewrite (setMinutes_fixed rt c zone). fold x.
    exists (now - x + 30 * msPerMinute). split.
    + apply newDate_in_range. unfold msPerDay, msPerHour, msPerMinute, maxTimeValue in *. lia.
    + split; [unfold msPerHour, msPerMinute in *; lia|].
      replace (now - x + 30 * msPerMinute + c) with ((now + c) - x + 30 * msPerMinute) by lia.
      by apply Hmod.
Qed.

Lemma endOfHour_fixed (now : Z) :
  Z.abs now + 2 * msPerDay <= maxTimeValue ->
  exists t,
    LocalClock.endOfHour rt now = mkDate (Num t) /\
    now < t <= now + msPerHour /\ (t + c) mod msPerHour = 59 * msPerMinute.
Proof.
  intros Hr. unfold LocalClock.endOfHour, dateNow.
  rewrite (setMinutes_fixed rt c zone).
  pose proof (Z.mod_pos_bound (now + c) msPerHour eq_refl) as Hx.
  set (x := (now + c) mod msPerHour) in *.
  set (d1 := now - x + 59 * msPerMinute).
  assert (Hd1 : (d1 + c) mod msPerHour = 59 * msPerMinute).
  { replace (d1 + c) with ((now + c) - (now + c) mod msPerHour + 59 * msPerMinute)
      by (unfold d1, x; lia).
    apply mod_hour_reset. by vm_compute. }
  rewrite (newDate_in_range d1)
    by (unfold d1, msPerDay, msPerHour, msPerMinute, maxTimeValue in *; lia).
  cbn [getTime nle].
  destruct (Z.leb_spec d1 now) as [Hle | Hgt].
  - rewrite (getHours_fixed rt c zone). cbn [nadd].
    rewrite (setHours_fixed rt c zone).
    pose proof (local_fields (d1 + c)) as H. cbv zeta in H.
    assert (Hs : d1 - (d1 + c) mod msPerDay
                 + ((d1 + c) mod msPerDay / msPerHour + 1) * msPerHour
                 + (d1 + c) mod msPerHour = d1 + msPerHour) by lia.
    rewrite Hs. clear H Hs.
    rewrite (newDate_in_range (d1 + msPerHour))
      by (unfold d1, msPerDay, msPerHour, msPerMinute, maxTimeValue in *; lia).
    rewrite (setMinutes_fixed rt c zone).
    assert (Hd2 : (d1 + msPerHour + c) mod msPerHour = 59 * msPerMinute).
    { replace (d1 + msPerHour + c) with (d1 + c + 1 * msPerHour) by lia.
      rewrite Z.mod_add by discriminate. exact Hd1. }
    rewrite Hd2.
    exists (d1 + msPerHour). split.
    + replace (d1 + msPerHour - 59 * msPerMinute + 59 * msPerMinute)
        with (d1 + msPerHour) by lia.
      apply newDate_in_range.
      unfold d1, msPerDay, msPerHour, msPerMinute, maxTimeValue in *. lia.
    + split; [|exact Hd2]. unfold d1, msPerHour, msPerMinute in *. lia.
  - exists d1. split; [reflexivity|]. split; [|exact Hd1].
    unfold d1, msPerHour, msPerMinute in *. lia.
Qed.

Lemma mod_day_reset (y r : Z) :
  0 <= r < msPerDay -> (y - y mod msPerDay + r) mod msPerDay = r.
Proof.
  intros Hr. pose proof (Z.div_mod y msPerDay ltac:(discriminate)) as H.
  replace (y - y mod msPerDay + r) with (r + y / msPerDay * msPerDay) by lia.
  rewrite Z.mod_add by discriminate. by apply Z.mod_small.
Qed.

Lemma noon_fixed (now : Z) :
  Z.abs now + 2 * msPerDay <= maxTimeValue ->
  exists t,
    LocalClock.noon rt now = mkDate (Num t) /\
    now < t <= now + msPerDay /\ (t + c) mod msPerDay = 12 * msPerHour.
Proof.
  intros Hr. unfold LocalClock.noon, dateNow.
  rewrite (setHours4_fixed rt c zone).
  pose proof (Z.mod_pos_bound (now + c) msPerDay eq_refl) as Hx.
  set (x := (now + c) mod msPerDay) in *.
  set (d1 := now - x + 12 * msPerHour).
  assert (Hd1 : (d1 + c) mod msPerDay = 12 * msPerHour).
  { replace (d1 + c) with ((now + c) - (now + c) mod msPerDay + 12 * msPerHour)
      by (unfold d1, x; lia).
    apply mod_day_reset. by vm_compute. }
  rewrite (newDate_in_range d1)
    by (unfold d1, msPerDay, msPerHour, maxTimeValue in *; lia).
  cbn [getTime nle].
  destruct (Z.leb_spec d1 now) as [Hle | Hgt].
  - destruct (getDate_setDate_fixed rt c zone d1) as (dd & Hg & Hs).
    rewrite Hg. cbn [nadd]. rewrite (Hs 1).
    exists (d1 + msPerDay). split.
    + replace (d1 + 1 * msPerDay) with (d1 + msPerDay) by lia.
      apply newDate_in_range. unfold d1, msPerDay, msPerHour, maxTimeValue in *. lia.
    + split; [unfold d1, msPerDay, msPerHour in *; lia|].
      replace (d1 + msPerDay + c) with (d1 + c + 1 * msPerDay) by lia.
      rewrite Z.mod_add by discriminate. exact Hd1.
  - exists d1. split; [reflexivity|]. split; [|exact Hd1].
    unfold d1, msPerDay, msPerHour in *. lia.
Qed.

Lemma setPrecise_proposes (t now' : Z) (st : Precise.State) :
  Z.abs t <= maxTimeValue -> (t + c) mod msPerMinute = 0 ->
  proposes rt t now' st (Precise.setPrecise rt (mkDate (Num t)) now' st).
Proof.
  intros Ht Hm. rewrite (setPrecise_whole_minute t now' st Ht Hm). cbv zeta.
  unfold proposes. destruct (Z.ltb_spec now' t); simpl; repeat split; auto; lia.
Qed.

End FixedZoneShortcuts.

(** ** The shortcuts *)

(** X12.  [shortcutHalfPast()], local zone of a fixed offset: it hands
    [setPrecise] the next half past the hour of the local clock, strictly
    after now and at most an hour later; the text of the input shows it and
    it becomes the pending end when still ahead of the second clock
    reading. *)
Theorem shortcutHalfPast_proposes (rt : Precise.Runtime) (c now now' : Z)
    (st : Precise.State) :
  fixedZone rt c -> Z.abs now + 2 * msPerDay <= maxTimeValue ->
  exists t,
    LocalClock.halfPast rt now = mkDate (Num t) /\
    now < t <= now + msPerHour /\
    (t + c) mod msPerHour = 30 * msPerMinute /\
    proposes rt t now' st (LocalClock.shortcutHalfPast rt now now' st).
Proof.
  intros Hz Hr. destruct (halfPast_fixed rt c Hz now Hr) as (t & Hd & Ht & Hm).
  exists t. split; [exact Hd|]. split; [exact Ht|]. split; [exact Hm|].
  unfold LocalClock.shortcutHalfPast. rewrite Hd.
  apply (setPrecise_proposes rt c Hz).
  - unfold msPerDay, msPerHour, maxTimeValue in *. lia.
  - by apply (whole_minute_of_hour _ 30).
Qed.

(** X13.  [shortcutEndOfHour()], local zone of a fixed offset: it hands
    [setPrecise] the next minute 59 of the local clock, strictly after now
    and at most an hour later. *)
Theorem shortcutEndOfHour_proposes (rt : Precise.Runtime) (c now now' : Z)
    (st : Precise.State) :
  fixedZone rt c -> Z.abs now + 2 * msPerDay <= maxTimeValue ->
  exists t,
    LocalClock.endOfHour rt now = mkDate (Num t) /\
    now < t <= now + msPerHour /\
    (t + c) mod msPerHour = 59 * msPerMinute /\
    proposes rt t now' st (LocalClock.shortcutEndOfHour rt now now' st).
Proof.
  intros Hz Hr. destruct (endOfHour_fixed rt c Hz now Hr) as (t & Hd & Ht & Hm).
  exists t. split; [exact Hd|]. split; [exact Ht|]. split; [exact Hm|].
  unfold LocalClock.shortcutEndOfHour. rewrite Hd.
  apply (setPrecise_proposes rt c Hz).
  - unfold msPerDay, msPerHour, maxTimeValue in *. lia.
  - by apply (whole_minute_of_hour _ 59).
Qed.

(** X14.  [shortcutNextHour()], local zone of a fixed offset: it hands
    [setPrecise] the next whole hour of the local clock, strictly after
    now and at most an hour later (at 23:xx the midnight of the next
    day). *)
Theorem shortcutNextHour_proposes (rt : Precise.Runtime) (c now now' : Z)
    (st : Precise.State) :
  fixedZone rt c -> Z.abs now + 2 * msPerDay <= maxTimeValue ->
  exists t,
    LocalClock.nextHour rt now = mkDate (Num t) /\
    now < t <= now + msPerHour /\
    (t + c) mod msPerHour = 0 /\
    proposes rt t now' st (LocalClock.shortcutNextHour rt now now' st).
Proof.
  intros Hz Hr. destruct (nextHour_fixed rt c Hz now Hr) as (t & Hd & Ht & Hm).
  exists t. split; [exact Hd|]. split; [exact Ht|]. split; [exact Hm|].
  unfold LocalClock.shortcutNextHour. rewrite Hd.
  apply (setPrecise_proposes rt c Hz).
  - unfold msPerDay, msPerHour, maxTimeValue in *. lia.
  - by apply (whole_minute_of_hour _ 0).
Qed.

Lemma whole_minute_of_day (x k : Z) :
  x mod msPerDay = k * msPerHour -> x mod msPerMinute = 0.
Proof.
  unfold msPerDay, msPerHour, msPerMinute. intros H. Z.div_mod_to_equations. lia.
Qed.

(** X15.  [shortcutNoon()], local zone of a fixed offset: it hands
    [setPrecise] the next noon of the local clock, strictly after now and
    at most a day later. *)
Theorem shortcutNoon_proposes (rt : Precise.Runtime) (c now now' : Z)
    (st : Precise.State) :
  fixedZone rt c -> Z.abs now + 2 * msPerDay <= maxTimeValue ->
  exists t,
    LocalClock.noon rt now = mkDate (Num t) /\
    now < t <= now + msPerDay /\
    (t + c) mod msPerDay = 12 * msPerHour /\
    proposes rt t now' st (LocalClock.shortcutNoon rt now now' st).
Proof.
  intros Hz Hr. destruct (noon_fixed rt c Hz now Hr) as (t & Hd & Ht & Hm).
  exists t. split; [exact Hd|]. split; [exact Ht|]. split; [exact Hm|].
  unfold LocalClock.shortcutNoon. rewrite Hd.
  apply (setPrecise_proposes rt c Hz).
  - unfold msPerDay, msPerHour, maxTimeValue in *. lia.
  - by apply (whole_minute_of_day _ 12).
Qed.

(** X16.  [shortcutEndOfDay()], local zone of a fixed whole-minute offset
    and an Eastern zone that is 5 or 4 hours behind UTC and changes only
    between 06:00 and 07:00 UTC: the date it hands to [setPrecise] is the
    next 17:00 of the Eastern wall clock, at most two days ahead;
    [setSeconds(0, 0)] leaves it as it is, the text of the input shows it
    and it becomes the pending end when still ahead of the second clock
    reading. *)
Theorem shortcutEndOfDay_proposes (rt : Precise.Runtime) (c now now' : Z)
    (st : Precise.State) :
  fixedZone rt c -> c mod msPerMinute = 0 ->
  (forall t, Precise.easternOffset rt t = -5 * msPerHour \/
             Precise.easternOffset rt t = -4 * msPerHour) ->
  (forall k t,
     k * msPerDay + 7 * msPerHour <= t < (k + 1) * msPerDay + 6 * msPerHour ->
     Precise.easternOffset rt t = Precise.easternOffset rt (k * msPerDay + 7 * msPerHour)) ->
  3 * msPerDay <= now <= maxTimeValue - 5 * msPerDay ->
  exists r,
    EndOfDay.targetMs (Precise.easternOffset rt) now = Some (Num r) /\
    now < r <= now + 2 * msPerDay /\
    (r + Precise.easternOffset rt r) mod msPerDay = 17 * msPerHour /\
    proposes rt r now' st (Precise.shortcutEndOfDay rt now now' st).
Proof.
  intros Hz Hc Hcases Hstable Hnow.
  destruct (targetMs_next (Precise.easternOffset rt) Hcases Hstable now Hnow)
    as (r & Htarget & Hlt & Hw).
  cbv zeta in Hw.
  pose proof (Z.div_mod (now + Precise.easternOffset rt now) msPerDay
                ltac:(discriminate)) as Hdm.
  pose proof (Z.mod_pos_bound (now + Precise.easternOffset rt now) msPerDay eq_refl)
    as Hmod.
  set (k := (now + Precise.easternOffset rt now) / msPerDay) in *.
  assert (Hj : exists j, k <= j <= k + 1 /\
                 r + Precise.easternOffset rt r = j * msPerDay + 17 * msPerHour).
  { destruct Hw as [Hw | [Hw _]]; [exists k | exists (k + 1)]; split; (lia || exact Hw). }
  destruct Hj as (j & Hjk & Hj).
  assert (Hday : (r + Precise.easternOffset rt r) mod msPerDay = 17 * msPerHour).
  { rewrite Hj. symmetry. apply Z.mod_unique with j;
      [left; split; [discriminate | reflexivity] | lia]. }
  assert (Hup : r <= now + 2 * msPerDay).
  { destruct (Hcases r) as [Ho | Ho], (Hcases now) as [Hn | Hn];
      rewrite Ho in Hj; rewrite Hn in Hdm, Hmod;
      unfold msPerDay, msPerHour in *; lia. }
  assert (Hmin : (r + c) mod msPerMinute = 0).
  { assert (Hr0 : r mod msPerMinute = 0).
    { destruct (Hcases r) as [Ho | Ho]; rewrite Ho in Hj.
      - replace r with ((j * 1440 + 22 * 60) * msPerMinute)
          by (unfold msPerDay, msPerHour, msPerMinute in *; lia).
        apply Z.mod_mul. discriminate.
      - replace r with ((j * 1440 + 21 * 60) * msPerMinute)
          by (unfold msPerDay, msPerHour, msPerMinute in *; lia).
        apply Z.mod_mul. discriminate. }
    rewrite Z.add_mod, Hr0, Hc by discriminate. reflexivity. }
  exists r. split; [exact Htarget|]. split; [lia|]. split; [exact Hday|].
  unfold Precise.shortcutEndOfDay. rewrite Htarget.
  assert (Hrange : Z.abs r <= maxTimeValue)
    by (unfold msPerDay, maxTimeValue in *; lia).
  rewrite (newDate_in_range r Hrange).
  by apply (setPrecise_proposes rt c Hz).
Qed.

Lemma fixedZone_example : fixedZone exampleRuntime (-18000000).
Proof. split; intros t; simpl; lia. Qed.

(** ** The text of the date-time input *)




(** ** The computed refs of the precise end *)

Lemma computed_setPrecise_state rt d now v :
  Computed.state (Computed.setPrecise rt d now v)
  = Precise.setPrecise rt d now (Computed.state v).
Proof.
  unfold Computed.setPrecise, Precise.setPrecise, Computed.writeText.
  destruct (String.eqb_spec (Precise.toDatetimeLocalValue rt (Precise.setSeconds00 rt d))
              (Precise.preciseEndLocal (Computed.state v))) as [E|E];
    destruct (ngt _ _); simpl; try reflexivity.
  - rewrite E. unfold Precise.set_pending. simpl. reflexivity.
  - rewrite E. by destruct (Computed.state v).
Qed.

Lemma coherent_initial rt : coherent rt Computed.initial.
Proof. repeat split; simpl; intros; discriminate. Qed.

Lemma coherent_readFuture rt now v :
  coherent rt v -> coherent rt (snd (Computed.readFuture rt now v)).
Proof.
  intros H. pose proof H as (H1 & H2 & H3 & H4). unfold Computed.readFuture.
  destruct (Computed.futureCache v) eqn:E; simpl; [exact H|].
  repeat split; simpl; try assumption; try (by apply H4).
  intros b [= <-]. by exists now.
Qed.

Lemma coherent_readPreciseDuration rt now v :
  coherent rt v -> coherent rt (snd (Computed.readPreciseDuration rt now v)).
Proof.
  intros H. pose proof H as (H1 & H2 & H3 & H4). unfold Computed.readPreciseDuration.
  destruct (Computed.preciseDurationCache v) eqn:E; simpl; [exact H|].
  repeat split; simpl; try assumption; try (by apply H4).
  intros z [= <-]. by exists now.
Qed.

Lemma coherent_readPendingDuration rt now v :
  coherent rt v -> coherent rt (snd (Computed.readPendingDuration now v)).
Proof.
  intros H. pose proof H as (H1 & H2 & H3 & H4). unfold Computed.readPendingDuration.
  destruct (Computed.pendingDurationCache v) eqn:E; simpl; [exact H|].
  repeat split; simpl; try assumption; try (by apply H4).
  intros z [= <-]. by exists now.
Qed.

Lemma coherent_writeText rt text v :
  coherent rt v -> coherent rt (Computed.writeText text v).
Proof.
  intros H. pose proof H as (H1 & H2 & H3 & H4). unfold Computed.writeText.
  destruct (String.eqb text _); [exact H|].
  split; [simpl; discriminate|]. split; [simpl; discriminate|].
  split; [exact H3 | simpl; discriminate].
Qed.

Lemma coherent_lift rt st' v :
  keeps_text (Computed.state v) st' -> coherent rt v -> coherent rt (Computed.lift st' v).
Proof.
  intros (Ht & Hp) (H1 & H2 & H3 & H4). unfold Computed.lift.
  assert (Hd : forall now0, OverdueView.preciseDurationMs rt st' now0
                            = OverdueView.preciseDurationMs rt (Computed.state v) now0).
  { intros now0. unfold OverdueView.preciseDurationMs. by rewrite Ht. }
  assert (Hf : forall b, Computed.futureCache v = Some b ->
            exists now0, b = Precise.preciseEndIsFuture rt (Precise.preciseEndLocal st') now0).
  { intros b Hb. rewrite Ht. by apply H1. }
  assert (Hz : forall z, Computed.preciseDurationCache v = Some z ->
            exists now0, z = OverdueView.preciseDurationMs rt st' now0).
  { intros z Hz. destruct (H2 z Hz) as (n & ->). exists n. by rewrite Hd. }
  destruct (Precise.pendingExactEnd (Computed.state v)) as [e|] eqn:Eo;
    destruct (Precise.pendingExactEnd st') as [e'|] eqn:En.
  - destruct Hp as [Hp | Hp]; [discriminate|]. injection Hp as ->.
    split; [exact Hf|]. split; [exact Hz|]. split; simpl.
    + intros z Hc. destruct (H3 z Hc) as (n & ->). exists n.
      unfold OverdueView.pendingDurationMs. by rewrite Eo, En.
    + intros Hflag. rewrite En, Ht. destruct (H4 Hflag) as [_ <-]. by split.
  - split; [exact Hf|]. split; [exact Hz|]. split; simpl; discriminate.
  - destruct Hp as [Hp | Hp]; discriminate.
  - split; [exact Hf|]. split; [exact Hz|]. split; simpl.
    + intros z Hc. destruct (H3 z Hc) as (n & ->). exists n.
      unfold OverdueView.pendingDurationMs. by rewrite Eo, En.
    + intros Hflag. by destruct (H4 Hflag) as [Hne _].
Qed.

Lemma coherent_previewPreciseEnd rt now v :
  coherent rt v -> coherent rt (Computed.previewPreciseEnd rt now v).
Proof.
  intros H. unfold Computed.previewPreciseEnd.
  pose proof (coherent_readFuture rt now v H) as H'.
  destruct (Computed.readFuture rt now v) as [b v1]. simpl in H'.
  destruct b; simpl; [|exact H'].
  destruct (Precise.parsedPreciseEnd rt _) as [d|] eqn:E; [|exact H'].
  destruct H' as (H1 & H2 & H3 & H4).
  split; [exact H1|]. split; [exact H2|]. split; simpl.
  - intros z Hz. destruct (Computed.pendingIsParsed v1) eqn:Ef; [|discriminate].
    destruct (H3 z Hz) as (n & ->). exists n.
    unfold OverdueView.pendingDurationMs. simpl.
    destruct (H4 eq_refl) as [_ ->]. by rewrite E.
  - intros _. by rewrite E.
Qed.

Lemma coherent_setPrecise rt d now v :
  coherent rt v -> coherent rt (Computed.setPrecise rt d now v).
Proof.
  intros H. unfold Computed.setPrecise.
  pose proof (coherent_writeText rt
                (Precise.toDatetimeLocalValue rt (Precise.setSeconds00 rt d)) v H) as H'.
  destruct (ngt _ _); [|exact H'].
  destruct H' as (H1 & H2 & H3 & H4).
  split; [exact H1|]. split; [exact H2|]. split; simpl; discriminate.
Qed.

Lemma step_keeps_text rt (st : Precise.State) (ev : Precise.event) :
  match ev with
  | Precise.InputPrecise _ | Precise.ClickPreview _
  | Precise.Shortcut _ _ | Precise.ShortcutEndOfDay _ _ => True
  | _ => keeps_text st (Precise.step rt st ev)
  end.
Proof.
  destruct ev; try exact I; unfold keeps_text; simpl.
  - auto.
  - auto.
  - unfold Precise.startCustom. destruct (falsy _); simpl; auto.
  - unfold Precise.confirmStart.
    destruct (Precise.pendingExactEnd st) eqn:E; [simpl; auto|].
    destruct (Precise.pendingMinutes st); simpl; auto.
  - auto.
  - auto.
  - destruct (timers (Precise.run st) !! h); simpl; auto.
  - auto.
Qed.

Lemma coherent_step rt v ev : coherent rt v -> coherent rt (Computed.step rt v ev).
Proof.
  intros H. destruct ev as [ev| | |]; simpl.
  - pose proof (step_keeps_text rt (Computed.state v) ev) as Hk.
    destruct ev; try (by apply coherent_lift).
    + by apply coherent_writeText.
    + by apply coherent_previewPreciseEnd.
    + by apply coherent_setPrecise.
    + unfold Computed.shortcutEndOfDay. destruct (EndOfDay.targetMs _ _); [|exact H].
      by apply coherent_setPrecise.
  - by apply coherent_readFuture.
  - by apply coherent_readPreciseDuration.
  - by apply coherent_readPendingDuration.
Qed.

Lemma coherent_exec rt evs : coherent rt (Computed.exec rt evs).
Proof.
  apply (fold_left_invariant (Computed.step rt) (coherent rt)).
  - intros. by apply coherent_step.
  - apply coherent_initial.
Qed.

Lemma lift_state (st' : Precise.State) (v : Computed.View) :
  Computed.state (Computed.lift st' v) = st'.
Proof.
  unfold Computed.lift.
  destruct (Precise.pendingExactEnd (Computed.state v));
    [destruct (Precise.pendingExactEnd st')|]; reflexivity.
Qed.

Lemma computed_step_state rt v ev :
  coherent rt v ->
  Computed.state (Computed.step rt v ev) = Computed.state v \/
  exists ev', Computed.state (Computed.step rt v ev) = Precise.step rt (Computed.state v) ev'.
Proof.
  intros (H1 & _). destruct ev as [ev| | |].
  - right. destruct ev.
    + exists (Precise.ChoosePreset m). apply lift_state.
    + exists (Precise.InputCustom text). apply lift_state.
    + exists Precise.ClickStart. apply lift_state.
    + exists (Precise.InputPrecise text). cbn [Computed.step Precise.step].
      unfold Computed.writeText.
      destruct (String.eqb_spec text (Precise.preciseEndLocal (Computed.state v)))
        as [-> |]; [by destruct (Computed.state v) | reflexivity].
    + cbn [Computed.step]. unfold Computed.previewPreciseEnd, Computed.readFuture.
      destruct (Computed.futureCache v) as [b|] eqn:E.
      * destruct (H1 b eq_refl) as (now0 & ->). exists (Precise.ClickPreview now0).
        cbn [Precise.step]. unfold Precise.previewPreciseEnd.
        destruct (Precise.preciseEndIsFuture rt _ now0); cbn [negb]; [|reflexivity].
        by destruct (Precise.parsedPreciseEnd rt _).
      * exists (Precise.ClickPreview now). cbn [Precise.step].
        unfold Precise.previewPreciseEnd. cbn [Computed.state].
        destruct (Precise.preciseEndIsFuture rt _ now); cbn [negb]; [|reflexivity].
        by destruct (Precise.parsedPreciseEnd rt _).
    + exists (Precise.Shortcut d now). apply computed_setPrecise_state.
    + exists (Precise.ShortcutEndOfDay now now'). cbn [Computed.step Precise.step].
      unfold Computed.shortcutEndOfDay, Precise.shortcutEndOfDay.
      destruct (EndOfDay.targetMs _ _); [apply computed_setPrecise_state | reflexivity].
    + exists (Precise.ConfirmStart now now'). apply lift_state.
    + exists Precise.CancelPending. apply lift_state.
    + exists Precise.ClickCancel. apply lift_state.
    + exists (Precise.Tick h now). apply lift_state.
    + exists Precise.Unmount. apply lift_state.
  - left. cbn [Computed.step]. unfold Computed.readFuture.
    by destruct (Computed.futureCache v).
  - left. cbn [Computed.step]. unfold Computed.readPreciseDuration.
    by destruct (Computed.preciseDurationCache v).
  - left. cbn [Computed.step]. unfold Computed.readPendingDuration.
    by destruct (Computed.pendingDurationCache v).
Qed.

Lemma computed_exec_state rt evs :
  exists evs', Computed.state (Computed.exec rt evs) = Precise.exec rt evs'.
Proof.
  induction evs as [|ev evs IH] using rev_ind.
  - by exists [].
  - destruct IH as (evs' & IH).
    unfold Computed.exec. rewrite fold_left_app. simpl.
    fold (Computed.exec rt evs).
    destruct (computed_step_state rt (Computed.exec rt evs) ev (coherent_exec rt evs))
      as [-> | (ev' & ->)].
    + by exists evs'.
    + exists (evs' ++ [ev']). unfold Precise.exec. rewrite fold_left_app. simpl.
      fold (Precise.exec rt evs'). by rewrite IH.
Qed.

Lemma parsedPreciseEnd_text rt (text : string) (t : Z) :
  text <> EmptyString -> Precise.DateParse rt text = Num t -> Z.abs t <= maxTimeValue ->
  Precise.parsedPreciseEnd rt text = Some (mkDate (Num t)).
Proof.
  intros Hne Hp Ht. unfold Precise.parsedPreciseEnd.
  destruct (String.eqb_spec text EmptyString); [done|].
  rewrite Hp. unfold newDate. by rewrite TimeClip_in_range.
Qed.

Lemma writeText_new (text : string) (v : Computed.View) :
  text <> Precise.preciseEndLocal (Computed.state v) ->
  let v' := Computed.writeText text v in
  Precise.preciseEndLocal (Computed.state v') = text /\
  Computed.futureCache v' = None /\ Computed.preciseDurationCache v' = None /\
  Computed.pendingIsParsed v' = false /\
  Computed.pendingDurationCache v' = Computed.pendingDurationCache v.
Proof.
  intros Hne. unfold Computed.writeText.
  destruct (String.eqb_spec text (Precise.preciseEndLocal (Computed.state v))); [done|].
  repeat split.
Qed.

(** X10.  [preciseEndIsFuture] is read through its cache.  Every run of
    the component with its caches is a run of [Precise.exec], and a
    click on Preview acts as [previewPreciseEnd] at the clock reading at
    which the value it reads was computed: that of the click when no
    value is cached.  So once a text that reads
    as the valid date [t] has been entered and the ref read at [now0],
    a click at any later reading [now1] makes [t] the pending end when
    [now0 < t], also when [t] is no longer after [now1], and the run that
    [confirmStart()] then starts at or after [t] shows the banner at
    once; when [t <= now0] the click changes nothing. *)
Theorem preview_reads_cached_future (rt : Precise.Runtime) :
  (forall evs, exists evs',
     Computed.state (Computed.exec rt evs) = Precise.exec rt evs') /\
  (forall evs now,
     let v := Computed.exec rt evs in
     exists now0,
       Computed.state (Computed.step rt v (Computed.Do (Precise.ClickPreview now)))
       = Precise.previewPreciseEnd rt now0 (Computed.state v) /\
       (Computed.futureCache v = None -> now0 = now)) /\
  (forall v text t now0 now1,
     text <> Precise.preciseEndLocal (Computed.state v) -> text <> EmptyString ->
     Precise.DateParse rt text = Num t -> Z.abs t <= maxTimeValue ->
     let v1 := Computed.step rt
                 (Computed.step rt v (Computed.Do (Precise.InputPrecise text)))
                 (Computed.ReadFuture now0) in
     let st2 := Computed.state
                  (Computed.step rt v1 (Computed.Do (Precise.ClickPreview now1))) in
     (now0 < t ->
      Precise.pendingMinutes st2 = None /\
      Precise.pendingExactEnd st2 = Some (mkDate (Num t)) /\
      forall now2 now2',
        t <= now2' ->
        OverdueView.overdueBanner
          (Precise.run (Precise.confirmStart now2 now2' st2)) = true) /\
     (t <= now0 -> st2 = Computed.state v1)).
Proof.
  split; [apply computed_exec_state|]. split.
  - intros evs now v. pose proof (coherent_exec rt evs) as (H1 & _). fold v in H1.
    cbn [Computed.step]. unfold Computed.previewPreciseEnd, Computed.readFuture.
    destruct (Computed.futureCache v) as [b|] eqn:E.
    + destruct (H1 b eq_refl) as (now0 & ->). exists now0. split; [|discriminate].
      unfold Precise.previewPreciseEnd.
      destruct (Precise.preciseEndIsFuture rt _ now0); cbn [negb]; [|reflexivity].
      by destruct (Precise.parsedPreciseEnd rt _).
    + exists now. split; [|reflexivity].
      unfold Precise.previewPreciseEnd. cbn [Computed.state].
      destruct (Precise.preciseEndIsFuture rt _ now); cbn [negb]; [|reflexivity].
      by destruct (Precise.parsedPreciseEnd rt _).
  - intros v text t now0 now1 Hnew Hne Hp Ht v1 st2.
    pose proof (parsedPreciseEnd_text rt text t Hne Hp Ht) as Hparsed.
    destruct (writeText_new text v Hnew) as (Htext & Hf & _).
    set (v0 := Computed.writeText text v) in *.
    assert (Hb : Precise.preciseEndIsFuture rt text now0 = (now0 <? t)).
    { unfold Precise.preciseEndIsFuture. by rewrite Hparsed. }
    assert (Hv1 : v1 = Computed.mkView (Computed.state v0) (Some (now0 <? t))
                         (Computed.preciseDurationCache v0)
                         (Computed.pendingDurationCache v0)
                         (Computed.pendingIsParsed v0)).
    { unfold v1. cbn [Computed.step]. fold v0. unfold Computed.readFuture.
      rewrite Hf, Htext, Hb. reflexivity. }
    unfold st2. rewrite Hv1. cbn [Computed.step].
    unfold Computed.previewPreciseEnd, Computed.readFuture.
    cbn [Computed.futureCache Computed.state]. rewrite Htext, Hparsed.
    destruct (Z.ltb_spec now0 t) as [Hlt | Hge]; cbn [negb Computed.state].
    + split; [|lia]. intros _. split; [reflexivity|]. split; [reflexivity|].
      intros now2 now2' Hover. unfold Precise.confirmStart. cbn.
      destruct (Z.leb_spec (t - now2') 0); [reflexivity | lia].
    + split; [lia|]. intros _. reflexivity.
Qed.

(** X18.  The two durations are read through their caches: in every
    reachable view each cache holds the value of its getter at the clock
    reading of some evaluation, for the text and the pending end of the
    view.  After a new text that reads as the valid date [t], the
    duration of the hint read at [now0] is [t - now0], and a further
    read returns the same value and leaves the view as it is, whatever
    the clock shows.  After the text has been entered, read as a date
    ahead and previewed, the duration of the confirmation read at [now2]
    is [t - now2], and a further read returns the same value and leaves
    the view as it is: neither duration counts down. *)
Theorem durations_are_cached (rt : Precise.Runtime) :
  (forall evs, coherent rt (Computed.exec rt evs)) /\
  (forall v text t now0 now1,
     text <> Precise.preciseEndLocal (Computed.state v) -> text <> EmptyString ->
     Precise.DateParse rt text = Num t -> Z.abs t <= maxTimeValue ->
     let v1 := Computed.step rt
                 (Computed.step rt v (Computed.Do (Precise.InputPrecise text)))
                 (Computed.ReadPreciseDuration now0) in
     Computed.readPreciseDuration rt now1 v1 = (Num (t - now0), v1)) /\
  (forall v text t now0 now1 now2 now3,
     text <> Precise.preciseEndLocal (Computed.state v) -> text <> EmptyString ->
     Precise.DateParse rt text = Num t -> Z.abs t <= maxTimeValue ->
     now0 < t ->
     let v3 := Computed.step rt
                 (Computed.step rt
                    (Computed.step rt
                       (Computed.step rt v (Computed.Do (Precise.InputPrecise text)))
                       (Computed.ReadFuture now0))
                    (Computed.Do (Precise.ClickPreview now1)))
                 (Computed.ReadPendingDuration now2) in
     Precise.pendingExactEnd (Computed.state v3) = Some (mkDate (Num t)) /\
     Computed.readPendingDuration now3 v3 = (Some (Num (t - now2)), v3)).
Proof.
  split; [apply coherent_exec|]. split.
  - intros v text t now0 now1 Hnew Hne Hp Ht v1.
    pose proof (parsedPreciseEnd_text rt text t Hne Hp Ht) as Hparsed.
    destruct (writeText_new text v Hnew) as (Htext & _ & Hd & _).
    set (v0 := Computed.writeText text v) in *.
    assert (Hv1 : v1 = Computed.mkView (Computed.state v0) (Computed.futureCache v0)
                         (Some (Num (t - now0)))
                         (Computed.pendingDurationCache v0)
                         (Computed.pendingIsParsed v0)).
    { unfold v1. cbn [Computed.step]. fold v0. unfold Computed.readPreciseDuration.
      rewrite Hd. unfold OverdueView.preciseDurationMs. rewrite Htext, Hparsed.
      reflexivity. }
    rewrite Hv1. reflexivity.
  - intros v text t now0 now1 now2 now3 Hnew Hne Hp Ht Hlt v3.
    pose proof (parsedPreciseEnd_text rt text t Hne Hp Ht) as Hparsed.
    destruct (writeText_new text v Hnew) as (Htext & Hf & _ & Hflag & _).
    set (v0 := Computed.writeText text v) in *.
    assert (Hb : Precise.preciseEndIsFuture rt text now0 = true).
    { unfold Precise.preciseEndIsFuture. rewrite Hparsed. by apply Z.ltb_lt. }
    set (st2 := Precise.set_pending None (Some (mkDate (Num t))) (Computed.state v0)).
    assert (Hv3 : v3 = Computed.mkView st2 (Some true)
                         (Computed.preciseDurationCache v0)
                         (Some (Some (Num (t - now2)))) true).
    { unfold v3. cbn [Computed.step]. fold v0.
      assert (H1 : snd (Computed.readFuture rt now0 v0)
                   = Computed.mkView (Computed.state v0) (Some true)
                       (Computed.preciseDurationCache v0)
                       (Computed.pendingDurationCache v0) false).
      { unfold Computed.readFuture. rewrite Hf, Htext, Hb, Hflag. reflexivity. }
      rewrite H1.
      assert (H2 : Computed.previewPreciseEnd rt now1
                     (Computed.mkView (Computed.state v0) (Some true)
                        (Computed.preciseDurationCache v0)
                        (Computed.pendingDurationCache v0) false)
                   = Computed.mkView st2 (Some true)
                       (Computed.preciseDurationCache v0) None true).
      { unfold Computed.previewPreciseEnd, Computed.readFuture.
        cbn [Computed.futureCache Computed.state negb Computed.pendingIsParsed
             Computed.preciseDurationCache].
        rewrite Htext, Hparsed. reflexivity. }
      rewrite H2. reflexivity. }
    rewrite Hv3. split; reflexivity.
Qed.

(** ** The extra theorems at concrete inputs *)

Lemma autostop_expired_witness :
  let st := AutoStop.step
              (AutoStop.exec [AutoStop.ClickOption M10 1700000000000 1700000000000])
              (AutoStop.Tick 0 1700000600001) in
  running (AutoStop.run st) = false /\
  remainingMs (AutoStop.run st) = Num 0 /\
  endTime (AutoStop.run st) = Some (mkDate (Num 1700000600000)).
Proof.
  destruct (autostop_expired [AutoStop.ClickOption M10 1700000000000 1700000000000]
              0%nat 1700000600001 1700000600000 (mkDate (Num 1700000600000)))
    as (H1 & _ & _ & _ & H2 & H3 & _).
  - reflexivity.
  - reflexivity.
  - lia.
  - split; [exact H1|]. split; [exact H3 | exact H2].
Defined.

Lemma overdue_banner_witness :
  OverdueView.overdueBanner
    (Precise.run (Precise.step exampleRuntime
       (Precise.exec exampleRuntime
          [Precise.ChoosePreset M10; Precise.ConfirmStart 1700000000000 1700000000000])
       (Precise.Tick 0 1700000600001))) = true.
Proof.
  destruct (overdue_banner exampleRuntime
              [Precise.ChoosePreset M10; Precise.ConfirmStart 1700000000000 1700000000000]
              0%nat 1700000600001 1700000600000 (mkDate (Num 1700000600000)))
    as (H1 & _).
  - reflexivity.
  - reflexivity.
  - exact H1.
Defined.

Lemma overdue_countdown_witness :
  OverdueView.countdown (Num (- 61000)) = "-01:01"%string /\
  OverdueView.countdown (Num (- 1)) = "-00:00"%string.
Proof.
  split.
  - destruct (overdue_countdown 61000) as (_ & _ & _ & H & _).
    etransitivity; [apply H; lia | reflexivity].
  - destruct (overdue_countdown (- 1)) as (_ & _ & _ & _ & H). apply H. lia.
Defined.

Lemma clamped_countdown_witness :
  AutoStopView.countdown (Num (- 5000)) = "00:00"%string.
Proof.
  destruct (clamped_countdown (Num (- 5000))) as (_ & H & _).
  apply (H (- 5000)); [reflexivity | lia].
Defined.

Lemma formatDuration_parts_witness :
  OverdueView.formatDuration (Num 59999) = "0m"%string.
Proof.
  destruct (formatDuration_parts 59999) as (_ & _ & _ & H). apply H. lia.
Defined.

Lemma getOffsetMs_truncates_witness :
  EndOfDay.getOffsetMs newYorkOffset (Num 1709965800123) = Some (Num (- 18000123)).
Proof.
  destruct (getOffsetMs_truncates newYorkOffset 1709965800123
              (off_whole_of_cases _ newYork_cases) (off_bound_of_cases _ newYork_cases))
    as [H _].
  - vm_compute. split; congruence.
  - exact H.
Defined.

Lemma shortcutHalfPast_proposes_witness :
  exists t, LocalClock.halfPast exampleRuntime 1709965800000 = mkDate (Num t) /\
            1709965800000 < t.
Proof.
  destruct (shortcutHalfPast_proposes exampleRuntime (- 18000000) 1709965800000
              1709965800000 Precise.initial fixedZone_example)
    as (t & H1 & H2 & _).
  - vm_compute. congruence.
  - exists t. split; [exact H1 | lia].
Defined.

Lemma shortcutEndOfHour_proposes_witness :
  exists t, LocalClock.endOfHour exampleRuntime 1709965800000 = mkDate (Num t) /\
            1709965800000 < t.
Proof.
  destruct (shortcutEndOfHour_proposes exampleRuntime (- 18000000) 1709965800000
              1709965800000 Precise.initial fixedZone_example)
    as (t & H1 & H2 & _).
  - vm_compute. congruence.
  - exists t. split; [exact H1 | lia].
Defined.

Lemma shortcutNextHour_proposes_witness :
  exists t, LocalClock.nextHour exampleRuntime 1709965800000 = mkDate (Num t) /\
            1709965800000 < t.
Proof.
  destruct (shortcutNextHour_proposes exampleRuntime (- 18000000) 1709965800000
              1709965800000 Precise.initial fixedZone_example)
    as (t & H1 & H2 & _).
  - vm_compute. congruence.
  - exists t. split; [exact H1 | lia].
Defined.

Lemma shortcutNoon_proposes_witness :
  exists t, LocalClock.noon exampleRuntime 1709965800000 = mkDate (Num t) /\
            1709965800000 < t.
Proof.
  destruct (shortcutNoon_proposes exampleRuntime (- 18000000) 1709965800000
              1709965800000 Precise.initial fixedZone_example)
    as (t & H1 & H2 & _).
  - vm_compute. congruence.
  - exists t. split; [exact H1 | lia].
Defined.

Lemma shortcutEndOfDay_proposes_witness :
  exists r, EndOfDay.targetMs newYorkOffset 1709965800000 = Some (Num r) /\
            Precise.pendingExactEnd
              (Precise.shortcutEndOfDay exampleRuntime 1709965800000 1709965800000
                 Precise.initial)
            = Some (mkDate (Num r)).
Proof.
  destruct (shortcutEndOfDay_proposes exampleRuntime (- 18000000) 1709965800000
              1709965800000 Precise.initial fixedZone_example)
    as (r & H1 & H2 & _ & H4).
  - reflexivity.
  - apply newYork_cases.
  - apply newYork_stable.
  - vm_compute. split; congruence.
  - exists r. split; [exact H1|].
    destruct H4 as (_ & _ & _ & H & _). apply H. lia.
Defined.


Lemma preview_reads_cached_future_witness :
  let rt := Precise.mkRuntime (fun t => t) (fun t => t) (fun _ => Num 1700000580000)
              newYorkOffset in
  Precise.pendingExactEnd
    (Computed.state
       (Computed.exec rt
          [Computed.Do (Precise.InputPrecise "2023-11-14T22:23");
           Computed.ReadFuture 1700000000000;
           Computed.Do (Precise.ClickPreview 1700000600000)]))
  = Some (mkDate (Num 1700000580000)).
Proof.
  intros rt.
  destruct (preview_reads_cached_future rt) as (_ & _ & H).
  destruct (H Computed.initial "2023-11-14T22:23"%string 1700000580000
              1700000000000 1700000600000) as [H1 _].
  - discriminate.
  - discriminate.
  - reflexivity.
  - vm_compute. discriminate.
  - destruct H1 as (_ & H1 & _); [lia | exact H1].
Defined.

Lemma durations_are_cached_witness :
  let rt := Precise.mkRuntime (fun t => t) (fun t => t) (fun _ => Num 1700000580000)
              newYorkOffset in
  fst (Computed.readPendingDuration 1700000005000
         (Computed.exec rt
            [Computed.Do (Precise.InputPrecise "2023-11-14T22:23");
             Computed.ReadFuture 1700000000000;
             Computed.Do (Precise.ClickPreview 1700000000000);
             Computed.ReadPendingDuration 1700000000000]))
  = Some (Num 580000).
Proof.
  intros rt.
  destruct (durations_are_cached rt) as (_ & _ & H).
  destruct (H Computed.initial "2023-11-14T22:23"%string 1700000580000
              1700000000000 1700000000000 1700000000000 1700000005000) as [_ H1].
  - discriminate.
  - discriminate.
  - reflexivity.
  - vm_compute. discriminate.
  - lia.
  - unfold Computed.exec. cbn [fold_left]. rewrite H1. reflexivity.
Defined.
